(** * EDC demo: policy evaluator, contract negotiation and transfer process

  A shallow embedding of the provider connector of the dataspace demo:
  - [shared/models.py]: constraints, permissions, prohibitions, policies;
  - [shared/policies.py]: [PolicyEvaluator] and the policy templates;
  - [provider-connector/store.py]: the in-memory store;
  - [provider-connector/contracts.py]: the negotiation handlers;
  - [provider-connector/transfers.py]: the transfer handlers;
  - [provider-connector/main.py]: [reset_demo];
  - [provider-connector/data_plane.py]: [preview_asset];
  - [provider-connector/catalog.py]: [get_dataset], [get_catalog] and
    [get_policy].

  What the embedding covers and what it leaves out:
  - Python values are the type [value]: [None], booleans, integers,
    strings, lists and dicts.  Floating point numbers are left out, and
    strings are ASCII strings (every identifier of the policy templates
    is): [upper], [lower] and [repr] are [str.upper], [str.lower] and
    [repr] on the strings that satisfy [is_ascii], and what they give on
    other strings is not what Python gives.
  - An expression either has a value or raises [TypeError],
    [AttributeError] or [NameError]; a handler either answers, raises an
    [HTTPException], or lets such an exception through.
  - The store of a handler is the dict [_store] with its five keys, the
    shape [initialize_store] is written to bind it to.  The module binds
    [_store] to the empty dict and [initialize_store] raises before it
    binds it again, so a store with the five keys is one the caller has
    installed: the statements hold of every such store, and the
    [KeyError] of a handler on the empty dict is left out.  The clock,
    [uuid4] and the sample-data files are inputs of each request
    ([env]).
  - The routes that list the store, and the JSON-LD envelope of the
    answers, are left out; so is the consumer connector, which keeps a
    mirror of what the provider answers. *)

From Stdlib Require Import ZArith String Ascii List Bool Lia.
From Stdlib Require Import DecimalString.
From stdpp Require Import base gmap strings list.

Set Warnings "-register-all".
Local Open Scope string_scope.
Local Open Scope list_scope.

(** ** Python values and the operations the evaluator applies to them *)

Module Py.

(** JSON-like Python values: [None], [bool], [int], [str], [list] and
    [dict] (insertion-ordered, keys unique). *)
Inductive value : Type :=
| VNone
| VBool (b : bool)
| VInt (n : Z)
| VStr (s : string)
| VList (l : list value)
| VDict (d : list (string * value)).

(** The exceptions the modelled code can raise. *)
Inductive exn : Type :=
| TypeError
| AttributeError
| NameError.

(** Outcome of a Python expression: a value or a raised exception. *)
Inductive res (A : Type) : Type :=
| Ok (a : A)
| Raise (e : exn).
Arguments Ok {A} a.
Arguments Raise {A} e.

Definition res_bind {A B} (r : res A) (k : A -> res B) : res B :=
  match r with
  | Ok a => k a
  | Raise e => Raise e
  end.

(** [bool] is a subclass of [int]: [True == 1] and [False == 0]. *)
Definition as_int (v : value) : option Z :=
  match v with
  | VBool b => Some (if b then 1%Z else 0%Z)
  | VInt n => Some n
  | _ => None
  end.

Fixpoint assoc (k : string) (d : list (string * value)) : option value :=
  match d with
  | [] => None
  | (k', v) :: d' => if String.eqb k k' then Some v else assoc k d'
  end.

(** [a == b]. *)
Fixpoint py_eq (a b : value) {struct a} : bool :=
  match a, b with
  | VNone, VNone => true
  | VBool x, (VBool _ | VInt _) | VInt x, (VBool _ | VInt _) =>
      match as_int a, as_int b with
      | Some m, Some n => Z.eqb m n
      | _, _ => false
      end
  | VStr s, VStr t => String.eqb s t
  | VList l1, VList l2 =>
      (fix list_eq (l1 l2 : list value) {struct l1} : bool :=
         match l1, l2 with
         | [], [] => true
         | x :: l1', y :: l2' => py_eq x y && list_eq l1' l2'
         | _, _ => false
         end) l1 l2
  | VDict d1, VDict d2 =>
      Nat.eqb (length d1) (length d2) &&
      (fix dict_sub (d1 : list (string * value)) {struct d1} : bool :=
         match d1 with
         | [] => true
         | (k, v) :: d1' =>
             match assoc k d2 with
             | Some w => py_eq v w && dict_sub d1'
             | None => false
             end
         end) d1
  | _, _ => false
  end.

(** The four ordering operators of the evaluator. *)
Inductive cmp_op : Type := Gt | Lt | Ge | Le.

Definition cmp_Z (op : cmp_op) (m n : Z) : bool :=
  match op with
  | Gt => Z.ltb n m
  | Lt => Z.ltb m n
  | Ge => Z.leb n m
  | Le => Z.leb m n
  end.

Definition cmp_string (op : cmp_op) (s t : string) : bool :=
  match op with
  | Gt => String.ltb t s
  | Lt => String.ltb s t
  | Ge => String.leb t s
  | Le => String.leb s t
  end.

(** [a op b] for [op] one of [>], [<], [>=], [<=]: numbers with numbers,
    strings with strings (by code point), lists with lists (the first
    pair of unequal items decides, else the lengths); anything else
    raises [TypeError]. *)
Fixpoint py_cmp (op : cmp_op) (a b : value) {struct a} : res bool :=
  match a, b with
  | VBool _, (VBool _ | VInt _) | VInt _, (VBool _ | VInt _) =>
      match as_int a, as_int b with
      | Some m, Some n => Ok (cmp_Z op m n)
      | _, _ => Raise TypeError
      end
  | VStr s, VStr t => Ok (cmp_string op s t)
  | VList l1, VList l2 =>
      (fix list_cmp (l1 l2 : list value) {struct l1} : res bool :=
         match l1, l2 with
         | x :: l1', y :: l2' =>
             if py_eq x y then list_cmp l1' l2' else py_cmp op x y
         | _, _ =>
             Ok (cmp_Z op (Z.of_nat (length l1)) (Z.of_nat (length l2)))
         end) l1 l2
  | _, _ => Raise TypeError
  end.

(** [x in l] for a list [l]. *)
Definition py_in_list (x : value) (l : list value) : bool :=
  existsb (fun item => py_eq item x) l.

(** [isinstance(v, list)]. *)
Definition is_list (v : value) : option (list value) :=
  match v with
  | VList l => Some l
  | _ => None
  end.

(** Lists and dicts are unhashable. *)
Definition hashable (v : value) : bool :=
  match v with
  | VList _ | VDict _ => false
  | _ => true
  end.

(** [set(l)]: the items, or [TypeError] on an unhashable item. *)
Definition py_set (l : list value) : res (list value) :=
  if forallb hashable l then Ok l else Raise TypeError.

(** [bool(s & t)] for two sets. *)
Definition sets_intersect (s t : list value) : bool :=
  existsb (fun x => py_in_list x t) s.

(** [not v] is [negb (truthy v)]. *)
Definition truthy (v : value) : bool :=
  match v with
  | VNone => false
  | VBool b => b
  | VInt n => negb (Z.eqb n 0)
  | VStr s => negb (String.eqb s "")
  | VList l => negb (Nat.eqb (length l) 0)
  | VDict d => negb (Nat.eqb (length d) 0)
  end.

(** *** Strings *)

Definition upper_ascii (c : ascii) : ascii :=
  let n := nat_of_ascii c in
  if Nat.leb 97 n && Nat.leb n 122 then ascii_of_nat (n - 32) else c.

Definition lower_ascii (c : ascii) : ascii :=
  let n := nat_of_ascii c in
  if Nat.leb 65 n && Nat.leb n 90 then ascii_of_nat (n + 32) else c.

Fixpoint map_string (f : ascii -> ascii) (s : string) : string :=
  match s with
  | EmptyString => EmptyString
  | String c s' => String (f c) (map_string f s')
  end.

(** The strings of ASCII characters: every code point is below 128. *)
Fixpoint is_ascii (s : string) : bool :=
  match s with
  | EmptyString => true
  | String c s' => Nat.ltb (nat_of_ascii c) 128 && is_ascii s'
  end.

(** [s.upper()] and [s.lower()] of a string that satisfies [is_ascii].
    On other strings Python follows the case mappings of Unicode, which
    are not modelled: here a character of 128 and above is left as it
    is. *)
Definition upper : string -> string := map_string upper_ascii.
Definition lower : string -> string := map_string lower_ascii.

(** [sub in s] for two strings. *)
Fixpoint str_contains (sub s : string) : bool :=
  String.prefix sub s ||
  match s with
  | EmptyString => false
  | String _ s' => str_contains sub s'
  end.

Fixpoint occurs (c : ascii) (s : string) : bool :=
  match s with
  | EmptyString => false
  | String c' s' => Ascii.eqb c c' || occurs c s'
  end.

Definition hex_digit (n : nat) : ascii :=
  if Nat.ltb n 10 then ascii_of_nat (48 + n) else ascii_of_nat (87 + n).

Definition repr_char (quote c : ascii) : string :=
  let n := nat_of_ascii c in
  if Ascii.eqb c quote || Ascii.eqb c "\" then String "\" (String c "")
  else if Nat.eqb n 9 then "\t"
  else if Nat.eqb n 10 then "\n"
  else if Nat.eqb n 13 then "\r"
  else if Nat.ltb n 32 || Nat.leb 127 n
       then "\x" +:+ String (hex_digit (n / 16)) (String (hex_digit (n mod 16)) "")
  else String c "".

Fixpoint repr_chars (quote : ascii) (s : string) : string :=
  match s with
  | EmptyString => ""
  | String c s' => repr_char quote c +:+ repr_chars quote s'
  end.

Definition double_quote : ascii := ascii_of_nat 34.

(** [repr(s)] of a string: single quotes unless the string has a single
    quote and no double quote. *)
Definition repr_string (s : string) : string :=
  let quote : ascii :=
    if occurs "'" s && negb (occurs double_quote s) then double_quote else "'"%char in
  String quote (repr_chars quote s) +:+ String quote "".

Definition str_int (n : Z) : string := NilZero.string_of_int (Z.to_int n).

Fixpoint join (sep : string) (l : list string) : string :=
  match l with
  | [] => ""
  | [s] => s
  | s :: l' => s +:+ sep +:+ join sep l'
  end.

(** [repr(v)] of a value whose strings satisfy [is_ascii]; a character of
    127 and above is written as an escape, as Python writes the ones of
    them it does not print. *)
Fixpoint repr (v : value) : string :=
  match v with
  | VNone => "None"
  | VBool b => if b then "True" else "False"
  | VInt n => str_int n
  | VStr s => repr_string s
  | VList l => "[" +:+ join ", " (map repr l) +:+ "]"
  | VDict d =>
      "{" +:+ join ", " (map (fun kv => repr_string (fst kv) +:+ ": " +:+ repr (snd kv)) d)
          +:+ "}"
  end.

(** [str(v)]: a string is itself, any other value is its [repr]. *)
Definition str (v : value) : string :=
  match v with
  | VStr s => s
  | _ => repr v
  end.

(** [x in s] for a string [s]: [x] has to be a string too. *)
Definition py_in_str (x : value) (s : string) : res bool :=
  match x with
  | VStr sub => Ok (str_contains sub s)
  | _ => Raise TypeError
  end.

End Py.


(** ** shared/models.py *)

Module Models.
Import Py.

Record Constraint : Type := {
  left_operand : string;
  operator : string;
  right_operand : value
}.

Record Permission : Type := {
  permission_action : string;
  permission_constraints : list Constraint
}.

Record Prohibition : Type := {
  prohibition_action : string;
  prohibition_constraints : list Constraint
}.

Record Obligation : Type := {
  obligation_action : string;
  obligation_constraints : list Constraint
}.

Record Policy : Type := {
  policy_id : string;
  permissions : list Permission;
  prohibitions : list Prohibition;
  obligations : list Obligation
}.

(** One entry of [evaluated_constraints]: the dict with the keys
    [constraint], [context_value] and [satisfied]. *)
Record constraint_result : Type := {
  constraint : string;
  context_value : value;
  satisfied : bool
}.

Record PolicyEvaluationResult : Type := {
  allowed : bool;
  reason : option string;
  evaluated_constraints : list constraint_result
}.

End Models.

(** ** shared/policies.py *)

Module Policies.
Import Py Models.

(** The request context: a dict from attribute names to values. *)
Abbreviation context := (gmap string value).

(** [evaluate] receives references to a policy and to a context dict; the
    objects they point to are threaded through every step, so that what
    the evaluator does to them is part of its result. *)
Record heap : Type := {
  h_policy : Policy;
  h_context : context
}.

Definition M (A : Type) : Type := heap -> res A * heap.

Definition ret {A} (a : A) : M A := fun h => (Ok a, h).

Definition bind {A B} (m : M A) (k : A -> M B) : M B :=
  fun h =>
    match m h with
    | (Ok a, h') => k a h'
    | (Raise e, h') => (Raise e, h')
    end.

Definition lift {A} (r : res A) : M A := fun h => (r, h).

Notation "x <- m ;; k" := (bind m (fun x => k))
  (at level 100, m at next level, right associativity).

(** [policy.prohibitions], [policy.permissions]: reading the policy. *)
Definition the_policy : M Policy := fun h => (Ok (h_policy h), h).

(** [context.get(key)]. *)
Definition context_get (key : string) : M (option value) :=
  fun h => (Ok (h_context h !! key), h).

(** [context.get(key, default)]. *)
Definition context_get_default (key : string) (d : value) : M value :=
  v <- context_get key ;; ret (default d v).

(** [PolicyEvaluator._action_matches]: [.upper()] exists on strings only. *)
Definition _action_matches (policy_action : string) (request_action : value)
  : res bool :=
  match request_action with
  | VStr a => Ok (String.eqb (upper policy_action) (upper a))
  | _ => Raise AttributeError
  end.

(** [PolicyEvaluator._evaluate_single_constraint]. *)
Definition _evaluate_single_constraint (c : Constraint) : M bool :=
  left <- context_get (left_operand c) ;;
  let right_value := right_operand c in
  let operator := lower (operator c) in
  match left with
  | None | Some VNone => ret false
  | Some left_value =>
      if String.eqb operator "eq" then ret (py_eq left_value right_value)
      else if String.eqb operator "neq" then ret (negb (py_eq left_value right_value))
      else if String.eqb operator "in" then
        match is_list right_value with
        | Some items => ret (py_in_list left_value items)
        | None => ret false
        end
      else if String.eqb operator "gt" then lift (py_cmp Gt left_value right_value)
      else if String.eqb operator "lt" then lift (py_cmp Lt left_value right_value)
      else if String.eqb operator "gte" then lift (py_cmp Ge left_value right_value)
      else if String.eqb operator "lte" then lift (py_cmp Le left_value right_value)
      else if String.eqb operator "contains" then
        match is_list left_value with
        | Some items => ret (py_in_list right_value items)
        | None => lift (py_in_str right_value (str left_value))
        end
      else if String.eqb operator "has_any" then
        match is_list left_value, is_list right_value with
        | Some l, Some r =>
            s <- lift (py_set l) ;;
            t <- lift (py_set r) ;;
            ret (sets_intersect s t)
        | _, _ => ret false
        end
      else ret false
  end.

(** The f-string [f"{left_operand} {operator} {right_operand}"]. *)
Definition constraint_description (c : Constraint) : string :=
  left_operand c +:+ " " +:+ operator c +:+ " " +:+ str (right_operand c).

(** The loop of [PolicyEvaluator._evaluate_constraints], [results] being
    the list built so far. *)
Fixpoint evaluate_constraints_loop (constraints : list Constraint)
    (results : list constraint_result) : M (list constraint_result) :=
  match constraints with
  | [] => ret results
  | c :: constraints' =>
      sat <- _evaluate_single_constraint c ;;
      observed <- context_get_default (left_operand c) (VStr "NOT_PROVIDED") ;;
      evaluate_constraints_loop constraints'
        (results ++ [ {| constraint := constraint_description c;
                         context_value := observed;
                         satisfied := sat |} ])
  end.

Definition _evaluate_constraints (constraints : list Constraint)
  : M (list constraint_result) :=
  evaluate_constraints_loop constraints [].

(** [all(r["satisfied"] for r in constraint_results)]. *)
Definition all_satisfied (constraint_results : list constraint_result) : bool :=
  forallb satisfied constraint_results.

(** The first loop of [evaluate]: [inl] is the early return of a
    prohibition, [inr] the list [evaluated_constraints] at the loop's end. *)
Fixpoint prohibitions_loop (ps : list Prohibition)
    (evaluated : list constraint_result)
  : M (PolicyEvaluationResult + list constraint_result) :=
  match ps with
  | [] => ret (inr evaluated)
  | prohibition :: ps' =>
      request_action <- context_get_default "action" (VStr "USE") ;;
      matches <- lift (_action_matches (prohibition_action prohibition) request_action) ;;
      if matches : bool then
        constraint_results <- _evaluate_constraints (prohibition_constraints prohibition) ;;
        if all_satisfied constraint_results then
          ret (inl {| allowed := false;
                      reason := Some ("Action '" +:+ prohibition_action prohibition
                                        +:+ "' is prohibited");
                      evaluated_constraints := constraint_results |})
        else prohibitions_loop ps' (evaluated ++ constraint_results)
      else prohibitions_loop ps' evaluated
  end.

(** The second loop of [evaluate], with the default deny after it. *)
Fixpoint permissions_loop (ps : list Permission)
    (evaluated : list constraint_result) : M PolicyEvaluationResult :=
  match ps with
  | [] =>
      ret {| allowed := false;
             reason := Some "No matching permission found";
             evaluated_constraints := evaluated |}
  | permission :: ps' =>
      request_action <- context_get_default "action" (VStr "USE") ;;
      matches <- lift (_action_matches (permission_action permission) request_action) ;;
      if matches : bool then
        match permission_constraints permission with
        | [] =>
            ret {| allowed := true;
                   reason := Some "Permission granted (no constraints)";
                   evaluated_constraints := evaluated |}
        | _ :: _ =>
            constraint_results <- _evaluate_constraints (permission_constraints permission) ;;
            let evaluated := evaluated ++ constraint_results in
            if all_satisfied constraint_results then
              ret {| allowed := true;
                     reason := Some "All permission constraints satisfied";
                     evaluated_constraints := evaluated |}
            else permissions_loop ps' evaluated
        end
      else permissions_loop ps' evaluated
  end.

(** [PolicyEvaluator.evaluate]. *)
Definition evaluate : M PolicyEvaluationResult :=
  policy <- the_policy ;;
  blocked <- prohibitions_loop (prohibitions policy) [] ;;
  match blocked with
  | inl denied => ret denied
  | inr evaluated => permissions_loop (permissions policy) evaluated
  end.

(** *** The policy templates *)

Definition TIER1_SUPPLIER_ONLY_POLICY : Policy := {|
  policy_id := "policy-tier1-only";
  permissions :=
    [ {| permission_action := "USE";
         permission_constraints :=
           [ {| left_operand := "partner_type"; operator := "eq";
                right_operand := VStr "tier1_supplier" |} ] |} ];
  prohibitions :=
    [ {| prohibition_action := "DISTRIBUTE"; prohibition_constraints := [] |} ];
  obligations := []
|}.

Definition CERTIFIED_PARTNERS_POLICY : Policy := {|
  policy_id := "policy-certified-partners";
  permissions :=
    [ {| permission_action := "USE";
         permission_constraints :=
           [ {| left_operand := "certification"; operator := "has_any";
                right_operand := VList [VStr "TISAX"; VStr "ISO27001"] |} ] |} ];
  prohibitions :=
    [ {| prohibition_action := "DISTRIBUTE"; prohibition_constraints := [] |};
      {| prohibition_action := "MODIFY"; prohibition_constraints := [] |} ];
  obligations := []
|}.

Definition EU_REGION_POLICY : Policy := {|
  policy_id := "policy-eu-region";
  permissions :=
    [ {| permission_action := "USE";
         permission_constraints :=
           [ {| left_operand := "region"; operator := "in";
                right_operand := VList [VStr "EU"; VStr "EEA"] |} ] |} ];
  prohibitions :=
    [ {| prohibition_action := "DISTRIBUTE"; prohibition_constraints := [] |} ];
  obligations := []
|}.

Definition QUALITY_DATA_POLICY : Policy := {|
  policy_id := "policy-quality-data";
  permissions :=
    [ {| permission_action := "USE";
         permission_constraints :=
           [ {| left_operand := "partner_type"; operator := "in";
                right_operand := VList [VStr "tier1_supplier"; VStr "tier2_supplier"] |};
             {| left_operand := "purpose"; operator := "eq";
                right_operand := VStr "quality_analysis" |} ] |} ];
  prohibitions :=
    [ {| prohibition_action := "DISTRIBUTE"; prohibition_constraints := [] |};
      {| prohibition_action := "ARCHIVE"; prohibition_constraints := [] |} ];
  obligations := []
|}.

Definition TRACEABILITY_POLICY : Policy := {|
  policy_id := "policy-traceability";
  permissions :=
    [ {| permission_action := "USE";
         permission_constraints :=
           [ {| left_operand := "certification"; operator := "contains";
                right_operand := VStr "IATF16949" |} ] |} ];
  prohibitions := [];
  obligations := []
|}.

Definition OPEN_ACCESS_POLICY : Policy := {|
  policy_id := "policy-open-access";
  permissions :=
    [ {| permission_action := "USE"; permission_constraints := [] |} ];
  prohibitions :=
    [ {| prohibition_action := "DISTRIBUTE"; prohibition_constraints := [] |} ];
  obligations := []
|}.

(** Map of policy ids to policy objects. *)
Definition POLICY_TEMPLATES : gmap string Policy :=
  list_to_map
    [ ("tier1-only", TIER1_SUPPLIER_ONLY_POLICY);
      ("certified-partners", CERTIFIED_PARTNERS_POLICY);
      ("eu-region", EU_REGION_POLICY);
      ("quality-data", QUALITY_DATA_POLICY);
      ("traceability", TRACEABILITY_POLICY);
      ("open-access", OPEN_ACCESS_POLICY) ].

Definition permission_description (perm : Permission) : string :=
  let perm_desc := "Allows " +:+ permission_action perm in
  match permission_constraints perm with
  | [] => perm_desc
  | cs => perm_desc +:+ " when: " +:+ join " AND " (map constraint_description cs)
  end.

(** [get_policy_description]. *)
Definition get_policy_description (policy : Policy) : string :=
  let descriptions :=
    map permission_description (permissions policy)
    ++ map (fun prohib => "Prohibits " +:+ prohibition_action prohib) (prohibitions policy) in
  match descriptions with
  | [] => "No restrictions"
  | _ => join "; " descriptions
  end.

(** [evaluator.evaluate(policy, context)] as its caller sees it: the
    result, and the policy and the context after the call. *)
Definition call_evaluate (policy : Policy) (ctx : context)
  : res PolicyEvaluationResult * heap :=
  evaluate {| h_policy := policy; h_context := ctx |}.

End Policies.

(** ** provider-connector/store.py *)

Module Store.
Import Py Models Policies.

(** An asset of the catalog; [policy_id] and [data_file] are keys a record
    may lack. *)
Record asset : Type := {
  asset_id : string;
  asset_name : string;
  asset_description : string;
  asset_content_type : string;
  asset_properties : value;
  asset_policy_id : option string;
  asset_data_file : option string
}.

(** One entry of a [state_history] list; the keys after [timestamp] are
    present in some entries only. *)
Record history_entry : Type := {
  he_state : string;
  he_timestamp : string;
  he_actor : option string;
  he_policy_evaluation : option string;
  he_reason : option string;
  he_agreement_id : option string;
  he_data_size : option nat
}.

Definition entry (state timestamp : string) : history_entry := {|
  he_state := state;
  he_timestamp := timestamp;
  he_actor := None;
  he_policy_evaluation := None;
  he_reason := None;
  he_agreement_id := None;
  he_data_size := None
|}.

Record negotiation : Type := {
  n_id : string;
  n_state : string;
  n_provider_id : string;
  n_consumer_id : string;
  n_asset_id : string;
  n_policy_id : string;
  n_consumer_attributes : context;
  n_callback_address : option string;
  n_created_at : string;
  n_updated_at : string;
  n_state_history : list history_entry;
  n_policy_evaluation : option PolicyEvaluationResult;
  n_agreement_id : option string
}.

Record agreement : Type := {
  a_id : string;
  a_negotiation_id : string;
  a_asset_id : string;
  a_policy_id : string;
  a_policy_description : string;
  a_provider_id : string;
  a_consumer_id : string;
  a_signing_date : string;
  a_status : string
}.

Record transfer : Type := {
  t_id : string;
  t_state : string;
  t_agreement_id : string;
  t_asset_id : string;
  t_provider_id : string;
  t_consumer_id : string;
  t_data_destination : option string;
  t_format : option string;
  t_created_at : string;
  t_state_history : list history_entry;
  t_started_at : option string;
  t_completed_at : option string;
  t_data : option value
}.

Record audit_entry : Type := {
  audit_timestamp : string;
  audit_event : string;
  audit_details : value
}.

(** The global [_store] as a dict with the five keys [initialize_store]
    is written to bind it to.  Every record is
    stored under its own id ([save_negotiation], [save_agreement] and
    [save_transfer] are the only writers), so an update in place followed
    by a save is one insertion. *)
Record store : Type := {
  assets : list asset;
  negotiations : gmap string negotiation;
  agreements : gmap string agreement;
  transfers : gmap string transfer;
  audit_log : list audit_entry
}.

(** What a request reads from outside the store: the eight hexadecimal
    digits of [uuid.uuid4().hex[:8]], the successive readings of
    [datetime.utcnow().isoformat()], and the JSON documents of the
    sample-data directory by file name ([None]: no such file; the files
    that exist are taken to hold JSON). *)
Record env : Type := {
  uuid4_hex8 : string;
  utcnow : nat -> string;
  sample_data : string -> option value
}.

(** [log_event], [timestamp] being the clock reading it takes. *)
Definition log_event (timestamp event_type : string) (details : value)
    (st : store) : store := {|
  assets := assets st;
  negotiations := negotiations st;
  agreements := agreements st;
  transfers := transfers st;
  audit_log :=
    audit_log st ++ [ {| audit_timestamp := timestamp;
                         audit_event := event_type;
                         audit_details := details |} ]
|}.

(** A name used as an expression in [store.py]: the constants [True],
    [False] and [None] have a value, and [true] is bound neither in the
    module nor in the builtins, so evaluating it raises [NameError]. *)
Definition load_name (name : string) : res value :=
  if String.eqb name "True" then Ok (VBool true)
  else if String.eqb name "False" then Ok (VBool false)
  else if String.eqb name "None" then Ok VNone
  else Raise NameError.

(** The list display of [initialize_store] as a function of the value of
    the one name it reads, the value of [automotive:carbonFootprint]. *)
Definition asset_display (carbon_footprint : value) : list asset :=
  [ {| asset_id := "part-catalog-2024";
       asset_name := "2024 Vehicle Part Catalog";
       asset_description :=
         "Complete parts catalog for 2024 model year electric vehicles including powertrain, battery, and chassis components.";
       asset_content_type := "application/json";
       asset_properties :=
         VDict [("automotive:dataCategory", VStr "parts-master");
                ("automotive:vehicleModels",
                 VList [VStr "EV-Sport"; VStr "EV-Sedan"; VStr "EV-SUV"]);
                ("automotive:partCount", VInt 15420);
                ("automotive:lastUpdated", VStr "2024-12-01");
                ("automotive:confidentiality", VStr "internal")];
       asset_policy_id := Some "tier1-only";
       asset_data_file := Some "part-catalog.json" |};
    {| asset_id := "quality-metrics-q4";
       asset_name := "Q4 2024 Quality Metrics";
       asset_description :=
         "Supplier quality performance data for Q4 2024, including PPM rates, delivery performance, and corrective actions.";
       asset_content_type := "application/json";
       asset_properties :=
         VDict [("automotive:dataCategory", VStr "quality");
                ("automotive:reportingPeriod", VStr "2024-Q4");
                ("automotive:confidentiality", VStr "restricted");
                ("automotive:suppliers",
                 VList [VStr "TierOne Electronics"; VStr "BatteryCell Corp";
                        VStr "DriveSystem Parts"; VStr "SuspensionTech"])];
       asset_policy_id := Some "quality-data";
       asset_data_file := Some "quality-data.json" |};
    {| asset_id := "traceability-batch-001";
       asset_name := "Battery Traceability Data";
       asset_description :=
         "Complete traceability data for battery components including raw material origins, manufacturing data, and carbon footprint.";
       asset_content_type := "application/json";
       asset_properties :=
         VDict [("automotive:dataCategory", VStr "traceability");
                ("automotive:componentType", VStr "battery");
                ("automotive:regulatoryCompliance",
                 VList [VStr "EU-Battery-Regulation-2023"; VStr "UN38.3"]);
                ("automotive:carbonFootprint", carbon_footprint)];
       asset_policy_id := Some "certified-partners";
       asset_data_file := Some "traceability-data.json" |} ].

(** The display evaluated: everything before the name [true] is a literal,
    so the first thing that can raise is the name. *)
Definition sample_assets : res (list asset) :=
  res_bind (load_name "true") (fun carbon_footprint => Ok (asset_display carbon_footprint)).

(** The store with the catalog [catalog] and nothing else. *)
Definition store_of (catalog : list asset) : store := {|
  assets := catalog;
  negotiations := ∅;
  agreements := ∅;
  transfers := ∅;
  audit_log := []
|}.

Definition get_asset_by_id (id : string) (st : store) : option asset :=
  find (fun a => String.eqb (asset_id a) id) (assets st).

(** [get_asset_data]: [not data_file] holds of a missing key and of the
    empty string. *)
Definition get_asset_data (e : env) (id : string) (st : store) : option value :=
  match get_asset_by_id id st with
  | None => None
  | Some a =>
      match asset_data_file a with
      | None => None
      | Some data_file =>
          if String.eqb data_file "" then None else sample_data e data_file
      end
  end.

Definition save_negotiation (timestamp : string) (n : negotiation) (st : store)
  : store :=
  log_event timestamp "NEGOTIATION_SAVED"
    (VDict [("negotiation_id", VStr (n_id n)); ("state", VStr (n_state n))])
    {| assets := assets st;
       negotiations := <[n_id n := n]> (negotiations st);
       agreements := agreements st;
       transfers := transfers st;
       audit_log := audit_log st |}.

Definition get_negotiation (id : string) (st : store) : option negotiation :=
  negotiations st !! id.

Definition save_agreement (timestamp : string) (a : agreement) (st : store)
  : store :=
  log_event timestamp "AGREEMENT_SAVED"
    (VDict [("agreement_id", VStr (a_id a))])
    {| assets := assets st;
       negotiations := negotiations st;
       agreements := <[a_id a := a]> (agreements st);
       transfers := transfers st;
       audit_log := audit_log st |}.

Definition get_agreement (id : string) (st : store) : option agreement :=
  agreements st !! id.

Definition save_transfer (timestamp : string) (t : transfer) (st : store)
  : store :=
  log_event timestamp "TRANSFER_SAVED"
    (VDict [("transfer_id", VStr (t_id t)); ("state", VStr (t_state t))])
    {| assets := assets st;
       negotiations := negotiations st;
       agreements := agreements st;
       transfers := <[t_id t := t]> (transfers st);
       audit_log := audit_log st |}.

Definition get_transfer (id : string) (st : store) : option transfer :=
  transfers st !! id.

(** *** What a handler answers *)

(** The [detail] dict of an [HTTPException]. *)
Record detail : Type := {
  error : string;
  message : option string;
  hint : option string
}.

(** A handler fails with an [HTTPException], or with an exception nothing
    catches (the framework answers 500). *)
Inductive failure : Type :=
| HTTPException (status_code : nat) (d : detail)
| Unhandled (e : exn).

(** The answer of a handler and the store after it.  Of a successful
    answer the saved records are kept; the JSON-LD envelope around them
    is left out. *)
Definition handled (A : Type) : Type := (failure + A) * store.

Definition fail {A} (status_code : nat) (err : string) (msg : option string)
    (st : store) : handled A :=
  (inl (HTTPException status_code
          {| error := err; message := msg; hint := None |}), st).

(** [initialize_store]: the dict is built before [_store] is bound to it,
    so when building it raises, [_store] is what it was and nothing is
    logged. *)
Definition initialize_store (e : env) (st : store) : handled unit :=
  match sample_assets with
  | Raise ex => (inl (Unhandled ex), st)
  | Ok catalog =>
      (inr tt,
       log_event (utcnow e 0) "STORE_INITIALIZED"
         (VStr ("Initialized with " +:+ str_int (Z.of_nat (length catalog)) +:+ " assets"))
         (store_of catalog))
  end.

End Store.

(** ** provider-connector/contracts.py *)

Module Contracts.
Import Py Models Policies Store.

Record NegotiationRequest : Type := {
  consumer_id : string;
  request_asset_id : string;
  consumer_attributes : option context;
  callback_address : option string
}.

Record NegotiationAction : Type := {
  action_consumer_attributes : option context
}.

(** [negotiation["state"] = state], [negotiation["updated_at"] = now] and
    [negotiation["state_history"].append(h)]. *)
Definition advance (n : negotiation) (state now : string) (h : history_entry)
  : negotiation := {|
  n_id := n_id n;
  n_state := state;
  n_provider_id := n_provider_id n;
  n_consumer_id := n_consumer_id n;
  n_asset_id := n_asset_id n;
  n_policy_id := n_policy_id n;
  n_consumer_attributes := n_consumer_attributes n;
  n_callback_address := n_callback_address n;
  n_created_at := n_created_at n;
  n_updated_at := now;
  n_state_history := n_state_history n ++ [h];
  n_policy_evaluation := n_policy_evaluation n;
  n_agreement_id := n_agreement_id n
|}.

(** [negotiation["policy_evaluation"] = pe]. *)
Definition set_policy_evaluation (n : negotiation) (pe : PolicyEvaluationResult)
  : negotiation := {|
  n_id := n_id n;
  n_state := n_state n;
  n_provider_id := n_provider_id n;
  n_consumer_id := n_consumer_id n;
  n_asset_id := n_asset_id n;
  n_policy_id := n_policy_id n;
  n_consumer_attributes := n_consumer_attributes n;
  n_callback_address := n_callback_address n;
  n_created_at := n_created_at n;
  n_updated_at := n_updated_at n;
  n_state_history := n_state_history n;
  n_policy_evaluation := Some pe;
  n_agreement_id := n_agreement_id n
|}.

(** [negotiation["agreement_id"] = agreement_id]. *)
Definition set_agreement_id (n : negotiation) (agreement_id : string)
  : negotiation := {|
  n_id := n_id n;
  n_state := n_state n;
  n_provider_id := n_provider_id n;
  n_consumer_id := n_consumer_id n;
  n_asset_id := n_asset_id n;
  n_policy_id := n_policy_id n;
  n_consumer_attributes := n_consumer_attributes n;
  n_callback_address := n_callback_address n;
  n_created_at := n_created_at n;
  n_updated_at := n_updated_at n;
  n_state_history := n_state_history n;
  n_policy_evaluation := n_policy_evaluation n;
  n_agreement_id := Some agreement_id
|}.

(** The 400 answer of a handler that expects the state [expected]. *)
Definition invalid_state {A} (verb current expected : string) (st : store)
  : handled A :=
  fail 400 "INVALID_STATE"
    (Some ("Cannot " +:+ verb +:+ " in state '" +:+ current
             +:+ "'. Expected '" +:+ expected +:+ "'."))
    st.

Definition not_found {A} (st : store) : handled A :=
  fail 404 "NEGOTIATION_NOT_FOUND" None st.

(** [initiate_negotiation]. *)
Definition initiate_negotiation (e : env) (request : NegotiationRequest)
    (st : store) : handled negotiation :=
  match get_asset_by_id (request_asset_id request) st with
  | None =>
      fail 404 "ASSET_NOT_FOUND"
        (Some ("Asset '" +:+ request_asset_id request +:+ "' not found")) st
  | Some asset =>
      let policy_id := default "open-access" (asset_policy_id asset) in
      match POLICY_TEMPLATES !! policy_id with
      | None =>
          fail 500 "POLICY_NOT_FOUND"
            (Some ("Policy '" +:+ policy_id +:+ "' not configured")) st
      | Some policy =>
          let negotiation_id := "negotiation-" +:+ uuid4_hex8 e in
          let now := utcnow e 0 in
          let negotiation := {|
            n_id := negotiation_id;
            n_state := "REQUESTED";
            n_provider_id := "provider-automotors-oem";
            n_consumer_id := consumer_id request;
            n_asset_id := request_asset_id request;
            n_policy_id := policy_id;
            n_consumer_attributes := default ∅ (consumer_attributes request);
            n_callback_address := callback_address request;
            n_created_at := now;
            n_updated_at := now;
            n_state_history :=
              [ {| he_state := "REQUESTED";
                   he_timestamp := now;
                   he_actor := Some (consumer_id request);
                   he_policy_evaluation := None;
                   he_reason := None;
                   he_agreement_id := None;
                   he_data_size := None |} ];
            n_policy_evaluation := None;
            n_agreement_id := None
          |} in
          let st := save_negotiation (utcnow e 1) negotiation st in
          let st :=
            log_event (utcnow e 2) "NEGOTIATION_INITIATED"
              (VDict [("negotiation_id", VStr negotiation_id);
                      ("consumer_id", VStr (consumer_id request));
                      ("asset_id", VStr (request_asset_id request))]) st in
          (inr negotiation, st)
      end
  end.

(** [policy_evaluator.evaluate(policy, consumer_attrs)] as [provider_offer]
    calls it: [policy] is [None] for an id outside the templates, and
    [consumer_attrs] is [None] when the request body leaves
    [consumer_attributes] out; reading an attribute of [None] raises
    [AttributeError], and a policy with neither prohibition nor permission
    never reads its context.  The evaluator hands the policy and the
    context back as it received them, so the result is all that is kept. *)
Definition evaluate_offer (policy : option Policy) (consumer_attrs : option context)
  : res PolicyEvaluationResult :=
  match policy with
  | None => Raise AttributeError
  | Some policy =>
      match consumer_attrs with
      | Some ctx => fst (call_evaluate policy ctx)
      | None =>
          match prohibitions policy, permissions policy with
          | [], [] => fst (call_evaluate policy ∅)
          | _, _ => Raise AttributeError
          end
      end
  end.

(** [provider_offer]: [action] is the optional request body. *)
Definition provider_offer (e : env) (negotiation_id : string)
    (action : option NegotiationAction) (st : store) : handled negotiation :=
  match get_negotiation negotiation_id st with
  | None => not_found st
  | Some negotiation =>
      if negb (String.eqb (n_state negotiation) "REQUESTED") then
        invalid_state "offer" (n_state negotiation) "REQUESTED" st
      else
        let policy := POLICY_TEMPLATES !! n_policy_id negotiation in
        let consumer_attrs :=
          match action with
          | Some a => action_consumer_attributes a
          | None => Some (n_consumer_attributes negotiation)
          end in
        match evaluate_offer policy consumer_attrs with
        | Raise ex => (inl (Unhandled ex), st)
        | Ok result =>
            let now := utcnow e 0 in
            if allowed result then
              let negotiation :=
                advance negotiation "OFFERED" now
                  {| he_state := "OFFERED";
                     he_timestamp := now;
                     he_actor := Some "provider-automotors-oem";
                     he_policy_evaluation := Some "PASSED";
                     he_reason := None;
                     he_agreement_id := None;
                     he_data_size := None |} in
              let negotiation :=
                set_policy_evaluation negotiation
                  {| allowed := true;
                     reason := None;
                     evaluated_constraints := evaluated_constraints result |} in
              let st := save_negotiation (utcnow e 1) negotiation st in
              let st :=
                log_event (utcnow e 2) "OFFER_MADE"
                  (VDict [("negotiation_id", VStr negotiation_id)]) st in
              (inr negotiation, st)
            else
              let negotiation :=
                advance negotiation "TERMINATED" now
                  {| he_state := "TERMINATED";
                     he_timestamp := now;
                     he_actor := Some "provider-automotors-oem";
                     he_policy_evaluation := Some "FAILED";
                     he_reason := reason result;
                     he_agreement_id := None;
                     he_data_size := None |} in
              let negotiation :=
                set_policy_evaluation negotiation
                  {| allowed := false;
                     reason := reason result;
                     evaluated_constraints := evaluated_constraints result |} in
              let st := save_negotiation (utcnow e 1) negotiation st in
              let st :=
                log_event (utcnow e 2) "NEGOTIATION_TERMINATED"
                  (VDict [("negotiation_id", VStr negotiation_id);
                          ("reason", match reason result with
                                     | Some r => VStr r
                                     | None => VNone
                                     end)]) st in
              (inr negotiation, st)
        end
  end.

(** [consumer_agree]. *)
Definition consumer_agree (e : env) (negotiation_id : string) (st : store)
  : handled negotiation :=
  match get_negotiation negotiation_id st with
  | None => not_found st
  | Some negotiation =>
      if negb (String.eqb (n_state negotiation) "OFFERED") then
        invalid_state "agree" (n_state negotiation) "OFFERED" st
      else
        let now := utcnow e 0 in
        let negotiation :=
          advance negotiation "AGREED" now
            {| he_state := "AGREED";
               he_timestamp := now;
               he_actor := Some (n_consumer_id negotiation);
               he_policy_evaluation := None;
               he_reason := None;
               he_agreement_id := None;
               he_data_size := None |} in
        let st := save_negotiation (utcnow e 1) negotiation st in
        let st :=
          log_event (utcnow e 2) "CONSUMER_AGREED"
            (VDict [("negotiation_id", VStr negotiation_id)]) st in
        (inr negotiation, st)
  end.

(** [verify_agreement]. *)
Definition verify_agreement (e : env) (negotiation_id : string) (st : store)
  : handled negotiation :=
  match get_negotiation negotiation_id st with
  | None => not_found st
  | Some negotiation =>
      if negb (String.eqb (n_state negotiation) "AGREED") then
        invalid_state "verify" (n_state negotiation) "AGREED" st
      else
        let now := utcnow e 0 in
        let negotiation :=
          advance negotiation "VERIFIED" now
            {| he_state := "VERIFIED";
               he_timestamp := now;
               he_actor := Some "system";
               he_policy_evaluation := None;
               he_reason := None;
               he_agreement_id := None;
               he_data_size := None |} in
        let st := save_negotiation (utcnow e 1) negotiation st in
        let st :=
          log_event (utcnow e 2) "AGREEMENT_VERIFIED"
            (VDict [("negotiation_id", VStr negotiation_id)]) st in
        (inr negotiation, st)
  end.

(** [finalize_agreement]: the agreement is saved before the negotiation. *)
Definition finalize_agreement (e : env) (negotiation_id : string) (st : store)
  : handled (negotiation * agreement) :=
  match get_negotiation negotiation_id st with
  | None => not_found st
  | Some negotiation =>
      if negb (String.eqb (n_state negotiation) "VERIFIED") then
        invalid_state "finalize" (n_state negotiation) "VERIFIED" st
      else
        let now := utcnow e 0 in
        let agreement_id := "agreement-" +:+ uuid4_hex8 e in
        let policy := POLICY_TEMPLATES !! n_policy_id negotiation in
        let agreement := {|
          a_id := agreement_id;
          a_negotiation_id := negotiation_id;
          a_asset_id := n_asset_id negotiation;
          a_policy_id := n_policy_id negotiation;
          a_policy_description :=
            match policy with
            | Some p => get_policy_description p
            | None => "Unknown"
            end;
          a_provider_id := n_provider_id negotiation;
          a_consumer_id := n_consumer_id negotiation;
          a_signing_date := now;
          a_status := "ACTIVE"
        |} in
        let st := save_agreement (utcnow e 1) agreement st in
        let negotiation :=
          set_agreement_id
            (advance negotiation "FINALIZED" now
               {| he_state := "FINALIZED";
                  he_timestamp := now;
                  he_actor := Some "system";
                  he_policy_evaluation := None;
                  he_reason := None;
                  he_agreement_id := Some agreement_id;
                  he_data_size := None |})
            agreement_id in
        let st := save_negotiation (utcnow e 2) negotiation st in
        let st :=
          log_event (utcnow e 3) "AGREEMENT_FINALIZED"
            (VDict [("negotiation_id", VStr negotiation_id);
                    ("agreement_id", VStr agreement_id)]) st in
        (inr (negotiation, agreement), st)
  end.

(** [terminate_negotiation]. *)
Definition terminate_negotiation (e : env) (negotiation_id : string) (st : store)
  : handled negotiation :=
  match get_negotiation negotiation_id st with
  | None => not_found st
  | Some negotiation =>
      if String.eqb (n_state negotiation) "FINALIZED"
         || String.eqb (n_state negotiation) "TERMINATED" then
        fail 400 "INVALID_STATE"
          (Some ("Negotiation already in final state '" +:+ n_state negotiation +:+ "'"))
          st
      else
        let now := utcnow e 0 in
        let negotiation :=
          advance negotiation "TERMINATED" now
            {| he_state := "TERMINATED";
               he_timestamp := now;
               he_actor := Some "user";
               he_policy_evaluation := None;
               he_reason := Some "User requested termination";
               he_agreement_id := None;
               he_data_size := None |} in
        let st := save_negotiation (utcnow e 1) negotiation st in
        let st :=
          log_event (utcnow e 2) "NEGOTIATION_TERMINATED"
            (VDict [("negotiation_id", VStr negotiation_id);
                    ("reason", VStr "User request")]) st in
        (inr negotiation, st)
  end.

End Contracts.

(** ** provider-connector/transfers.py *)

Module Transfers.
Import Py Models Policies Store.

Record TransferRequest : Type := {
  request_agreement_id : string;
  data_destination : option string;
  format : option string
}.

(** [transfer["state"] = state] and [transfer["state_history"].append(h)]. *)
Definition move (t : transfer) (state : string) (h : history_entry) : transfer := {|
  t_id := t_id t;
  t_state := state;
  t_agreement_id := t_agreement_id t;
  t_asset_id := t_asset_id t;
  t_provider_id := t_provider_id t;
  t_consumer_id := t_consumer_id t;
  t_data_destination := t_data_destination t;
  t_format := t_format t;
  t_created_at := t_created_at t;
  t_state_history := t_state_history t ++ [h];
  t_started_at := t_started_at t;
  t_completed_at := t_completed_at t;
  t_data := t_data t
|}.

(** [transfer["started_at"] = now]. *)
Definition set_started_at (t : transfer) (now : string) : transfer := {|
  t_id := t_id t;
  t_state := t_state t;
  t_agreement_id := t_agreement_id t;
  t_asset_id := t_asset_id t;
  t_provider_id := t_provider_id t;
  t_consumer_id := t_consumer_id t;
  t_data_destination := t_data_destination t;
  t_format := t_format t;
  t_created_at := t_created_at t;
  t_state_history := t_state_history t;
  t_started_at := Some now;
  t_completed_at := t_completed_at t;
  t_data := t_data t
|}.

(** [transfer["completed_at"] = now] and [transfer["data"] = data]. *)
Definition set_completed (t : transfer) (now : string) (data : value) : transfer := {|
  t_id := t_id t;
  t_state := t_state t;
  t_agreement_id := t_agreement_id t;
  t_asset_id := t_asset_id t;
  t_provider_id := t_provider_id t;
  t_consumer_id := t_consumer_id t;
  t_data_destination := t_data_destination t;
  t_format := t_format t;
  t_created_at := t_created_at t;
  t_state_history := t_state_history t;
  t_started_at := t_started_at t;
  t_completed_at := Some now;
  t_data := Some data
|}.

Definition transfer_not_found {A} (st : store) : handled A :=
  fail 404 "TRANSFER_NOT_FOUND" None st.

(** [initiate_transfer]. *)
Definition initiate_transfer (e : env) (request : TransferRequest) (st : store)
  : handled transfer :=
  match get_agreement (request_agreement_id request) st with
  | None =>
      (inl (HTTPException 404
              {| error := "AGREEMENT_NOT_FOUND";
                 message := Some ("Agreement '" +:+ request_agreement_id request
                                    +:+ "' not found");
                 hint := Some "Complete a contract negotiation first to obtain an agreement_id" |}),
       st)
  | Some agreement =>
      if negb (String.eqb (a_status agreement) "ACTIVE") then
        fail 400 "AGREEMENT_NOT_ACTIVE" (Some "Agreement is not active") st
      else
        let transfer_id := "transfer-" +:+ uuid4_hex8 e in
        let now := utcnow e 0 in
        let transfer := {|
          t_id := transfer_id;
          t_state := "REQUESTED";
          t_agreement_id := request_agreement_id request;
          t_asset_id := a_asset_id agreement;
          t_provider_id := a_provider_id agreement;
          t_consumer_id := a_consumer_id agreement;
          t_data_destination := data_destination request;
          t_format := format request;
          t_created_at := now;
          t_state_history := [entry "REQUESTED" now];
          t_started_at := None;
          t_completed_at := None;
          t_data := None
        |} in
        let st := save_transfer (utcnow e 1) transfer st in
        let st :=
          log_event (utcnow e 2) "TRANSFER_INITIATED"
            (VDict [("transfer_id", VStr transfer_id);
                    ("agreement_id", VStr (request_agreement_id request))]) st in
        (inr transfer, st)
  end.

(** [start_transfer]. *)
Definition start_transfer (e : env) (transfer_id : string) (st : store)
  : handled transfer :=
  match get_transfer transfer_id st with
  | None => transfer_not_found st
  | Some transfer =>
      if negb (String.eqb (t_state transfer) "REQUESTED") then
        fail 400 "INVALID_STATE"
          (Some ("Cannot start in state '" +:+ t_state transfer
                   +:+ "'. Expected 'REQUESTED'.")) st
      else
        let now := utcnow e 0 in
        let transfer :=
          move (set_started_at transfer now) "STARTED" (entry "STARTED" now) in
        let st := save_transfer (utcnow e 1) transfer st in
        let st :=
          log_event (utcnow e 2) "TRANSFER_STARTED"
            (VDict [("transfer_id", VStr transfer_id)]) st in
        (inr transfer, st)
  end.

(** [complete_transfer]: [not data] holds of [None] and of every falsy
    document. *)
Definition complete_transfer (e : env) (transfer_id : string) (st : store)
  : handled transfer :=
  match get_transfer transfer_id st with
  | None => transfer_not_found st
  | Some transfer =>
      if negb (String.eqb (t_state transfer) "STARTED") then
        fail 400 "INVALID_STATE"
          (Some ("Cannot complete in state '" +:+ t_state transfer
                   +:+ "'. Expected 'STARTED'.")) st
      else
        let data := get_asset_data e (t_asset_id transfer) st in
        match data with
        | Some data =>
            if truthy data then
              let now := utcnow e 0 in
              let transfer :=
                move (set_completed transfer now data) "COMPLETED"
                  {| he_state := "COMPLETED";
                     he_timestamp := now;
                     he_actor := None;
                     he_policy_evaluation := None;
                     he_reason := None;
                     he_agreement_id := None;
                     he_data_size := Some (String.length (str data)) |} in
              let st := save_transfer (utcnow e 1) transfer st in
              let st :=
                log_event (utcnow e 2) "TRANSFER_COMPLETED"
                  (VDict [("transfer_id", VStr transfer_id);
                          ("asset_id", VStr (t_asset_id transfer))]) st in
              (inr transfer, st)
            else
              fail 500 "DATA_NOT_AVAILABLE" (Some "Could not load asset data") st
        | None =>
            fail 500 "DATA_NOT_AVAILABLE" (Some "Could not load asset data") st
        end
  end.

(** [suspend_transfer]. *)
Definition suspend_transfer (e : env) (transfer_id : string) (st : store)
  : handled transfer :=
  match get_transfer transfer_id st with
  | None => transfer_not_found st
  | Some transfer =>
      if negb (String.eqb (t_state transfer) "STARTED") then
        fail 400 "INVALID_STATE"
          (Some ("Cannot suspend in state '" +:+ t_state transfer +:+ "'")) st
      else
        let now := utcnow e 0 in
        let transfer := move transfer "SUSPENDED" (entry "SUSPENDED" now) in
        let st := save_transfer (utcnow e 1) transfer st in
        let st :=
          log_event (utcnow e 2) "TRANSFER_SUSPENDED"
            (VDict [("transfer_id", VStr transfer_id)]) st in
        (inr transfer, st)
  end.

(** [terminate_transfer]. *)
Definition terminate_transfer (e : env) (transfer_id : string) (st : store)
  : handled transfer :=
  match get_transfer transfer_id st with
  | None => transfer_not_found st
  | Some transfer =>
      if String.eqb (t_state transfer) "COMPLETED"
         || String.eqb (t_state transfer) "TERMINATED" then
        fail 400 "INVALID_STATE"
          (Some ("Transfer already in final state '" +:+ t_state transfer +:+ "'")) st
      else
        let now := utcnow e 0 in
        let transfer := move transfer "TERMINATED" (entry "TERMINATED" now) in
        let st := save_transfer (utcnow e 1) transfer st in
        let st :=
          log_event (utcnow e 2) "TRANSFER_TERMINATED"
            (VDict [("transfer_id", VStr transfer_id)]) st in
        (inr transfer, st)
  end.

End Transfers.

(** ** provider-connector/main.py: the requests that write to the store *)

Module Main.
Import Py Models Policies Store Contracts Transfers.

Inductive call : Type :=
| InitiateNegotiation (request : NegotiationRequest)
| ProviderOffer (negotiation_id : string) (action : option NegotiationAction)
| ConsumerAgree (negotiation_id : string)
| VerifyAgreement (negotiation_id : string)
| FinalizeAgreement (negotiation_id : string)
| TerminateNegotiation (negotiation_id : string)
| InitiateTransfer (request : TransferRequest)
| StartTransfer (transfer_id : string)
| CompleteTransfer (transfer_id : string)
| SuspendTransfer (transfer_id : string)
| TerminateTransfer (transfer_id : string)
| ResetDemo.

Inductive answer : Type :=
| Negotiation (n : negotiation)
| Finalized (n : negotiation) (a : agreement)
| Transfer (t : transfer)
| Reset.

Definition answered {A} (f : A -> answer) (r : handled A) : handled answer :=
  (match fst r with
   | inl err => inl err
   | inr a => inr (f a)
   end, snd r).

(** [reset_demo]: [initialize_store], then the answer. *)
Definition reset_demo (e : env) (st : store) : handled answer :=
  answered (fun _ => Reset) (initialize_store e st).

(** One request served: the routes of the two routers that write, and
    [reset_demo]. *)
Definition serve (e : env) (c : call) (st : store) : handled answer :=
  match c with
  | InitiateNegotiation request => answered Negotiation (initiate_negotiation e request st)
  | ProviderOffer id action => answered Negotiation (provider_offer e id action st)
  | ConsumerAgree id => answered Negotiation (consumer_agree e id st)
  | VerifyAgreement id => answered Negotiation (verify_agreement e id st)
  | FinalizeAgreement id =>
      answered (fun na => Finalized (fst na) (snd na)) (finalize_agreement e id st)
  | TerminateNegotiation id => answered Negotiation (terminate_negotiation e id st)
  | InitiateTransfer request => answered Transfer (initiate_transfer e request st)
  | StartTransfer id => answered Transfer (start_transfer e id st)
  | CompleteTransfer id => answered Transfer (complete_transfer e id st)
  | SuspendTransfer id => answered Transfer (suspend_transfer e id st)
  | TerminateTransfer id => answered Transfer (terminate_transfer e id st)
  | ResetDemo => reset_demo e st
  end.

(** A sequence of requests, each with the environment it runs in. *)
Fixpoint serve_all (calls : list (env * call)) (st : store) : store :=
  match calls with
  | [] => st
  | (e, c) :: calls' => serve_all calls' (snd (serve e c st))
  end.

End Main.

(** * Statements *)

(** ** What the properties are stated with *)

Module Statements.
Import Py Models Policies Store Contracts Transfers Main.

(** A computation is read-only when it hands back the heap it received. *)
Definition read_only {A} (m : M A) : Prop := forall h, snd (m h) = h.

(** The result of a computation on a heap. *)
Definition run {A} (m : M A) (h : heap) : res A := fst (m h).

(** [context.get("action", "USE")] on the context of [h]. *)
Definition request_action (h : heap) : value :=
  default (VStr "USE") (h_context h !! "action").

(** The rule's action is the request action, case-insensitively. *)
Definition matches (h : heap) (action : string) : Prop :=
  _action_matches action (request_action h) = Ok true.

(** The rule's action is another one. *)
Definition skips (h : heap) (action : string) : Prop :=
  _action_matches action (request_action h) = Ok false.

(** The constraints are checked without error, with the records [rs]. *)
Definition checks (h : heap) (cs : list Constraint) (rs : list constraint_result)
  : Prop :=
  run (_evaluate_constraints cs) h = Ok rs.

(** A prohibition that lets the request through: its action is another
    one, or one of its constraints is checked and found unsatisfied. *)
Definition lets_through (h : heap) (p : Prohibition) : Prop :=
  skips h (prohibition_action p) \/
  (matches h (prohibition_action p) /\
   exists rs, checks h (prohibition_constraints p) rs /\ all_satisfied rs = false).

(** A permission that does not grant, likewise. *)
Definition grants_not (h : heap) (q : Permission) : Prop :=
  skips h (permission_action q) \/
  (matches h (permission_action q) /\
   exists rs, checks h (permission_constraints q) rs /\ all_satisfied rs = false).

(** The name of an ordering operator in a constraint. *)
Definition operator_name (op : cmp_op) : string :=
  match op with
  | Gt => "gt"
  | Lt => "lt"
  | Ge => "gte"
  | Le => "lte"
  end.

(** The answer of a prohibition that blocks. *)
Definition prohibited (p : Prohibition) (rs : list constraint_result)
  : PolicyEvaluationResult := {|
  allowed := false;
  reason := Some ("Action '" +:+ prohibition_action p +:+ "' is prohibited");
  evaluated_constraints := rs
|}.

(** The answer is the 400 [INVALID_STATE] and the store is [st]. *)
Definition invalid_state_answer {A} (r : handled A) (st : store) : Prop :=
  exists msg,
    r = (inl (HTTPException 400
                {| error := "INVALID_STATE"; message := Some msg; hint := None |}), st).

(** The answer is the 500 [DATA_NOT_AVAILABLE] and the store is [st]. *)
Definition data_unavailable_answer {A} (r : handled A) (st : store) : Prop :=
  r = (inl (HTTPException 500
              {| error := "DATA_NOT_AVAILABLE";
                 message := Some "Could not load asset data";
                 hint := None |}), st).

(** [get_asset_data] finds a document that is not falsy. *)
Definition resolvable (e : env) (id : string) (st : store) (data : value) : Prop :=
  get_asset_data e id st = Some data /\ truthy data = true.

(** [get_asset_data] finds nothing, or a falsy document. *)
Definition unresolvable (e : env) (id : string) (st : store) : Prop :=
  get_asset_data e id st = None \/
  exists data, get_asset_data e id st = Some data /\ truthy data = false.

(** The context [provider_offer] evaluates: the one of the request body
    when there is a body, else the one stored at the request. *)
Definition offer_attributes (n : negotiation) (action : option NegotiationAction)
  : option context :=
  match action with
  | Some a => action_consumer_attributes a
  | None => Some (n_consumer_attributes n)
  end.

(** [uuid4] is taken to give a negotiation an id no stored negotiation
    has. *)
Definition fresh_id (e : env) (c : call) (st : store) : Prop :=
  match c with
  | InitiateNegotiation _ => get_negotiation ("negotiation-" +:+ uuid4_hex8 e) st = None
  | _ => True
  end.

Fixpoint fresh_ids (calls : list (env * call)) (st : store) : Prop :=
  match calls with
  | [] => True
  | (e, c) :: calls' => fresh_id e c st /\ fresh_ids calls' (snd (serve e c st))
  end.

(** Every negotiation is stored under its id. *)
Definition stored_under_id (st : store) : Prop :=
  forall id n, negotiations st !! id = Some n -> n_id n = id.

(** What the requests keep true of the store: a negotiation is stored
    under its id, an agreement belongs to a finalized negotiation, and no
    two agreements belong to one negotiation. *)
Record consistent (st : store) : Prop := {
  keyed : stored_under_id st;
  finalized :
    forall k a,
      agreements st !! k = Some a ->
      exists n, negotiations st !! a_negotiation_id a = Some n /\ n_state n = "FINALIZED";
  single :
    forall k1 k2 a1 a2,
      agreements st !! k1 = Some a1 ->
      agreements st !! k2 = Some a2 ->
      a_negotiation_id a1 = a_negotiation_id a2 ->
      k1 = k2
}.

End Statements.

(** ** The inputs the properties are tried on *)

Module Scenarios.
Import Py Models Policies Store Contracts Transfers Main.

(** A policy whose second prohibition blocks [USE] unconditionally, after
    a first one on an age above 18. *)
Definition AGE_POLICY : Policy := {|
  policy_id := "policy-age";
  permissions := [];
  prohibitions :=
    [ {| prohibition_action := "USE";
         prohibition_constraints :=
           [ {| left_operand := "age"; operator := "gt"; right_operand := VInt 18 |} ] |};
      {| prohibition_action := "USE"; prohibition_constraints := [] |} ];
  obligations := []
|}.

Definition AGE_CONTEXT : context := {[ "age" := VStr "abc" ]}.

(** A policy whose second prohibition blocks [USE] unconditionally, after
    a first one on the region. *)
Definition REGION_POLICY : Policy := {|
  policy_id := "policy-region";
  permissions := [];
  prohibitions :=
    [ {| prohibition_action := "USE";
         prohibition_constraints :=
           [ {| left_operand := "region"; operator := "eq"; right_operand := VStr "EU" |} ] |};
      {| prohibition_action := "USE"; prohibition_constraints := [] |} ];
  obligations := []
|}.

Definition REGION_CONTEXT : context := {[ "region" := VStr "US" ]}.

(** Scenario B: the quality-data policy, a tier-1 supplier, another
    purpose. *)
Definition SCENARIO_B : context :=
  {[ "partner_type" := VStr "tier1_supplier"; "purpose" := VStr "cost_reduction" ]}.

(** The catalog of the scenarios: the assets of the display of
    [initialize_store], were the name it reads bound to [True]. *)
Definition CATALOG : list asset := asset_display (VBool true).

(** The store a caller installs for the scenarios: the catalog, and no
    negotiation, agreement, transfer or log entry. *)
Definition INSTALLED_STORE : store := store_of CATALOG.

(** A finalized negotiation, alone in the store. *)
Definition FINALIZED_NEGOTIATION : negotiation := {|
  n_id := "negotiation-0000abcd";
  n_state := "FINALIZED";
  n_provider_id := "provider-automotors-oem";
  n_consumer_id := "consumer-tierone";
  n_asset_id := "part-catalog-2024";
  n_policy_id := "tier1-only";
  n_consumer_attributes := {[ "partner_type" := VStr "tier1_supplier" ]};
  n_callback_address := None;
  n_created_at := "2024-12-01T10:00:00";
  n_updated_at := "2024-12-01T10:04:00";
  n_state_history := [];
  n_policy_evaluation := None;
  n_agreement_id := Some "agreement-0000beef"
|}.

Definition FINALIZED_STORE : store := {|
  assets := CATALOG;
  negotiations := {[ "negotiation-0000abcd" := FINALIZED_NEGOTIATION ]};
  agreements := ∅;
  transfers := ∅;
  audit_log := []
|}.

Definition ENV : env := {|
  uuid4_hex8 := "1a2b3c4d";
  utcnow := fun _ => "2024-12-01T12:00:00";
  sample_data := fun _ => None
|}.

(** A started transfer of the part catalog, alone in the store. *)
Definition STARTED_TRANSFER : transfer := {|
  t_id := "transfer-0000cafe";
  t_state := "STARTED";
  t_agreement_id := "agreement-0000beef";
  t_asset_id := "part-catalog-2024";
  t_provider_id := "provider-automotors-oem";
  t_consumer_id := "consumer-tierone";
  t_data_destination := None;
  t_format := Some "HTTP_PUSH";
  t_created_at := "2024-12-01T11:00:00";
  t_state_history := [entry "REQUESTED" "2024-12-01T11:00:00";
                      entry "STARTED" "2024-12-01T11:01:00"];
  t_started_at := Some "2024-12-01T11:01:00";
  t_completed_at := None;
  t_data := None
|}.

Definition STARTED_STORE : store := {|
  assets := CATALOG;
  negotiations := ∅;
  agreements := ∅;
  transfers := {[ "transfer-0000cafe" := STARTED_TRANSFER ]};
  audit_log := []
|}.

(** An asset that names no policy. *)
Definition UNBOUND_ASSET : asset := {|
  asset_id := "bom-2025";
  asset_name := "2025 Bill of Materials";
  asset_description := "Bill of materials of the 2025 model year.";
  asset_content_type := "application/json";
  asset_properties := VDict [];
  asset_policy_id := None;
  asset_data_file := None
|}.

Definition UNBOUND_REQUEST : NegotiationRequest := {|
  consumer_id := "consumer-tierone";
  request_asset_id := "bom-2025";
  consumer_attributes := None;
  callback_address := None
|}.

(** A tier-1 supplier asks for the part catalog, and the negotiation goes
    up to its verification. *)
Definition TIER1_REQUEST : NegotiationRequest := {|
  consumer_id := "consumer-tierone";
  request_asset_id := "part-catalog-2024";
  consumer_attributes := Some {[ "partner_type" := VStr "tier1_supplier" ]};
  callback_address := None
|}.

Definition UP_TO_VERIFIED : list (env * call) :=
  [ (ENV, InitiateNegotiation TIER1_REQUEST);
    (ENV, ProviderOffer "negotiation-1a2b3c4d" None);
    (ENV, ConsumerAgree "negotiation-1a2b3c4d");
    (ENV, VerifyAgreement "negotiation-1a2b3c4d") ].

(** The sample-data directory with the part catalog in it. *)
Definition PART_CATALOG : value :=
  VDict [("metadata", VDict [("model_year", VInt 2024)]);
         ("parts", VList [VStr "battery-pack"; VStr "drive-unit"])].

Definition ENV_WITH_DATA : env := {|
  uuid4_hex8 := "1a2b3c4d";
  utcnow := fun _ => "2024-12-01T12:00:00";
  sample_data :=
    fun file => if String.eqb file "part-catalog.json" then Some PART_CATALOG else None
|}.

(** Scenario C: the negotiation up to its agreement, then the transfer up
    to its completion. *)
Definition HAPPY_PATH : list (env * call) :=
  UP_TO_VERIFIED ++
  [ (ENV, FinalizeAgreement "negotiation-1a2b3c4d");
    (ENV, InitiateTransfer {| request_agreement_id := "agreement-1a2b3c4d";
                              data_destination := None;
                              format := Some "HTTP_PUSH" |});
    (ENV, StartTransfer "transfer-1a2b3c4d");
    (ENV_WITH_DATA, CompleteTransfer "transfer-1a2b3c4d") ].

(** The happy path of the negotiation twice, the second time with the id
    that was drawn the first time; the second agreement gets another
    id. *)
Definition ENV_AGAIN : env := {|
  uuid4_hex8 := "5e6f7a8b";
  utcnow := fun _ => "2024-12-01T13:00:00";
  sample_data := fun _ => None
|}.

Definition COLLISION : list (env * call) :=
  UP_TO_VERIFIED ++
  [ (ENV, FinalizeAgreement "negotiation-1a2b3c4d") ] ++
  UP_TO_VERIFIED ++
  [ (ENV_AGAIN, FinalizeAgreement "negotiation-1a2b3c4d") ].

End Scenarios.

(** * Properties *)

(** ** The evaluator *)

Module PolicyFacts.
Import Py Models Policies Statements Scenarios.

Lemma read_only_ret {A} (a : A) : read_only (ret a).
Proof. intros h. reflexivity. Qed.

Lemma read_only_lift {A} (r : res A) : read_only (lift r).
Proof. intros h. reflexivity. Qed.

Lemma read_only_bind {A B} (m : M A) (k : A -> M B) :
  read_only m -> (forall a, read_only (k a)) -> read_only (bind m k).
Proof.
  intros Hm Hk h. unfold bind. specialize (Hm h).
  destruct (m h) as [[a | e] h']; simpl in Hm; subst h'.
  - apply Hk.
  - reflexivity.
Qed.

Lemma read_only_context_get key : read_only (context_get key).
Proof. intros h. reflexivity. Qed.

Lemma read_only_the_policy : read_only the_policy.
Proof. intros h. reflexivity. Qed.

Lemma read_only_context_get_default key d : read_only (context_get_default key d).
Proof.
  apply read_only_bind; [apply read_only_context_get | intros; apply read_only_ret].
Qed.

Create HintDb read_only.
#[local] Hint Resolve read_only_ret read_only_lift read_only_context_get
  read_only_the_policy read_only_context_get_default : read_only.

(** Splits a read-only goal along binds, conditionals and matches. *)
Ltac read_only_step :=
  match goal with
  | |- read_only (bind _ _) => apply read_only_bind; [ | intros ]
  | |- read_only (if ?b then _ else _) => destruct b
  | |- read_only (match ?x with _ => _ end) => destruct x
  | |- read_only _ => solve [ auto with read_only ]
  end.

Lemma read_only_single c : read_only (_evaluate_single_constraint c).
Proof. unfold _evaluate_single_constraint. repeat read_only_step. Qed.

Lemma read_only_constraints_loop cs :
  forall results, read_only (evaluate_constraints_loop cs results).
Proof.
  induction cs as [| c cs IH]; intros results; simpl.
  - apply read_only_ret.
  - apply read_only_bind; [apply read_only_single | intros sat].
    apply read_only_bind; [apply read_only_context_get_default | intros v].
    apply IH.
Qed.

Lemma read_only_constraints cs : read_only (_evaluate_constraints cs).
Proof. apply read_only_constraints_loop. Qed.

#[local] Hint Resolve read_only_single read_only_constraints : read_only.

Lemma read_only_prohibitions_loop ps :
  forall evaluated, read_only (prohibitions_loop ps evaluated).
Proof.
  induction ps as [| p ps IH]; intros evaluated; simpl.
  - apply read_only_ret.
  - repeat read_only_step; apply IH.
Qed.

Lemma read_only_permissions_loop ps :
  forall evaluated, read_only (permissions_loop ps evaluated).
Proof.
  induction ps as [| p ps IH]; intros evaluated; simpl.
  - apply read_only_ret.
  - repeat read_only_step; apply IH.
Qed.

Lemma read_only_evaluate : read_only evaluate.
Proof.
  unfold evaluate.
  apply read_only_bind; [apply read_only_the_policy | intros policy].
  apply read_only_bind; [apply read_only_prohibitions_loop | intros [denied | ev]].
  - apply read_only_ret.
  - apply read_only_permissions_loop.
Qed.

(** On a read-only computation, [bind] is the bind of results. *)
Lemma run_bind {A B} (m : M A) (k : A -> M B) h :
  read_only m -> run (bind m k) h = res_bind (run m h) (fun a => run (k a) h).
Proof.
  intros Hm. unfold run, bind. specialize (Hm h).
  destruct (m h) as [[a | e] h']; simpl in *; subst h'; reflexivity.
Qed.

Lemma run_ret {A} (a : A) h : run (ret a) h = Ok a.
Proof. reflexivity. Qed.

Lemma run_request_action h :
  run (context_get_default "action" (VStr "USE")) h = Ok (request_action h).
Proof. reflexivity. Qed.

(** One round of the first loop. *)
Lemma run_prohibitions_cons p ps evaluated h :
  run (prohibitions_loop (p :: ps) evaluated) h =
  res_bind (_action_matches (prohibition_action p) (request_action h)) (fun m =>
    if m : bool then
      res_bind (run (_evaluate_constraints (prohibition_constraints p)) h) (fun rs =>
        if all_satisfied rs then Ok (inl (prohibited p rs))
        else run (prohibitions_loop ps (evaluated ++ rs)) h)
    else run (prohibitions_loop ps evaluated) h).
Proof.
  simpl. rewrite run_bind by auto with read_only. rewrite run_request_action. simpl.
  rewrite run_bind by auto with read_only. unfold run at 1, lift. simpl.
  destruct (_action_matches _ _) as [[|] | e]; simpl; try reflexivity.
  rewrite run_bind by auto with read_only.
  destruct (run (_evaluate_constraints _) h) as [rs | e]; simpl; try reflexivity.
  destruct (all_satisfied rs); reflexivity.
Qed.

(** One round of the second loop. *)
Lemma run_permissions_cons q qs evaluated h :
  run (permissions_loop (q :: qs) evaluated) h =
  res_bind (_action_matches (permission_action q) (request_action h)) (fun m =>
    if m : bool then
      match permission_constraints q with
      | [] =>
          Ok {| allowed := true;
                reason := Some "Permission granted (no constraints)";
                evaluated_constraints := evaluated |}
      | _ :: _ =>
          res_bind (run (_evaluate_constraints (permission_constraints q)) h) (fun rs =>
            if all_satisfied rs then
              Ok {| allowed := true;
                    reason := Some "All permission constraints satisfied";
                    evaluated_constraints := evaluated ++ rs |}
            else run (permissions_loop qs (evaluated ++ rs)) h)
      end
    else run (permissions_loop qs evaluated) h).
Proof.
  simpl. rewrite run_bind by auto with read_only. rewrite run_request_action. simpl.
  rewrite run_bind by auto with read_only. unfold run at 1, lift. simpl.
  destruct (_action_matches _ _) as [[|] | e]; simpl; try reflexivity.
  destruct (permission_constraints q) as [| c cs]; [reflexivity |].
  rewrite run_bind by auto with read_only.
  destruct (run (_evaluate_constraints _) h) as [rs | e]; simpl; try reflexivity.
  destruct (all_satisfied rs); reflexivity.
Qed.

(** [evaluate] is the first loop, then the second unless the first one
    returned. *)
Lemma run_evaluate h :
  run evaluate h =
  res_bind (run (prohibitions_loop (prohibitions (h_policy h)) []) h) (fun blocked =>
    match blocked with
    | inl denied => Ok denied
    | inr evaluated => run (permissions_loop (permissions (h_policy h)) evaluated) h
    end).
Proof.
  unfold evaluate. rewrite run_bind by apply read_only_the_policy.
  unfold run at 1, the_policy. simpl.
  rewrite run_bind by apply read_only_prohibitions_loop.
  destruct (run (prohibitions_loop _ _) h) as [[denied | ev] | e]; reflexivity.
Qed.

(** Prohibitions that let the request through leave the first loop
    running to its end. *)
Lemma prohibitions_let_through h ps :
  Forall (lets_through h) ps ->
  forall evaluated,
    exists evaluated', run (prohibitions_loop ps evaluated) h = Ok (inr evaluated').
Proof.
  induction 1 as [| p ps Hp _ IH]; intros evaluated.
  - exists evaluated. reflexivity.
  - rewrite run_prohibitions_cons.
    destruct Hp as [Hskip | (Hm & rs & Hrs & Hsat)].
    + unfold skips in Hskip. rewrite Hskip. simpl. apply IH.
    + unfold matches in Hm. unfold checks in Hrs.
      rewrite Hm. simpl. rewrite Hrs. simpl. rewrite Hsat. apply IH.
Qed.

(** The first prohibition that blocks ends the first loop. *)
Lemma prohibitions_block h pre p post rs :
  Forall (lets_through h) pre ->
  matches h (prohibition_action p) ->
  checks h (prohibition_constraints p) rs ->
  all_satisfied rs = true ->
  forall evaluated,
    run (prohibitions_loop (pre ++ p :: post) evaluated) h = Ok (inl (prohibited p rs)).
Proof.
  intros Hpre Hm Hrs Hsat.
  induction Hpre as [| p' pre Hp _ IH]; intros evaluated; simpl app;
    rewrite run_prohibitions_cons.
  - unfold matches in Hm. unfold checks in Hrs.
    rewrite Hm. simpl. rewrite Hrs. simpl. rewrite Hsat. reflexivity.
  - destruct Hp as [Hskip | (Hm' & rs' & Hrs' & Hsat')].
    + unfold skips in Hskip. rewrite Hskip. simpl. apply IH.
    + unfold matches in Hm'. unfold checks in Hrs'.
      rewrite Hm'. simpl. rewrite Hrs'. simpl. rewrite Hsat'. apply IH.
Qed.

(** Permissions that do not grant leave the second loop running to the
    default deny. *)
Lemma permissions_grant_not h qs :
  Forall (grants_not h) qs ->
  forall evaluated,
    exists evaluated',
      run (permissions_loop qs evaluated) h =
      Ok {| allowed := false;
            reason := Some "No matching permission found";
            evaluated_constraints := evaluated' |}.
Proof.
  induction 1 as [| q qs Hq _ IH]; intros evaluated.
  - exists evaluated. reflexivity.
  - rewrite run_permissions_cons.
    destruct Hq as [Hskip | (Hm & rs & Hrs & Hsat)].
    + unfold skips in Hskip. rewrite Hskip. simpl. apply IH.
    + unfold matches in Hm. unfold checks in Hrs. rewrite Hm. simpl.
      destruct (permission_constraints q) as [| c cs] eqn:Hcs.
      * unfold run, _evaluate_constraints in Hrs. simpl in Hrs.
        injection Hrs as <-. discriminate Hsat.
      * rewrite Hrs. simpl. rewrite Hsat. apply IH.
Qed.

(** The first permission that grants ends the second loop. *)
Lemma permissions_grant h pre q post :
  Forall (grants_not h) pre ->
  matches h (permission_action q) ->
  forall evaluated,
    (permission_constraints q = [] ->
     exists evaluated',
       run (permissions_loop (pre ++ q :: post) evaluated) h =
       Ok {| allowed := true;
             reason := Some "Permission granted (no constraints)";
             evaluated_constraints := evaluated' |}) /\
    (forall rs,
       permission_constraints q <> [] ->
       checks h (permission_constraints q) rs ->
       all_satisfied rs = true ->
       exists evaluated',
         run (permissions_loop (pre ++ q :: post) evaluated) h =
         Ok {| allowed := true;
               reason := Some "All permission constraints satisfied";
               evaluated_constraints := evaluated' |}).
Proof.
  intros Hpre Hm.
  induction Hpre as [| q' pre Hq _ IH]; intros evaluated; simpl app;
    rewrite run_permissions_cons.
  - unfold matches in Hm. rewrite Hm. simpl. split.
    + intros ->. eexists. reflexivity.
    + intros rs Hne Hrs Hsat. unfold checks in Hrs.
      destruct (permission_constraints q) as [| c cs]; [congruence |].
      rewrite Hrs. simpl. rewrite Hsat. eexists. reflexivity.
  - destruct Hq as [Hskip | (Hm' & rs' & Hrs' & Hsat')].
    + unfold skips in Hskip. rewrite Hskip. simpl. apply IH.
    + unfold matches in Hm'. unfold checks in Hrs'. rewrite Hm'. simpl.
      destruct (permission_constraints q') as [| c cs] eqn:Hcs.
      * unfold run, _evaluate_constraints in Hrs'. simpl in Hrs'.
        injection Hrs' as <-. discriminate Hsat'.
      * rewrite Hrs'. simpl. rewrite Hsat'. apply IH.
Qed.

(** *** Ordering constraints on values of different types *)

(** C3: an ordering constraint ([gt], [lt], [gte], [lte]) whose context value
    is a string and whose right operand is an integer is not reported
    unsatisfied: the comparison raises [TypeError], whatever the operator,
    the key and the rest of the context. *)
Theorem ordering_mismatch_raises (op : cmp_op) (key s : string) (n : Z)
    (policy : Policy) (ctx : context) :
  run (_evaluate_single_constraint
         {| left_operand := key; operator := operator_name op; right_operand := VInt n |})
      {| h_policy := policy; h_context := <[key := VStr s]> ctx |}
  = Raise TypeError.
Proof.
  unfold run, _evaluate_single_constraint, bind, context_get. simpl.
  rewrite lookup_insert_eq.
  destruct op; reflexivity.
Qed.

(** Values of one ordered kind are compared without error: two numbers. *)
Lemma ordering_of_numbers (op : cmp_op) (key : string) (m n : Z)
    (policy : Policy) (ctx : context) :
  run (_evaluate_single_constraint
         {| left_operand := key; operator := operator_name op; right_operand := VInt n |})
      {| h_policy := policy; h_context := <[key := VInt m]> ctx |}
  = Ok (cmp_Z op m n).
Proof.
  unfold run, _evaluate_single_constraint, bind, context_get. simpl.
  rewrite lookup_insert_eq.
  destruct op; reflexivity.
Qed.

(** *** Purity *)

(** C9: [evaluate] leaves the policy and the context as it found them, and
    a second call on them returns what the first one returned (the same
    result, or the same exception). *)
Theorem evaluate_deterministic_and_pure (policy : Policy) (ctx : context) :
  snd (call_evaluate policy ctx) = {| h_policy := policy; h_context := ctx |} /\
  fst (evaluate (snd (call_evaluate policy ctx))) = fst (call_evaluate policy ctx) /\
  snd (evaluate (snd (call_evaluate policy ctx))) = snd (call_evaluate policy ctx).
Proof.
  unfold call_evaluate.
  pose proof (read_only_evaluate {| h_policy := policy; h_context := ctx |}) as H.
  rewrite !H. auto.
Qed.

(** *** Deny overrides allow *)

(** A prohibition that blocks decides the evaluation, whatever the
    permissions are, when the prohibitions declared before it let the
    request through. *)
Lemma first_blocking_prohibition_denies (policy : Policy) (ctx : context)
    pre p post rs :
  prohibitions policy = pre ++ p :: post ->
  Forall (lets_through {| h_policy := policy; h_context := ctx |}) pre ->
  matches {| h_policy := policy; h_context := ctx |} (prohibition_action p) ->
  checks {| h_policy := policy; h_context := ctx |} (prohibition_constraints p) rs ->
  all_satisfied rs = true ->
  fst (call_evaluate policy ctx) = Ok (prohibited p rs).
Proof.
  intros Hps Hpre Hm Hrs Hsat. unfold call_evaluate.
  change (fst (evaluate ?h)) with (run evaluate h).
  rewrite run_evaluate. simpl h_policy. rewrite Hps.
  rewrite (prohibitions_block _ pre p post rs Hpre Hm Hrs Hsat). reflexivity.
Qed.

(** C1: on [AGE_POLICY] and a context whose age is a string, the second
    prohibition matches the request action and has no constraint, yet
    [evaluate] does not answer [allowed=false]: the first prohibition's
    comparison raises [TypeError]. *)
Theorem blocking_prohibition_not_reached :
  (exists p,
     In p (prohibitions AGE_POLICY) /\
     matches {| h_policy := AGE_POLICY; h_context := AGE_CONTEXT |} (prohibition_action p) /\
     prohibition_constraints p = []) /\
  fst (call_evaluate AGE_POLICY AGE_CONTEXT) = Raise TypeError.
Proof.
  split.
  - exists {| prohibition_action := "USE"; prohibition_constraints := [] |}.
    split; [right; left; reflexivity |]. split; reflexivity.
  - reflexivity.
Qed.

(** *** The trace of checked constraints *)

(** The first loop never drops what it has accumulated when it runs to
    its end. *)
Lemma prohibitions_loop_keeps h ps :
  forall evaluated evaluated',
    run (prohibitions_loop ps evaluated) h = Ok (inr evaluated') ->
    exists more, evaluated' = evaluated ++ more.
Proof.
  induction ps as [| p ps IH]; intros evaluated evaluated'.
  - intros [= <-]. exists []. symmetry. apply app_nil_r.
  - rewrite run_prohibitions_cons.
    destruct (_action_matches _ _) as [[|] | e]; simpl; try discriminate.
    + destruct (run (_evaluate_constraints _) h) as [rs | e]; simpl; try discriminate.
      destruct (all_satisfied rs); [discriminate |].
      intros H. destruct (IH _ _ H) as [more ->].
      exists (rs ++ more). symmetry. apply app_assoc.
    + apply IH.
Qed.

(** Neither does the second loop, in any of its three answers. *)
Lemma permissions_loop_keeps h qs :
  forall evaluated r,
    run (permissions_loop qs evaluated) h = Ok r ->
    exists more, evaluated_constraints r = evaluated ++ more.
Proof.
  induction qs as [| q qs IH]; intros evaluated r.
  - intros [= <-]. exists []. symmetry. apply app_nil_r.
  - rewrite run_permissions_cons.
    destruct (_action_matches _ _) as [[|] | e]; simpl; try discriminate.
    + destruct (permission_constraints q) as [| c cs].
      * intros [= <-]. exists []. symmetry. apply app_nil_r.
      * destruct (run (_evaluate_constraints _) h) as [rs | e]; simpl; try discriminate.
        destruct (all_satisfied rs).
        -- intros [= <-]. exists rs. reflexivity.
        -- intros H. destruct (IH _ _ H) as [more ->].
           exists (rs ++ more). symmetry. apply app_assoc.
    + apply IH.
Qed.

(** The answer of a prohibition that blocks is the same whatever has been
    accumulated before it. *)
Lemma prohibitions_loop_forgets h ps :
  forall evaluated evaluated' r,
    run (prohibitions_loop ps evaluated) h = Ok (inl r) ->
    run (prohibitions_loop ps evaluated') h = Ok (inl r).
Proof.
  induction ps as [| p ps IH]; intros evaluated evaluated' r.
  - discriminate.
  - rewrite !run_prohibitions_cons.
    destruct (_action_matches _ _) as [[|] | e]; simpl; try discriminate.
    + destruct (run (_evaluate_constraints _) h) as [rs | e]; simpl; try discriminate.
      destruct (all_satisfied rs); [trivial |]. apply IH.
    + apply IH.
Qed.

(** C7: on [REGION_POLICY] and a context of region US, the constraint of the
    first prohibition is checked and recorded as unsatisfied, and the
    result returned by the second prohibition has an empty
    [evaluated_constraints]: the record is not in it. *)
Theorem checked_constraint_dropped :
  checks {| h_policy := REGION_POLICY; h_context := REGION_CONTEXT |}
    [ {| left_operand := "region"; operator := "eq"; right_operand := VStr "EU" |} ]
    [ {| constraint := "region eq EU"; context_value := VStr "US"; satisfied := false |} ] /\
  fst (call_evaluate REGION_POLICY REGION_CONTEXT) =
    Ok {| allowed := false;
          reason := Some "Action 'USE' is prohibited";
          evaluated_constraints := [] |}.
Proof. split; reflexivity. Qed.

(** *** The scan of the permissions *)

(** C4, as stated: in scenario B no prohibition blocks and no permission
    grants, and the reason returned is not the lower-case sentence. *)
Lemma default_deny_reason_is_capitalised :
  Forall (lets_through {| h_policy := QUALITY_DATA_POLICY; h_context := SCENARIO_B |})
    (prohibitions QUALITY_DATA_POLICY) /\
  Forall (grants_not {| h_policy := QUALITY_DATA_POLICY; h_context := SCENARIO_B |})
    (permissions QUALITY_DATA_POLICY) /\
  exists r,
    fst (call_evaluate QUALITY_DATA_POLICY SCENARIO_B) = Ok r /\
    allowed r = false /\
    reason r <> Some "no matching permission found".
Proof.
  split; [| split].
  - repeat constructor.
  - constructor; [| constructor]. right. split; [reflexivity |].
    eexists. split; reflexivity.
  - eexists. split; [reflexivity |]. split; [reflexivity | discriminate].
Qed.

(** C4, amended: when every prohibition lets the request through, the first
    permission in declared order that matches and has no constraint, or
    has all its constraints satisfied, grants access, whatever follows it;
    and when no permission grants, the answer is [allowed=false] with the
    reason [No matching permission found].  A prohibition that lets
    through, and a permission that does not grant, have their constraints
    checked without error. *)
Theorem permissions_scanned_in_order (policy : Policy) (ctx : context) :
  Forall (lets_through {| h_policy := policy; h_context := ctx |}) (prohibitions policy) ->
  (forall pre q post,
     permissions policy = pre ++ q :: post ->
     Forall (grants_not {| h_policy := policy; h_context := ctx |}) pre ->
     matches {| h_policy := policy; h_context := ctx |} (permission_action q) ->
     (permission_constraints q = [] ->
      exists evaluated,
        fst (call_evaluate policy ctx) =
        Ok {| allowed := true;
              reason := Some "Permission granted (no constraints)";
              evaluated_constraints := evaluated |}) /\
     (forall rs,
        permission_constraints q <> [] ->
        checks {| h_policy := policy; h_context := ctx |} (permission_constraints q) rs ->
        all_satisfied rs = true ->
        exists evaluated,
          fst (call_evaluate policy ctx) =
          Ok {| allowed := true;
                reason := Some "All permission constraints satisfied";
                evaluated_constraints := evaluated |})) /\
  (Forall (grants_not {| h_policy := policy; h_context := ctx |}) (permissions policy) ->
   exists evaluated,
     fst (call_evaluate policy ctx) =
     Ok {| allowed := false;
           reason := Some "No matching permission found";
           evaluated_constraints := evaluated |}).
Proof.
  intros Hpro. unfold call_evaluate.
  change (fst (evaluate ?h)) with (run evaluate h).
  rewrite run_evaluate. simpl h_policy.
  destruct (prohibitions_let_through _ _ Hpro []) as [ev Hev]. rewrite Hev. simpl.
  split.
  - intros pre q post -> Hpre Hm. apply permissions_grant; assumption.
  - intros Hall. apply permissions_grant_not. assumption.
Qed.

(** Scenario B falls through to the default deny. *)
Lemma permissions_scanned_in_order_witness :
  exists evaluated,
    fst (call_evaluate QUALITY_DATA_POLICY SCENARIO_B) =
    Ok {| allowed := false;
          reason := Some "No matching permission found";
          evaluated_constraints := evaluated |}.
Proof.
  apply (permissions_scanned_in_order QUALITY_DATA_POLICY SCENARIO_B).
  - repeat constructor.
  - constructor; [| constructor]. right. split; [reflexivity |].
    eexists. split; reflexivity.
Defined.

End PolicyFacts.

(** ** Negotiations and transfers *)

Module ConnectorFacts.
Import Py Models Policies Store Contracts Transfers Main.
Import Statements Scenarios PolicyFacts.

(** *** Terminal states of a negotiation *)

(** C2: on a negotiation in state FINALIZED or TERMINATED, each of offer,
    agree, verify, finalize and terminate answers [INVALID_STATE] and
    returns the store it received, so the negotiation, its state and its
    [state_history] are what they were. *)
Theorem terminal_negotiation_rejects (e : env) (st : store) (id : string)
    (n : negotiation) (action : option NegotiationAction) :
  get_negotiation id st = Some n ->
  n_state n = "FINALIZED" \/ n_state n = "TERMINATED" ->
  invalid_state_answer (provider_offer e id action st) st /\
  invalid_state_answer (consumer_agree e id st) st /\
  invalid_state_answer (verify_agreement e id st) st /\
  invalid_state_answer (finalize_agreement e id st) st /\
  invalid_state_answer (terminate_negotiation e id st) st.
Proof.
  intros Hn Hstate.
  unfold provider_offer, consumer_agree, verify_agreement, finalize_agreement,
    terminate_negotiation, invalid_state_answer, invalid_state, fail.
  rewrite Hn.
  destruct Hstate as [-> | ->]; simpl; repeat split; eexists; reflexivity.
Qed.

Lemma terminal_negotiation_rejects_witness :
  invalid_state_answer
    (terminate_negotiation ENV "negotiation-0000abcd" FINALIZED_STORE) FINALIZED_STORE.
Proof.
  apply (terminal_negotiation_rejects ENV FINALIZED_STORE "negotiation-0000abcd"
           FINALIZED_NEGOTIATION None).
  - reflexivity.
  - left. reflexivity.
Defined.

(** *** Creating a transfer *)

(** C8: [initiate_transfer] answers 404 [AGREEMENT_NOT_FOUND] when the store
    has no agreement of that id, 400 [AGREEMENT_NOT_ACTIVE] when the
    agreement's status is not ACTIVE, and otherwise saves a transfer in
    state REQUESTED with the agreement's asset, provider and consumer. *)
Theorem initiate_transfer_outcomes (e : env) (request : TransferRequest) (st : store) :
  (get_agreement (request_agreement_id request) st = None ->
   exists d,
     initiate_transfer e request st = (inl (HTTPException 404 d), st) /\
     error d = "AGREEMENT_NOT_FOUND") /\
  (forall a,
     get_agreement (request_agreement_id request) st = Some a ->
     a_status a <> "ACTIVE" ->
     exists d,
       initiate_transfer e request st = (inl (HTTPException 400 d), st) /\
       error d = "AGREEMENT_NOT_ACTIVE") /\
  (forall a,
     get_agreement (request_agreement_id request) st = Some a ->
     a_status a = "ACTIVE" ->
     exists t,
       fst (initiate_transfer e request st) = inr t /\
       get_transfer (t_id t) (snd (initiate_transfer e request st)) = Some t /\
       t_state t = "REQUESTED" /\
       t_agreement_id t = request_agreement_id request /\
       t_asset_id t = a_asset_id a /\
       t_provider_id t = a_provider_id a /\
       t_consumer_id t = a_consumer_id a).
Proof.
  unfold initiate_transfer. repeat split.
  - intros ->. eexists. split; reflexivity.
  - intros a -> Hstatus.
    destruct (String.eqb_spec (a_status a) "ACTIVE") as [Heq | _]; [contradiction |].
    simpl. eexists. split; reflexivity.
  - intros a -> ->. simpl. eexists. split; [reflexivity |].
    split; [| repeat split].
    unfold get_transfer, save_transfer, log_event. simpl.
    apply lookup_insert_eq.
Qed.

(** *** Completing a transfer *)

(** C6: on a transfer in state STARTED, [complete_transfer] either finds
    the asset's data and saves the transfer in state COMPLETED with the
    data and [completed_at], or finds none (no document, or a falsy one),
    answers 500 [DATA_NOT_AVAILABLE] and returns the store it received; in
    any other state it answers 400 [INVALID_STATE] and returns the store
    it received. *)
Theorem complete_transfer_outcomes (e : env) (st : store) (t : transfer) :
  get_transfer (t_id t) st = Some t ->
  (t_state t = "STARTED" ->
   (forall data,
      resolvable e (t_asset_id t) st data ->
      exists t',
        fst (complete_transfer e (t_id t) st) = inr t' /\
        get_transfer (t_id t) (snd (complete_transfer e (t_id t) st)) = Some t' /\
        t_state t' = "COMPLETED" /\
        t_data t' = Some data /\
        data <> VNone /\
        t_completed_at t' = Some (utcnow e 0)) /\
   (unresolvable e (t_asset_id t) st ->
    data_unavailable_answer (complete_transfer e (t_id t) st) st)) /\
  (t_state t <> "STARTED" ->
   invalid_state_answer (complete_transfer e (t_id t) st) st).
Proof.
  intros Ht. unfold complete_transfer. rewrite Ht. split.
  - intros ->. simpl. split.
    + intros data [Hdata Htruthy]. rewrite Hdata, Htruthy.
      eexists. split; [reflexivity |].
      split; [| repeat split].
      * unfold get_transfer, save_transfer, log_event. simpl.
        apply lookup_insert_eq.
      * intros ->. discriminate Htruthy.
    + intros [Hnone | (data & Hdata & Hfalsy)].
      * rewrite Hnone. reflexivity.
      * rewrite Hdata, Hfalsy. reflexivity.
  - intros Hstate.
    destruct (String.eqb_spec (t_state t) "STARTED") as [Heq | _]; [contradiction |].
    simpl. eexists. reflexivity.
Qed.

(** With no file in the sample-data directory the transfer stays where it
    is. *)
Lemma complete_transfer_outcomes_witness :
  data_unavailable_answer
    (complete_transfer ENV "transfer-0000cafe" STARTED_STORE) STARTED_STORE.
Proof.
  apply (complete_transfer_outcomes ENV STARTED_STORE STARTED_TRANSFER).
  - reflexivity.
  - reflexivity.
  - left. reflexivity.
Defined.

(** *** The default policy of an asset *)

Lemma open_access_template : POLICY_TEMPLATES !! "open-access" = Some OPEN_ACCESS_POLICY.
Proof. reflexivity. Qed.

Lemma action_matches_string (action a : string) :
  _action_matches action (VStr a) = Ok (String.eqb (upper action) (upper a)).
Proof. reflexivity. Qed.

Lemma matches_string h action :
  matches h action ->
  exists a, request_action h = VStr a /\ upper action = upper a.
Proof.
  unfold matches. destruct (request_action h) as [| | | a | |]; try discriminate.
  rewrite action_matches_string. intros Hm. exists a. split; [reflexivity |].
  apply String.eqb_eq. congruence.
Qed.

(** The open-access policy grants [USE] to every context. *)
Lemma open_access_grants_use (ctx : context) :
  matches {| h_policy := OPEN_ACCESS_POLICY; h_context := ctx |} "USE" ->
  fst (call_evaluate OPEN_ACCESS_POLICY ctx) =
  Ok {| allowed := true;
        reason := Some "Permission granted (no constraints)";
        evaluated_constraints := [] |}.
Proof.
  intros Hm. unfold call_evaluate.
  change (fst (evaluate ?h)) with (run evaluate h).
  destruct (matches_string _ _ Hm) as (a & Ha & Hupper).
  rewrite run_evaluate. cbn [h_policy OPEN_ACCESS_POLICY prohibitions permissions].
  rewrite run_prohibitions_cons. cbn [prohibition_action].
  rewrite Ha, action_matches_string, <- Hupper.
  replace (String.eqb (upper "DISTRIBUTE") (upper "USE")) with false by reflexivity.
  cbn [res_bind]. unfold run at 1. cbn [prohibitions_loop ret fst res_bind].
  rewrite run_permissions_cons. cbn [permission_action permission_constraints].
  rewrite Ha, action_matches_string, <- Hupper, String.eqb_refl. reflexivity.
Qed.

(** C10: a negotiation requested for an asset that has no [policy_id] is
    created, bound to the policy id [open-access], whose template grants
    [USE] to every context; an offer on it in state REQUESTED goes to
    OFFERED whatever the attributes say besides the action, and finalizing
    it in state VERIFIED issues an agreement under [open-access]. *)
Theorem missing_policy_id_binds_open_access (e : env) (request : NegotiationRequest)
    (st : store) (a : asset) :
  get_asset_by_id (request_asset_id request) st = Some a ->
  asset_policy_id a = None ->
  exists n,
    fst (initiate_negotiation e request st) = inr n /\
    get_negotiation (n_id n) (snd (initiate_negotiation e request st)) = Some n /\
    n_state n = "REQUESTED" /\
    n_policy_id n = "open-access" /\
    POLICY_TEMPLATES !! n_policy_id n = Some OPEN_ACCESS_POLICY /\
    (forall ctx,
       matches {| h_policy := OPEN_ACCESS_POLICY; h_context := ctx |} "USE" ->
       exists r, fst (call_evaluate OPEN_ACCESS_POLICY ctx) = Ok r /\ allowed r = true) /\
    (forall e' st' n' action ctx,
       get_negotiation (n_id n) st' = Some n' ->
       n_policy_id n' = n_policy_id n ->
       n_state n' = "REQUESTED" ->
       offer_attributes n' action = Some ctx ->
       matches {| h_policy := OPEN_ACCESS_POLICY; h_context := ctx |} "USE" ->
       exists n'',
         fst (provider_offer e' (n_id n) action st') = inr n'' /\
         n_state n'' = "OFFERED" /\
         n_policy_id n'' = "open-access") /\
    (forall e' st' n',
       get_negotiation (n_id n) st' = Some n' ->
       n_policy_id n' = n_policy_id n ->
       n_state n' = "VERIFIED" ->
       exists n'' agr,
         fst (finalize_agreement e' (n_id n) st') = inr (n'', agr) /\
         a_policy_id agr = "open-access" /\
         a_policy_description agr = "Allows USE; Prohibits DISTRIBUTE" /\
         a_status agr = "ACTIVE").
Proof.
  intros Ha Hnone. unfold initiate_negotiation. rewrite Ha, Hnone.
  cbn [default]. rewrite open_access_template.
  eexists. split; [reflexivity |]. cbn [snd n_id n_state n_policy_id].
  split; [| split; [reflexivity | split; [reflexivity | split; [apply open_access_template |]]]].
  { unfold get_negotiation, save_negotiation, log_event. cbn [negotiations n_id].
    apply lookup_insert_eq. }
  split; [| split].
  - intros ctx Hm. rewrite (open_access_grants_use ctx Hm). eexists. split; reflexivity.
  - intros e' st' n' action ctx Hn' Hpol Hstate Hattrs Hm.
    unfold provider_offer. rewrite Hn', Hstate.
    cbn [String.eqb Ascii.eqb Bool.eqb negb].
    unfold offer_attributes in Hattrs. rewrite Hattrs, Hpol, open_access_template.
    cbn [evaluate_offer]. rewrite (open_access_grants_use ctx Hm). cbn [allowed].
    eexists. split; [reflexivity |]. split; [reflexivity | exact Hpol].
  - intros e' st' n' Hn' Hpol Hstate.
    unfold finalize_agreement. rewrite Hn', Hstate.
    cbn [String.eqb Ascii.eqb Bool.eqb negb].
    rewrite Hpol, open_access_template.
    eexists. eexists. split; [reflexivity |]. repeat split.
Qed.

Lemma missing_policy_id_binds_open_access_witness :
  exists n,
    fst (initiate_negotiation ENV UNBOUND_REQUEST (store_of [UNBOUND_ASSET])) = inr n /\
    n_policy_id n = "open-access".
Proof.
  destruct (missing_policy_id_binds_open_access ENV UNBOUND_REQUEST
              (store_of [UNBOUND_ASSET]) UNBOUND_ASSET)
    as (n & Hn & _ & _ & Hpol & _).
  - reflexivity.
  - reflexivity.
  - exists n. split; assumption.
Defined.

(** *** Agreements *)

Lemma consistent_store_of catalog : consistent (store_of catalog).
Proof.
  split; unfold stored_under_id; cbn [store_of negotiations agreements].
  - intros id n H. rewrite lookup_empty in H. discriminate.
  - intros k a H. rewrite lookup_empty in H. discriminate.
  - intros k1 k2 a1 a2 H. rewrite lookup_empty in H. discriminate.
Qed.

(** Requests that touch neither negotiations nor agreements. *)
Lemma consistent_same st st' :
  negotiations st' = negotiations st ->
  agreements st' = agreements st ->
  consistent st -> consistent st'.
Proof.
  intros Hn Ha [K F S]. split; unfold stored_under_id in *; rewrite ?Hn, ?Ha; assumption.
Qed.

(** A new negotiation under a fresh id. *)
Lemma consistent_fresh st st' n' :
  negotiations st !! n_id n' = None ->
  negotiations st' = <[n_id n' := n']> (negotiations st) ->
  agreements st' = agreements st ->
  consistent st -> consistent st'.
Proof.
  intros Hfresh Hn Ha [K F S]. split; unfold stored_under_id in *; rewrite ?Hn, ?Ha.
  - intros id n. rewrite lookup_insert. case_decide as Hid.
    + intros [= <-]. exact Hid.
    + apply K.
  - intros k a Hk. destruct (F k a Hk) as (n & Hlook & Hstate).
    exists n. split; [| exact Hstate].
    rewrite lookup_insert_ne; [exact Hlook |]. congruence.
  - exact S.
Qed.

(** A negotiation that has not been finalized moves on. *)
Lemma consistent_update st st' id n n' :
  negotiations st !! id = Some n ->
  n_state n <> "FINALIZED" ->
  negotiations st' = <[n_id n' := n']> (negotiations st) ->
  agreements st' = agreements st ->
  n_id n' = n_id n ->
  consistent st -> consistent st'.
Proof.
  intros Hlook Hstate Hn Ha Hid [K F S].
  assert (Hkey : n_id n' = id) by (rewrite Hid; apply K; exact Hlook).
  split; unfold stored_under_id in *; rewrite ?Hn, ?Ha, ?Hkey.
  - intros id0 n0. rewrite lookup_insert. case_decide as Heq.
    + intros [= <-]. congruence.
    + apply K.
  - intros k a Hk. destruct (F k a Hk) as (m & Hm & Hfin).
    exists m. split; [| exact Hfin].
    rewrite lookup_insert_ne; [exact Hm |].
    intros Heq. rewrite <- Heq in Hm. congruence.
  - exact S.
Qed.

(** A verified negotiation is finalized and its agreement stored. *)
Lemma consistent_finalize st st' id n n' a' :
  negotiations st !! id = Some n ->
  n_state n <> "FINALIZED" ->
  negotiations st' = <[n_id n' := n']> (negotiations st) ->
  agreements st' = <[a_id a' := a']> (agreements st) ->
  n_id n' = n_id n ->
  n_state n' = "FINALIZED" ->
  a_negotiation_id a' = id ->
  consistent st -> consistent st'.
Proof.
  intros Hlook Hstate Hn Ha Hid Hfin' Hneg [K F S].
  assert (Hkey : n_id n' = id) by (rewrite Hid; apply K; exact Hlook).
  assert (Hother : forall k a, agreements st !! k = Some a -> a_negotiation_id a <> id).
  { intros k a Hk Heq. destruct (F k a Hk) as (m & Hm & Hfin).
    rewrite Heq in Hm. congruence. }
  split; unfold stored_under_id in *; rewrite ?Hn, ?Ha, ?Hkey.
  - intros id0 n0. rewrite lookup_insert. case_decide as Heq.
    + intros [= <-]. congruence.
    + apply K.
  - intros k a. rewrite lookup_insert. case_decide as Heq.
    + intros [= <-]. rewrite Hneg. exists n'. split; [apply lookup_insert_eq | exact Hfin'].
    + intros Hk. destruct (F k a Hk) as (m & Hm & Hfin).
      exists m. split; [| exact Hfin].
      rewrite lookup_insert_ne; [exact Hm |].
      intros Heq'. exact (Hother k a Hk (eq_sym Heq')).
  - intros k1 k2 a1 a2. rewrite !lookup_insert.
    repeat case_decide; try congruence.
    + intros [= <-] H2 Heq. exfalso. apply (Hother k2 a2 H2). congruence.
    + intros H1 [= <-] Heq. exfalso. apply (Hother k1 a1 H1). congruence.
    + apply S.
Qed.

Lemma snd_answered {A} (f : A -> answer) (r : handled A) : snd (answered f r) = snd r.
Proof. reflexivity. Qed.

Lemma state_differs (s t : string) : String.eqb s t = true -> t <> "FINALIZED" -> s <> "FINALIZED".
Proof. intros H%String.eqb_eq. congruence. Qed.

(** Every request keeps the store consistent. *)
Lemma consistent_serve e c st :
  consistent st -> fresh_id e c st -> consistent (snd (serve e c st)).
Proof.
  intros Hst Hfresh.
  destruct c; cbn [serve]; rewrite ?snd_answered.
  - (* initiate_negotiation *)
    unfold initiate_negotiation. repeat case_match; try exact Hst.
    cbn [snd]. eapply (consistent_fresh st); [ | reflexivity | reflexivity | exact Hst].
    exact Hfresh.
  - (* provider_offer *)
    unfold provider_offer.
    destruct (get_negotiation negotiation_id st) as [n |] eqn:Hn; [| exact Hst].
    destruct (String.eqb (n_state n) "REQUESTED") eqn:Hstate; [| exact Hst].
    cbn [negb]. repeat case_match; try exact Hst; cbn [snd];
      (eapply consistent_update;
       [exact Hn | eapply state_differs; [exact Hstate | discriminate]
        | reflexivity | reflexivity | reflexivity | exact Hst]).
  - (* consumer_agree *)
    unfold consumer_agree.
    destruct (get_negotiation negotiation_id st) as [n |] eqn:Hn; [| exact Hst].
    destruct (String.eqb (n_state n) "OFFERED") eqn:Hstate; [| exact Hst].
    cbn [negb snd]. eapply consistent_update;
      [exact Hn | eapply state_differs; [exact Hstate | discriminate]
       | reflexivity | reflexivity | reflexivity | exact Hst].
  - (* verify_agreement *)
    unfold verify_agreement.
    destruct (get_negotiation negotiation_id st) as [n |] eqn:Hn; [| exact Hst].
    destruct (String.eqb (n_state n) "AGREED") eqn:Hstate; [| exact Hst].
    cbn [negb snd]. eapply consistent_update;
      [exact Hn | eapply state_differs; [exact Hstate | discriminate]
       | reflexivity | reflexivity | reflexivity | exact Hst].
  - (* finalize_agreement *)
    unfold finalize_agreement.
    destruct (get_negotiation negotiation_id st) as [n |] eqn:Hn; [| exact Hst].
    destruct (String.eqb (n_state n) "VERIFIED") eqn:Hstate; [| exact Hst].
    cbn [negb snd]. eapply consistent_finalize;
      [exact Hn | eapply state_differs; [exact Hstate | discriminate]
       | reflexivity | reflexivity | reflexivity | reflexivity | reflexivity | exact Hst].
  - (* terminate_negotiation *)
    unfold terminate_negotiation.
    destruct (get_negotiation negotiation_id st) as [n |] eqn:Hn; [| exact Hst].
    destruct (String.eqb (n_state n) "FINALIZED") eqn:Hstate; [exact Hst |].
    cbn [orb]. case_match; [exact Hst |].
    cbn [snd]. eapply consistent_update;
      [exact Hn | intros Heq; rewrite Heq in Hstate; discriminate Hstate
       | reflexivity | reflexivity | reflexivity | exact Hst].
  - unfold initiate_transfer. repeat case_match; try exact Hst.
    apply (consistent_same st); [reflexivity | reflexivity | exact Hst].
  - unfold start_transfer. repeat case_match; try exact Hst.
    apply (consistent_same st); [reflexivity | reflexivity | exact Hst].
  - unfold complete_transfer. repeat case_match; try exact Hst.
    apply (consistent_same st); [reflexivity | reflexivity | exact Hst].
  - unfold suspend_transfer. repeat case_match; try exact Hst.
    apply (consistent_same st); [reflexivity | reflexivity | exact Hst].
  - unfold terminate_transfer. repeat case_match; try exact Hst.
    apply (consistent_same st); [reflexivity | reflexivity | exact Hst].
  - exact Hst.
Qed.

Lemma consistent_serve_all calls :
  forall st, consistent st -> fresh_ids calls st -> consistent (serve_all calls st).
Proof.
  induction calls as [| [e c] calls IH]; intros st Hst Hfresh; cbn [serve_all].
  - exact Hst.
  - destruct Hfresh as [Hc Hrest].
    apply IH; [apply consistent_serve; assumption | exact Hrest].
Qed.

(** Whatever the ids drawn, a negotiation is saved under its own. *)
Lemma stored_under_id_insert st st' n' :
  negotiations st' = <[n_id n' := n']> (negotiations st) ->
  stored_under_id st -> stored_under_id st'.
Proof.
  intros Hn K id n. rewrite Hn, lookup_insert. case_decide as Hid.
  - intros [= <-]. exact Hid.
  - apply K.
Qed.

Lemma stored_under_id_serve e c st :
  stored_under_id st -> stored_under_id (snd (serve e c st)).
Proof.
  intros K.
  destruct c; cbn [serve]; rewrite ?snd_answered.
  - unfold initiate_negotiation. repeat case_match;
      first [exact K | eapply stored_under_id_insert; [reflexivity | exact K]].
  - unfold provider_offer. repeat case_match;
      first [exact K | eapply stored_under_id_insert; [reflexivity | exact K]].
  - unfold consumer_agree. repeat case_match;
      first [exact K | eapply stored_under_id_insert; [reflexivity | exact K]].
  - unfold verify_agreement. repeat case_match;
      first [exact K | eapply stored_under_id_insert; [reflexivity | exact K]].
  - unfold finalize_agreement. repeat case_match;
      first [exact K | eapply stored_under_id_insert; [reflexivity | exact K]].
  - unfold terminate_negotiation. repeat case_match;
      first [exact K | eapply stored_under_id_insert; [reflexivity | exact K]].
  - unfold initiate_transfer. repeat case_match; exact K.
  - unfold start_transfer. repeat case_match; exact K.
  - unfold complete_transfer. repeat case_match; exact K.
  - unfold suspend_transfer. repeat case_match; exact K.
  - unfold terminate_transfer. repeat case_match; exact K.
  - exact K.
Qed.

Lemma stored_under_id_serve_all calls :
  forall st, stored_under_id st -> stored_under_id (serve_all calls st).
Proof.
  induction calls as [| [e c] calls IH]; intros st K; cbn [serve_all].
  - exact K.
  - apply IH, stored_under_id_serve, K.
Qed.

(** Only [finalize_agreement] writes to the agreements. *)
Lemma agreements_kept e c st :
  match c with
  | FinalizeAgreement _ => False
  | _ => True
  end ->
  agreements (snd (serve e c st)) = agreements st.
Proof.
  destruct c; intros []; cbn [serve]; rewrite ?snd_answered.
  - unfold initiate_negotiation. repeat case_match; reflexivity.
  - unfold provider_offer. repeat case_match; reflexivity.
  - unfold consumer_agree. repeat case_match; reflexivity.
  - unfold verify_agreement. repeat case_match; reflexivity.
  - unfold terminate_negotiation. repeat case_match; reflexivity.
  - unfold initiate_transfer. repeat case_match; reflexivity.
  - unfold start_transfer. repeat case_match; reflexivity.
  - unfold complete_transfer. repeat case_match; reflexivity.
  - unfold suspend_transfer. repeat case_match; reflexivity.
  - unfold terminate_transfer. repeat case_match; reflexivity.
  - reflexivity.
Qed.

(** [finalize_agreement] on a verified negotiation. *)
Lemma finalize_verified e id st n0 :
  get_negotiation id st = Some n0 ->
  n_state n0 = "VERIFIED" ->
  exists n a,
    fst (finalize_agreement e id st) = inr (n, a) /\
    agreements (snd (finalize_agreement e id st)) = <[a_id a := a]> (agreements st) /\
    negotiations (snd (finalize_agreement e id st)) = <[n_id n0 := n]> (negotiations st) /\
    a_status a = "ACTIVE" /\
    a_negotiation_id a = id /\
    n_state n = "FINALIZED" /\
    n_agreement_id n = Some (a_id a).
Proof.
  intros Hn Hstate. unfold finalize_agreement. rewrite Hn, Hstate.
  cbn [String.eqb Ascii.eqb Bool.eqb negb].
  eexists. eexists. split; [reflexivity |]. repeat split.
Qed.

(** [finalize_agreement] on anything else. *)
Lemma finalize_unverified e id st :
  (forall n0, get_negotiation id st = Some n0 -> n_state n0 <> "VERIFIED") ->
  exists err, finalize_agreement e id st = (inl err, st).
Proof.
  intros Hno. unfold finalize_agreement.
  destruct (get_negotiation id st) as [n0 |]; [| eexists; reflexivity].
  destruct (String.eqb_spec (n_state n0) "VERIFIED") as [Heq | Hne].
  - destruct (Hno n0 eq_refl Heq).
  - cbn [negb]. eexists. reflexivity.
Qed.

Lemma finalize_succeeds_when_verified e id st n a :
  fst (finalize_agreement e id st) = inr (n, a) ->
  exists n0, get_negotiation id st = Some n0 /\ n_state n0 = "VERIFIED".
Proof.
  intros Hok.
  destruct (get_negotiation id st) as [n0 |] eqn:Hn.
  - destruct (String.eqb_spec (n_state n0) "VERIFIED") as [Heq | Hne].
    + exists n0. split; [reflexivity | exact Heq].
    + destruct (finalize_unverified e id st) as [err Herr].
      * intros m Hm. rewrite Hn in Hm. injection Hm as <-. exact Hne.
      * rewrite Herr in Hok. discriminate Hok.
  - destruct (finalize_unverified e id st) as [err Herr].
    + intros m Hm. rewrite Hn in Hm. discriminate Hm.
    + rewrite Herr in Hok. discriminate Hok.
Qed.

(** C5: in every store [serve_all calls st0] that requests lead to from a
    store [st0] which holds each negotiation under its id, each agreement
    for a finalized negotiation and no two agreements for one negotiation
    (a store without negotiations and agreements is one), (1) a request
    stores an agreement that was not there only if it is a finalize that
    succeeds, and the agreement is the one it answers; (2) finalize
    succeeds exactly on a negotiation in state VERIFIED; (3) when it
    succeeds it inserts one agreement, of status ACTIVE and of that
    negotiation's id, and leaves the negotiation in state FINALIZED with
    the agreement's id; (4) when each new negotiation was given an id no
    stored negotiation had, no two stored agreements are of the same
    negotiation. *)
Theorem agreement_iff_finalize (st0 : store) (calls : list (env * call)) (e : env) :
  consistent st0 ->
  (forall c k a,
     agreements (snd (serve e c (serve_all calls st0))) !! k = Some a ->
     agreements (serve_all calls st0) !! k <> Some a ->
     exists id n,
       c = FinalizeAgreement id /\
       fst (serve e c (serve_all calls st0)) = inr (Finalized n a)) /\
  (forall id,
     (exists n a, fst (finalize_agreement e id (serve_all calls st0)) = inr (n, a)) <->
     (exists n0,
        get_negotiation id (serve_all calls st0) = Some n0 /\ n_state n0 = "VERIFIED")) /\
  (forall id n a,
     fst (finalize_agreement e id (serve_all calls st0)) = inr (n, a) ->
     agreements (snd (finalize_agreement e id (serve_all calls st0)))
       = <[a_id a := a]> (agreements (serve_all calls st0)) /\
     get_agreement (a_id a) (snd (finalize_agreement e id (serve_all calls st0))) = Some a /\
     a_status a = "ACTIVE" /\
     a_negotiation_id a = id /\
     get_negotiation id (snd (finalize_agreement e id (serve_all calls st0))) = Some n /\
     n_state n = "FINALIZED" /\
     n_agreement_id n = Some (a_id a)) /\
  (fresh_ids calls st0 ->
   forall k1 k2 a1 a2,
     agreements (serve_all calls st0) !! k1 = Some a1 ->
     agreements (serve_all calls st0) !! k2 = Some a2 ->
     a_negotiation_id a1 = a_negotiation_id a2 ->
     k1 = k2).
Proof.
  intros H0.
  pose proof (stored_under_id_serve_all calls st0 (keyed st0 H0)) as K.
  assert (Hst : fresh_ids calls st0 -> consistent (serve_all calls st0))
    by (intros Hfresh; apply consistent_serve_all; [exact H0 | exact Hfresh]).
  set (st := serve_all calls st0) in *.
  split; [| split; [| split]].
  - intros c k a Hnew Hold.
    destruct c;
      try (rewrite agreements_kept in Hnew by exact I; contradiction).
    cbn [serve] in *. rewrite snd_answered in Hnew.
    destruct (get_negotiation negotiation_id st) as [n0 |] eqn:Hn.
    + destruct (String.eqb_spec (n_state n0) "VERIFIED") as [Heq | Hne].
      * destruct (finalize_verified e negotiation_id st n0 Hn Heq)
          as (n & a' & Hok & Hagr & _).
        rewrite Hagr in Hnew. rewrite lookup_insert in Hnew.
        case_decide as Hk; [| contradiction].
        injection Hnew as <-.
        exists negotiation_id, n. split; [reflexivity |].
        unfold answered. rewrite Hok. reflexivity.
      * destruct (finalize_unverified e negotiation_id st) as [err Herr].
        -- intros m Hm. rewrite Hn in Hm. injection Hm as <-. exact Hne.
        -- rewrite Herr in Hnew. contradiction.
    + destruct (finalize_unverified e negotiation_id st) as [err Herr].
      * intros m Hm. rewrite Hn in Hm. discriminate Hm.
      * rewrite Herr in Hnew. contradiction.
  - intros id. split.
    + intros (n & a & Hok). exact (finalize_succeeds_when_verified e id st n a Hok).
    + intros (n0 & Hn & Hstate).
      destruct (finalize_verified e id st n0 Hn Hstate) as (n & a & Hok & _).
      exists n, a. exact Hok.
  - intros id n a Hok.
    destruct (finalize_succeeds_when_verified e id st n a Hok) as (n0 & Hn & Hstate).
    destruct (finalize_verified e id st n0 Hn Hstate)
      as (n' & a' & Hok' & Hagr & Hneg & Hactive & Hof & Hfin & Hlink).
    rewrite Hok in Hok'. injection Hok' as <- <-.
    assert (Hkey : n_id n0 = id) by (apply K; exact Hn).
    repeat split; try assumption.
    + unfold get_agreement. rewrite Hagr. apply lookup_insert_eq.
    + unfold get_negotiation. rewrite Hneg, Hkey. apply lookup_insert_eq.
  - intros Hfresh. exact (single st (Hst Hfresh)).
Qed.

(** On the happy path the ids are fresh, and the verified negotiation can
    be finalized. *)
Lemma agreement_iff_finalize_witness :
  consistent INSTALLED_STORE /\
  fresh_ids HAPPY_PATH INSTALLED_STORE /\
  (forall k1 k2 a1 a2,
     agreements (serve_all HAPPY_PATH INSTALLED_STORE) !! k1 = Some a1 ->
     agreements (serve_all HAPPY_PATH INSTALLED_STORE) !! k2 = Some a2 ->
     a_negotiation_id a1 = a_negotiation_id a2 ->
     k1 = k2) /\
  exists n a,
    fst (finalize_agreement ENV "negotiation-1a2b3c4d"
           (serve_all UP_TO_VERIFIED INSTALLED_STORE)) = inr (n, a).
Proof.
  assert (H0 : consistent INSTALLED_STORE) by apply consistent_store_of.
  assert (Hfresh : fresh_ids HAPPY_PATH INSTALLED_STORE) by (repeat split).
  split; [exact H0 |]. split; [exact Hfresh |]. split.
  - apply (agreement_iff_finalize INSTALLED_STORE HAPPY_PATH ENV H0). exact Hfresh.
  - apply (agreement_iff_finalize INSTALLED_STORE UP_TO_VERIFIED ENV H0).
    eexists. split; vm_compute; reflexivity.
Defined.

(** An id drawn twice: the second negotiation takes the place of the
    first, finalized one, and its own agreement is stored beside the
    first one, so two ACTIVE agreements are of one negotiation id. *)
Theorem second_agreement_on_id_collision :
  consistent INSTALLED_STORE /\
  ~ fresh_ids COLLISION INSTALLED_STORE /\
  exists k1 k2 a1 a2,
    agreements (serve_all COLLISION INSTALLED_STORE) !! k1 = Some a1 /\
    agreements (serve_all COLLISION INSTALLED_STORE) !! k2 = Some a2 /\
    a_negotiation_id a1 = a_negotiation_id a2 /\
    a_status a1 = "ACTIVE" /\
    a_status a2 = "ACTIVE" /\
    k1 <> k2.
Proof.
  split; [apply consistent_store_of |]. split.
  - intros (_ & _ & _ & _ & _ & Hagain & _). vm_compute in Hagain. discriminate Hagain.
  - exists "agreement-1a2b3c4d", "agreement-5e6f7a8b". eexists. eexists.
    split; [vm_compute; reflexivity |]. split; [vm_compute; reflexivity |].
    repeat split. discriminate.
Qed.


End ConnectorFacts.

(** ** The scenarios of the specification *)

Module ScenarioFacts.
Import Py Models Policies Store Contracts Transfers Main.
Import Statements Scenarios.

(** Scenario A: the tier-1 policy grants a tier-1 supplier. *)
Example scenario_A :
  fst (call_evaluate TIER1_SUPPLIER_ONLY_POLICY {[ "partner_type" := VStr "tier1_supplier" ]})
  = Ok {| allowed := true;
          reason := Some "All permission constraints satisfied";
          evaluated_constraints :=
            [ {| constraint := "partner_type eq tier1_supplier";
                 context_value := VStr "tier1_supplier";
                 satisfied := true |} ] |}.
Proof. reflexivity. Qed.

(** Scenario B: the quality-data policy denies another purpose, and the
    trace has both constraints of the permission. *)
Example scenario_B :
  fst (call_evaluate QUALITY_DATA_POLICY SCENARIO_B)
  = Ok {| allowed := false;
          reason := Some "No matching permission found";
          evaluated_constraints :=
            [ {| constraint := "partner_type in ['tier1_supplier', 'tier2_supplier']";
                 context_value := VStr "tier1_supplier";
                 satisfied := true |};
              {| constraint := "purpose eq quality_analysis";
                 context_value := VStr "cost_reduction";
                 satisfied := false |} ] |}.
Proof. reflexivity. Qed.

(** Scenario C: the happy path ends with an active agreement and a
    completed transfer that carries the catalog's data. *)
Example scenario_C :
  a_status <$> get_agreement "agreement-1a2b3c4d" (serve_all HAPPY_PATH INSTALLED_STORE)
    = Some "ACTIVE" /\
  (fun t => (t_state t, t_data t, t_completed_at t))
    <$> get_transfer "transfer-1a2b3c4d" (serve_all HAPPY_PATH INSTALLED_STORE)
    = Some ("COMPLETED", Some PART_CATALOG, Some "2024-12-01T12:00:00").
Proof. split; vm_compute; reflexivity. Qed.

(** Scenario D: agreeing on a negotiation still in state REQUESTED. *)
Example scenario_D :
  fst (consumer_agree ENV "negotiation-1a2b3c4d"
         (serve_all [(ENV, InitiateNegotiation TIER1_REQUEST)] INSTALLED_STORE))
  = inl (HTTPException 400
           {| error := "INVALID_STATE";
              message := Some "Cannot agree in state 'REQUESTED'. Expected 'OFFERED'.";
              hint := None |}).
Proof. vm_compute. reflexivity. Qed.

(** A certified partner, by one certification of the two. *)
Example certified_partner_granted :
  allowed <$> match fst (call_evaluate CERTIFIED_PARTNERS_POLICY
                           {[ "certification" := VList [VStr "IATF16949"; VStr "TISAX"] ]}) with
              | Ok r => Some r
              | Raise _ => None
              end
  = Some true.
Proof. reflexivity. Qed.

(** A request body without [consumer_attributes] makes the offer fail
    with an exception, and the negotiation stays in state REQUESTED. *)
Example offer_without_attributes :
  provider_offer ENV "negotiation-1a2b3c4d"
    (Some {| action_consumer_attributes := None |})
    (serve_all [(ENV, InitiateNegotiation TIER1_REQUEST)] INSTALLED_STORE)
  = (inl (Unhandled AttributeError),
     serve_all [(ENV, InitiateNegotiation TIER1_REQUEST)] INSTALLED_STORE).
Proof. vm_compute. reflexivity. Qed.

End ScenarioFacts.

(** * More of the evaluator *)

Module EvaluatorStatements.
Import Py Models Policies Statements.

(** The operators [_evaluate_single_constraint] knows, in lower case. *)
Definition KNOWN_OPERATORS : list string :=
  ["eq"; "neq"; "in"; "gt"; "lt"; "gte"; "lte"; "contains"; "has_any"].

(** The constraint [c] under another spelling of its operator. *)
Definition with_operator (c : Constraint) (op : string) : Constraint := {|
  left_operand := left_operand c;
  operator := op;
  right_operand := right_operand c
|}.

(** What [context.get(key, "NOT_PROVIDED")] observes. *)
Definition observed (h : heap) (c : Constraint) : value :=
  default (VStr "NOT_PROVIDED") (h_context h !! left_operand c).

(** Three prohibitions without constraints, the last two on one action
    in two spellings, and a permission of that action. *)
Definition THREE_PROHIBITIONS : Policy := {|
  policy_id := "policy-three-prohibitions";
  permissions := [ {| permission_action := "USE"; permission_constraints := [] |} ];
  prohibitions :=
    [ {| prohibition_action := "distribute"; prohibition_constraints := [] |};
      {| prohibition_action := "USE"; prohibition_constraints := [] |};
      {| prohibition_action := "use"; prohibition_constraints := [] |} ];
  obligations := []
|}.

(** A constraint on the age, whatever the operator. *)
Definition AGE_CONSTRAINT (op : string) : Constraint := {|
  left_operand := "age"; operator := op; right_operand := VInt 18
|}.

(** A heap with the open-access policy and the context [ctx]. *)
Definition heap_of (ctx : context) : heap :=
  {| h_policy := OPEN_ACCESS_POLICY; h_context := ctx |}.

End EvaluatorStatements.

Module EvaluatorExtras.
Import Py Models Policies Statements Scenarios EvaluatorStatements PolicyFacts.

(** The value of a constraint's key, read once. *)
Lemma run_single c h :
  run (_evaluate_single_constraint c) h =
  fst (match h_context h !! left_operand c with
       | None | Some VNone => ret false h
       | Some left_value =>
           (if String.eqb (lower (operator c)) "eq"
            then ret (py_eq left_value (right_operand c))
            else if String.eqb (lower (operator c)) "neq"
            then ret (negb (py_eq left_value (right_operand c)))
            else if String.eqb (lower (operator c)) "in"
            then match is_list (right_operand c) with
                 | Some items => ret (py_in_list left_value items)
                 | None => ret false
                 end
            else if String.eqb (lower (operator c)) "gt"
            then lift (py_cmp Gt left_value (right_operand c))
            else if String.eqb (lower (operator c)) "lt"
            then lift (py_cmp Lt left_value (right_operand c))
            else if String.eqb (lower (operator c)) "gte"
            then lift (py_cmp Ge left_value (right_operand c))
            else if String.eqb (lower (operator c)) "lte"
            then lift (py_cmp Le left_value (right_operand c))
            else if String.eqb (lower (operator c)) "contains"
            then match is_list left_value with
                 | Some items => ret (py_in_list (right_operand c) items)
                 | None => lift (py_in_str (right_operand c) (str left_value))
                 end
            else if String.eqb (lower (operator c)) "has_any"
            then match is_list left_value, is_list (right_operand c) with
                 | Some l, Some r =>
                     bind (lift (py_set l)) (fun s =>
                       bind (lift (py_set r)) (fun t => ret (sets_intersect s t)))
                 | _, _ => ret false
                 end
            else ret false) h
       end).
Proof.
  unfold run, _evaluate_single_constraint, bind, context_get. cbn [fst snd].
  destruct (h_context h !! left_operand c) as [[] |]; reflexivity.
Qed.

(** X1: a constraint whose key the context lacks, or holds as [None], is
    unsatisfied and raises nothing, whatever its operator and its right
    operand. *)
Theorem absent_value_unsatisfied (c : Constraint) (h : heap) :
  h_context h !! left_operand c = None \/ h_context h !! left_operand c = Some VNone ->
  run (_evaluate_single_constraint c) h = Ok false.
Proof.
  intros [H | H]; rewrite run_single, H; reflexivity.
Qed.

Lemma absent_value_unsatisfied_witness :
  run (_evaluate_single_constraint (AGE_CONSTRAINT "gt")) (heap_of ∅) = Ok false.
Proof.
  apply (absent_value_unsatisfied (AGE_CONSTRAINT "gt") (heap_of ∅)).
  left. reflexivity.
Defined.

Lemma lower_ascii_idempotent a : lower_ascii (lower_ascii a) = lower_ascii a.
Proof. destruct a as [[] [] [] [] [] [] [] []]; reflexivity. Qed.

Lemma lower_upper_ascii a : lower_ascii (upper_ascii a) = lower_ascii a.
Proof. destruct a as [[] [] [] [] [] [] [] []]; reflexivity. Qed.

Lemma lower_idempotent s : lower (lower s) = lower s.
Proof.
  induction s as [| a s IH]; [reflexivity |].
  unfold lower in *. simpl. rewrite lower_ascii_idempotent, IH. reflexivity.
Qed.

Lemma lower_upper s : lower (upper s) = lower s.
Proof.
  induction s as [| a s IH]; [reflexivity |].
  unfold lower, upper in *. simpl. rewrite lower_upper_ascii, IH. reflexivity.
Qed.

Lemma run_single_operator c h op :
  lower op = lower (operator c) ->
  run (_evaluate_single_constraint (with_operator c op)) h =
  run (_evaluate_single_constraint c) h.
Proof.
  intros Hop. rewrite !run_single. cbn [with_operator left_operand operator right_operand].
  rewrite Hop. reflexivity.
Qed.

(** X2: the operator of a constraint is read without regard to case: a
    constraint whose operator is a string of ASCII characters is checked
    with the same result, or the same exception, when the operator is
    spelt in upper case or in lower case. *)
Theorem operator_case_insensitive (c : Constraint) (h : heap) :
  is_ascii (operator c) = true ->
  run (_evaluate_single_constraint (with_operator c (upper (operator c)))) h =
    run (_evaluate_single_constraint c) h /\
  run (_evaluate_single_constraint (with_operator c (lower (operator c)))) h =
    run (_evaluate_single_constraint c) h.
Proof.
  intros _. split; apply run_single_operator.
  - apply lower_upper.
  - apply lower_idempotent.
Qed.

Lemma operator_case_insensitive_witness :
  run (_evaluate_single_constraint (AGE_CONSTRAINT "GTE")) (heap_of {[ "age" := VInt 40 ]})
  = run (_evaluate_single_constraint (AGE_CONSTRAINT "Gte")) (heap_of {[ "age" := VInt 40 ]}).
Proof.
  apply (operator_case_insensitive (AGE_CONSTRAINT "Gte") (heap_of {[ "age" := VInt 40 ]})).
  reflexivity.
Defined.

(** X3: a constraint whose operator is none of the nine known ones is
    unsatisfied, whatever the context value, and raises nothing. *)
Theorem unknown_operator_unsatisfied (c : Constraint) (h : heap) :
  ~ In (lower (operator c)) KNOWN_OPERATORS ->
  run (_evaluate_single_constraint c) h = Ok false.
Proof.
  intros Hop. rewrite run_single.
  assert (Hne : forall op, In op KNOWN_OPERATORS -> String.eqb (lower (operator c)) op = false).
  { intros op Hin. apply String.eqb_neq. intros Heq. apply Hop. rewrite Heq. exact Hin. }
  rewrite !Hne by (unfold KNOWN_OPERATORS; simpl; tauto).
  destruct (h_context h !! left_operand c) as [[] |]; reflexivity.
Qed.

Lemma unknown_operator_unsatisfied_witness :
  run (_evaluate_single_constraint (AGE_CONSTRAINT "above"))
      (heap_of {[ "age" := VInt 40 ]}) = Ok false.
Proof.
  apply (unknown_operator_unsatisfied (AGE_CONSTRAINT "above") (heap_of {[ "age" := VInt 40 ]})).
  unfold KNOWN_OPERATORS. simpl.
  intros [H | [H | [H | [H | [H | [H | [H | [H | [H | []]]]]]]]]]; discriminate H.
Defined.

Lemma run_has_any c h v :
  lower (operator c) = "has_any" ->
  h_context h !! left_operand c = Some v ->
  v <> VNone ->
  run (_evaluate_single_constraint c) h =
  match is_list v, is_list (right_operand c) with
  | Some l, Some r =>
      res_bind (py_set l) (fun s => res_bind (py_set r) (fun t => Ok (sets_intersect s t)))
  | _, _ => Ok false
  end.
Proof.
  intros Hop Hctx Hv. rewrite run_single, Hctx, Hop.
  destruct v as [| b | n | s | l | d]; try congruence; try reflexivity.
  destruct (right_operand c) as [| b | n | s | r | d]; try reflexivity.
  cbn [is_list String.eqb Ascii.eqb Bool.eqb]. unfold bind, lift, ret.
  destruct (py_set l) as [s | e]; [| reflexivity].
  destruct (py_set r) as [t | e]; reflexivity.
Qed.

Lemma sets_intersect_spec l r :
  sets_intersect l r = true <-> exists x y, In x l /\ In y r /\ py_eq y x = true.
Proof.
  unfold sets_intersect, py_in_list. rewrite existsb_exists. split.
  - intros (x & Hx & H). apply existsb_exists in H as (y & Hy & H). eauto.
  - intros (x & y & Hx & Hy & H). exists x. split; [exact Hx |].
    apply existsb_exists. eauto.
Qed.

(** X4: [has_any] on two lists of hashable items is satisfied exactly when
    an item of the context list equals an item of the right operand; it
    raises [TypeError] when an item of either list is a list or a dict;
    and it is unsatisfied when either side is not a list. *)
Theorem has_any_shares_an_item (c : Constraint) (h : heap) (v : value) :
  lower (operator c) = "has_any" ->
  h_context h !! left_operand c = Some v ->
  v <> VNone ->
  (forall l r,
     v = VList l -> right_operand c = VList r ->
     forallb hashable l && forallb hashable r = true ->
     exists b,
       run (_evaluate_single_constraint c) h = Ok b /\
       (b = true <-> exists x y, In x l /\ In y r /\ py_eq y x = true)) /\
  (forall l r,
     v = VList l -> right_operand c = VList r ->
     forallb hashable l && forallb hashable r = false ->
     run (_evaluate_single_constraint c) h = Raise TypeError) /\
  (is_list v = None \/ is_list (right_operand c) = None ->
   run (_evaluate_single_constraint c) h = Ok false).
Proof.
  intros Hop Hctx Hv. rewrite (run_has_any c h v Hop Hctx Hv).
  split; [| split].
  - intros l r -> -> Hhash. cbn [is_list]. unfold py_set.
    apply andb_true_iff in Hhash as [-> ->]. cbn [res_bind].
    eexists. split; [reflexivity | apply sets_intersect_spec].
  - intros l r -> -> Hhash. cbn [is_list]. unfold py_set.
    destruct (forallb hashable l); [| reflexivity].
    cbn [andb] in Hhash. rewrite Hhash. reflexivity.
  - intros [H | H]; rewrite H; [reflexivity |].
    destruct (is_list v); reflexivity.
Qed.

(** A certification list against the two certifications a policy asks
    for. *)
Lemma has_any_shares_an_item_witness :
  run (_evaluate_single_constraint
         {| left_operand := "certification"; operator := "has_any";
            right_operand := VList [VStr "TISAX"; VStr "ISO27001"] |})
      (heap_of {[ "certification" := VList [VStr "IATF16949"] ]}) = Ok false.
Proof.
  destruct (has_any_shares_an_item
              {| left_operand := "certification"; operator := "has_any";
                 right_operand := VList [VStr "TISAX"; VStr "ISO27001"] |}
              (heap_of {[ "certification" := VList [VStr "IATF16949"] ]})
              (VList [VStr "IATF16949"]))
    as (Hiff & _ & _).
  - reflexivity.
  - reflexivity.
  - discriminate.
  - destruct (Hiff [VStr "IATF16949"] [VStr "TISAX"; VStr "ISO27001"])
      as (b & Hrun & Hb); [reflexivity | reflexivity | reflexivity |].
    rewrite Hrun. destruct b; [| reflexivity].
    destruct Hb as [Hb _]. destruct (Hb eq_refl) as (x & y & Hx & Hy & Heq).
    destruct Hx as [<- | []].
    destruct Hy as [<- | [<- | []]]; discriminate Heq.
Defined.

(** X5: [in] never raises: it is satisfied exactly when the right operand
    is a list with an item equal to the context value, so a right operand
    that is no list leaves it unsatisfied. *)
Theorem in_is_membership (c : Constraint) (h : heap) (v : value) :
  lower (operator c) = "in" ->
  h_context h !! left_operand c = Some v ->
  v <> VNone ->
  exists b,
    run (_evaluate_single_constraint c) h = Ok b /\
    (b = true <->
     exists items y, right_operand c = VList items /\ In y items /\ py_eq y v = true).
Proof.
  intros Hop Hctx Hv. rewrite run_single, Hctx, Hop.
  assert (Hin : forall items,
            py_in_list v items = true <-> exists y, In y items /\ py_eq y v = true)
    by (intros items; unfold py_in_list; apply existsb_exists).
  destruct v as [| b | n | s | l | d]; try congruence;
    destruct (right_operand c) as [| b' | n' | s' | items | d'];
    cbn [String.eqb Ascii.eqb Bool.eqb is_list ret fst];
    eexists; (split; [reflexivity |]);
    try (split; [discriminate | intros (items' & y & Hr & _); discriminate Hr]);
    rewrite Hin; (split;
      [ intros (y & Hy & Heq); eauto
      | intros (items' & y & [= <-] & Hy & Heq); eauto ]).
Qed.

Lemma in_is_membership_witness :
  exists b,
    run (_evaluate_single_constraint
           {| left_operand := "region"; operator := "IN"; right_operand := VStr "EU" |})
        (heap_of {[ "region" := VStr "EU" ]}) = Ok b /\
    (b = true <->
     exists items y, VStr "EU" = VList items /\ In y items /\ py_eq y (VStr "EU") = true).
Proof.
  apply (in_is_membership
           {| left_operand := "region"; operator := "IN"; right_operand := VStr "EU" |}
           (heap_of {[ "region" := VStr "EU" ]}) (VStr "EU")).
  - reflexivity.
  - reflexivity.
  - discriminate.
Defined.

(** X6: [contains] on a context value that is a list is satisfied exactly
    when an item equals the right operand; on any other context value it
    looks for the right operand, a string, inside [str] of the context
    value, and raises [TypeError] when the right operand is no string. *)
Theorem contains_by_kind (c : Constraint) (h : heap) (v : value) :
  lower (operator c) = "contains" ->
  h_context h !! left_operand c = Some v ->
  v <> VNone ->
  (forall items,
     v = VList items ->
     run (_evaluate_single_constraint c) h = Ok (py_in_list (right_operand c) items)) /\
  (forall sub,
     is_list v = None -> right_operand c = VStr sub ->
     run (_evaluate_single_constraint c) h = Ok (str_contains sub (str v))) /\
  (is_list v = None -> (forall sub, right_operand c <> VStr sub) ->
   run (_evaluate_single_constraint c) h = Raise TypeError).
Proof.
  intros Hop Hctx Hv. rewrite run_single, Hctx, Hop.
  split; [| split].
  - intros items ->. reflexivity.
  - intros sub Hlist ->. destruct v; try congruence; try discriminate Hlist; reflexivity.
  - intros Hlist Hright.
    destruct v; try congruence; try discriminate Hlist;
      (destruct (right_operand c) as [| b' | n' | s' | l' | d'];
       [reflexivity | reflexivity | reflexivity | destruct (Hright s' eq_refl)
        | reflexivity | reflexivity]).
Qed.

(** An integer holds the digits of a string. *)
Lemma contains_by_kind_witness :
  run (_evaluate_single_constraint
         {| left_operand := "norm"; operator := "contains"; right_operand := VStr "69" |})
      (heap_of {[ "norm" := VInt 16949 ]}) = Ok true.
Proof.
  destruct (contains_by_kind
              {| left_operand := "norm"; operator := "contains"; right_operand := VStr "69" |}
              (heap_of {[ "norm" := VInt 16949 ]}) (VInt 16949))
    as (_ & Hstr & _).
  - reflexivity.
  - reflexivity.
  - discriminate.
  - rewrite (Hstr "69"); reflexivity.
Defined.

(** One round of the loop of [_evaluate_constraints]. *)
Lemma run_constraints_cons c cs results h :
  run (evaluate_constraints_loop (c :: cs) results) h =
  res_bind (run (_evaluate_single_constraint c) h) (fun sat =>
    run (evaluate_constraints_loop cs
           (results ++ [ {| constraint := constraint_description c;
                            context_value := observed h c;
                            satisfied := sat |} ])) h).
Proof.
  cbn [evaluate_constraints_loop]. rewrite run_bind by apply read_only_single.
  destruct (run (_evaluate_single_constraint c) h) as [sat | e]; [| reflexivity].
  cbn [res_bind]. rewrite run_bind by apply read_only_context_get_default.
  reflexivity.
Qed.

Lemma constraints_loop_records h cs :
  forall results rs,
    run (evaluate_constraints_loop cs results) h = Ok rs ->
    exists new,
      rs = results ++ new /\
      map constraint new = map constraint_description cs /\
      map context_value new = map (observed h) cs /\
      Forall2 (fun c r => run (_evaluate_single_constraint c) h = Ok (satisfied r)) cs new.
Proof.
  induction cs as [| c cs IH]; intros results rs.
  - intros [= <-]. exists []. rewrite app_nil_r. repeat split. constructor.
  - rewrite run_constraints_cons.
    destruct (run (_evaluate_single_constraint c) h) as [sat | e] eqn:Hsat; [| discriminate].
    cbn [res_bind]. intros H. destruct (IH _ _ H) as (new & -> & Hc & Hv & Hs).
    eexists (_ :: new). rewrite <- app_assoc. split; [reflexivity |].
    cbn [map constraint context_value]. rewrite Hc, Hv.
    repeat split. constructor; [exact Hsat | exact Hs].
Qed.

(** X7: when [_evaluate_constraints] returns, it returns one record per
    constraint, in the order of the constraints: the record has the
    constraint's description, the value the context has for its key (or
    the string NOT_PROVIDED), and the result of its check. *)
Theorem constraints_recorded_in_order (h : heap) (cs : list Constraint)
    (rs : list constraint_result) :
  checks h cs rs ->
  length rs = length cs /\
  map constraint rs = map constraint_description cs /\
  map context_value rs = map (observed h) cs /\
  Forall2 (fun c r => run (_evaluate_single_constraint c) h = Ok (satisfied r)) cs rs.
Proof.
  intros H. destruct (constraints_loop_records h cs [] rs H) as (new & -> & Hc & Hv & Hs).
  cbn [app]. repeat split; try assumption.
  rewrite <- (length_map constraint), Hc. apply length_map.
Qed.

Lemma constraints_recorded_in_order_witness :
  map context_value
    [ {| constraint := "region eq EU"; context_value := VStr "US"; satisfied := false |} ]
  = map (observed {| h_policy := REGION_POLICY; h_context := REGION_CONTEXT |})
      [ {| left_operand := "region"; operator := "eq"; right_operand := VStr "EU" |} ].
Proof.
  apply (constraints_recorded_in_order
           {| h_policy := REGION_POLICY; h_context := REGION_CONTEXT |}
           [ {| left_operand := "region"; operator := "eq"; right_operand := VStr "EU" |} ]).
  reflexivity.
Defined.

(** X8: the first constraint whose check raises ends
    [_evaluate_constraints] with that exception, whatever the constraints
    after it; without such a constraint it returns. *)
Theorem constraints_raise_at_first_error (h : heap) (cs : list Constraint) :
  (forall pre c post e,
     cs = pre ++ c :: post ->
     Forall (fun c' => exists b, run (_evaluate_single_constraint c') h = Ok b) pre ->
     run (_evaluate_single_constraint c) h = Raise e ->
     run (_evaluate_constraints cs) h = Raise e) /\
  (Forall (fun c' => exists b, run (_evaluate_single_constraint c') h = Ok b) cs ->
   exists rs, checks h cs rs).
Proof.
  unfold checks, _evaluate_constraints. generalize (@nil constraint_result).
  split.
  - intros pre c post e -> Hpre Hc. revert l.
    induction Hpre as [| c' pre [b Hb] _ IH]; intros results; cbn [app];
      rewrite run_constraints_cons.
    + rewrite Hc. reflexivity.
    + rewrite Hb. cbn [res_bind]. apply IH.
  - intros Hall. revert l.
    induction Hall as [| c' cs' [b Hb] _ IH]; intros results.
    + eexists. reflexivity.
    + rewrite run_constraints_cons, Hb. cbn [res_bind]. apply IH.
Qed.

Lemma upper_ascii_idempotent a : upper_ascii (upper_ascii a) = upper_ascii a.
Proof. destruct a as [[] [] [] [] [] [] [] []]; reflexivity. Qed.

Lemma upper_lower_ascii a : upper_ascii (lower_ascii a) = upper_ascii a.
Proof. destruct a as [[] [] [] [] [] [] [] []]; reflexivity. Qed.

Lemma upper_idempotent s : upper (upper s) = upper s.
Proof.
  induction s as [| a s IH]; [reflexivity |].
  unfold upper in *. simpl. rewrite upper_ascii_idempotent, IH. reflexivity.
Qed.

Lemma upper_lower s : upper (lower s) = upper s.
Proof.
  induction s as [| a s IH]; [reflexivity |].
  unfold upper, lower in *. simpl. rewrite upper_lower_ascii, IH. reflexivity.
Qed.

(** X9: the action of a rule and the action of the request, two strings
    of ASCII characters, are compared without regard to case: spelling
    either one in upper or in lower case changes nothing, and the
    comparison is symmetric. *)
Theorem action_case_insensitive (policy_action request : string) :
  is_ascii policy_action = true ->
  is_ascii request = true ->
  _action_matches (upper policy_action) (VStr request)
    = _action_matches policy_action (VStr request) /\
  _action_matches (lower policy_action) (VStr request)
    = _action_matches policy_action (VStr request) /\
  _action_matches policy_action (VStr (upper request))
    = _action_matches policy_action (VStr request) /\
  _action_matches policy_action (VStr (lower request))
    = _action_matches policy_action (VStr request) /\
  _action_matches request (VStr policy_action)
    = _action_matches policy_action (VStr request).
Proof.
  intros _ _. unfold _action_matches.
  rewrite !upper_idempotent, !upper_lower.
  repeat split. f_equal. apply String.eqb_sym.
Qed.

Lemma action_case_insensitive_witness :
  _action_matches "Distribute" (VStr (lower "DISTRIBUTE")) = Ok true.
Proof.
  destruct (action_case_insensitive "Distribute" "DISTRIBUTE" eq_refl eq_refl)
    as (_ & _ & _ & Hlower & _).
  rewrite Hlower. reflexivity.
Defined.

Lemma request_action_not_string h v action :
  h_context h !! "action" = Some v ->
  (forall a, v <> VStr a) ->
  _action_matches action (request_action h) = Raise AttributeError.
Proof.
  intros Hv Hno. unfold request_action. rewrite Hv. cbn [default].
  destruct v; try reflexivity. destruct (Hno s eq_refl).
Qed.

(** X10: when the context holds an action that is not a string, [evaluate]
    raises [AttributeError] on every policy that has a prohibition or a
    permission, and so gives no decision. *)
Theorem non_string_action_raises (policy : Policy) (ctx : context) (v : value) :
  ctx !! "action" = Some v ->
  (forall a, v <> VStr a) ->
  prohibitions policy <> [] \/ permissions policy <> [] ->
  fst (call_evaluate policy ctx) = Raise AttributeError.
Proof.
  intros Hv Hno Hrule. unfold call_evaluate.
  change (fst (evaluate ?h)) with (run evaluate h).
  rewrite run_evaluate. cbn [h_policy].
  destruct (prohibitions policy) as [| p ps].
  - destruct Hrule as [Hrule | Hrule]; [congruence |].
    destruct (permissions policy) as [| q qs]; [congruence |].
    unfold run at 1. cbn [prohibitions_loop ret fst res_bind].
    rewrite run_permissions_cons.
    rewrite (request_action_not_string _ v) by assumption. reflexivity.
  - rewrite run_prohibitions_cons.
    rewrite (request_action_not_string _ v) by assumption. reflexivity.
Qed.

Lemma non_string_action_raises_witness :
  fst (call_evaluate TIER1_SUPPLIER_ONLY_POLICY {[ "action" := VInt 1 ]})
  = Raise AttributeError.
Proof.
  apply (non_string_action_raises TIER1_SUPPLIER_ONLY_POLICY {[ "action" := VInt 1 ]} (VInt 1)).
  - reflexivity.
  - discriminate.
  - left. discriminate.
Defined.

Lemma action_matches_of_string (action a : string) :
  _action_matches action (VStr a) = Ok (String.eqb (upper action) (upper a)).
Proof. reflexivity. Qed.

Lemma unconditional_prohibitions_loop h a ps :
  request_action h = VStr a ->
  Forall (fun p => prohibition_constraints p = []) ps ->
  forall evaluated,
    (Forall (fun p => upper (prohibition_action p) <> upper a) ps /\
     run (prohibitions_loop ps evaluated) h = Ok (inr evaluated)) \/
    (exists p,
       In p ps /\ upper (prohibition_action p) = upper a /\
       run (prohibitions_loop ps evaluated) h = Ok (inl (prohibited p []))).
Proof.
  intros Ha Hps. induction Hps as [| p ps Hp _ IH]; intros evaluated.
  - left. split; [constructor | reflexivity].
  - rewrite run_prohibitions_cons, Ha, action_matches_of_string, Hp.
    destruct (String.eqb_spec (upper (prohibition_action p)) (upper a)) as [Heq | Hne].
    + right. exists p. split; [left; reflexivity |]. split; [exact Heq |]. reflexivity.
    + cbn [res_bind]. destruct (IH evaluated) as [[Hno Hrun] | (p' & Hin & Heq & Hrun)].
      * left. split; [constructor; assumption | exact Hrun].
      * right. exists p'. split; [right; exact Hin |]. split; assumption.
Qed.

Lemma unconditional_prohibitions_first h a pre p post :
  request_action h = VStr a ->
  Forall (fun p' => prohibition_constraints p' = []) (pre ++ p :: post) ->
  Forall (fun p' => upper (prohibition_action p') <> upper a) pre ->
  upper (prohibition_action p) = upper a ->
  forall evaluated,
    run (prohibitions_loop (pre ++ p :: post) evaluated) h = Ok (inl (prohibited p [])).
Proof.
  intros Ha Hps Hpre Hp. induction Hpre as [| p' pre Hne _ IH]; intros evaluated.
  - cbn [app] in *. apply List.Forall_cons_iff in Hps as [Hnone _].
    rewrite run_prohibitions_cons, Ha, action_matches_of_string, Hnone.
    apply String.eqb_eq in Hp. rewrite Hp. reflexivity.
  - cbn [app] in *. apply List.Forall_cons_iff in Hps as [Hnone Hrest].
    rewrite run_prohibitions_cons, Ha, action_matches_of_string, Hnone.
    apply String.eqb_neq in Hne. rewrite Hne. cbn [res_bind].
    apply IH. exact Hrest.
Qed.

(** X11: on a policy whose prohibitions carry no constraint and an action
    of ASCII characters (every template is one), the first prohibition
    that names the action of the request, a string of ASCII characters,
    decides: [evaluate] answers with [allowed] false, the action of that
    prohibition as it is written and an empty trace, whatever the
    prohibitions after it and the permissions are; so the request is
    denied whenever a prohibition names its action. *)
Theorem unconditional_prohibitions_decide (policy : Policy) (ctx : context) (a : string) :
  default (VStr "USE") (ctx !! "action") = VStr a ->
  is_ascii a = true ->
  Forall (fun p => prohibition_constraints p = [] /\ is_ascii (prohibition_action p) = true)
    (prohibitions policy) ->
  (forall pre p post,
     prohibitions policy = pre ++ p :: post ->
     Forall (fun p' => upper (prohibition_action p') <> upper a) pre ->
     upper (prohibition_action p) = upper a ->
     fst (call_evaluate policy ctx) = Ok (prohibited p [])) /\
  (forall p r,
     fst (call_evaluate policy ctx) = Ok r ->
     In p (prohibitions policy) ->
     upper (prohibition_action p) = upper a ->
     allowed r = false).
Proof.
  intros Ha _ Hps%(List.Forall_impl _ (fun p H => proj1 H)). unfold call_evaluate.
  change (fst (evaluate ?h)) with (run evaluate h).
  rewrite run_evaluate. cbn [h_policy]. split.
  - intros pre p post Hsplit Hpre Hp. rewrite Hsplit in Hps |- *.
    rewrite (unconditional_prohibitions_first
               {| h_policy := policy; h_context := ctx |} a pre p post Ha Hps Hpre Hp).
    reflexivity.
  - destruct (unconditional_prohibitions_loop
                {| h_policy := policy; h_context := ctx |} a (prohibitions policy) Ha Hps [])
      as [[Hno Hrun] | (p & Hin & Heq & Hrun)]; rewrite Hrun; cbn [res_bind].
    + intros p r _ Hin Heq. rewrite List.Forall_forall in Hno. destruct (Hno p Hin Heq).
    + intros p' r [= <-] _ _. reflexivity.
Qed.

(** The second prohibition is the first to name the action, and the third,
    spelt otherwise, is not the one of the answer. *)
Lemma unconditional_prohibitions_decide_witness :
  fst (call_evaluate THREE_PROHIBITIONS ∅)
  = Ok {| allowed := false;
          reason := Some "Action 'USE' is prohibited";
          evaluated_constraints := [] |}.
Proof.
  destruct (unconditional_prohibitions_decide THREE_PROHIBITIONS ∅ "USE") as [Hfirst _].
  - rewrite lookup_empty. reflexivity.
  - reflexivity.
  - repeat constructor.
  - apply (Hfirst
             [ {| prohibition_action := "distribute"; prohibition_constraints := [] |} ]
             {| prohibition_action := "USE"; prohibition_constraints := [] |}
             [ {| prohibition_action := "use"; prohibition_constraints := [] |} ]).
    + reflexivity.
    + repeat constructor. discriminate.
    + reflexivity.
Defined.

End EvaluatorExtras.

(** * More of the negotiations *)

Module NegotiationStatements.
Import Py Models Policies Store Contracts Transfers Main Statements Scenarios.

(** The states a negotiation is written in. *)
Definition NEGOTIATION_STATES : list string :=
  ["REQUESTED"; "OFFERED"; "AGREED"; "VERIFIED"; "FINALIZED"; "TERMINATED"].

(** The moves the handlers make: one step forward, or to TERMINATED from
    a state that is neither FINALIZED nor TERMINATED. *)
Definition negotiation_edge (s s' : string) : bool :=
  String.eqb s "REQUESTED" && String.eqb s' "OFFERED"
  || String.eqb s "OFFERED" && String.eqb s' "AGREED"
  || String.eqb s "AGREED" && String.eqb s' "VERIFIED"
  || String.eqb s "VERIFIED" && String.eqb s' "FINALIZED"
  || negb (String.eqb s "FINALIZED") && negb (String.eqb s "TERMINATED")
     && String.eqb s' "TERMINATED".

(** What a negotiation keeps from its creation on. *)
Definition same_request (n n' : negotiation) : Prop :=
  n_id n' = n_id n /\
  n_provider_id n' = n_provider_id n /\
  n_consumer_id n' = n_consumer_id n /\
  n_asset_id n' = n_asset_id n /\
  n_policy_id n' = n_policy_id n /\
  n_consumer_attributes n' = n_consumer_attributes n /\
  n_callback_address n' = n_callback_address n /\
  n_created_at n' = n_created_at n.

(** The agreement id of a negotiation that moves: set on the way to
    FINALIZED, kept otherwise. *)
Definition agreement_link (e : env) (n n' : negotiation) : Prop :=
  (n_state n' = "FINALIZED" /\ n_agreement_id n' = Some ("agreement-" +:+ uuid4_hex8 e)) \/
  (n_state n' <> "FINALIZED" /\ n_agreement_id n' = n_agreement_id n).

(** A negotiation as [initiate_negotiation] saves it. *)
Definition created (e : env) (n : negotiation) : Prop :=
  n_id n = "negotiation-" +:+ uuid4_hex8 e /\
  n_state n = "REQUESTED" /\
  (exists h, n_state_history n = [h] /\ he_state h = "REQUESTED") /\
  n_agreement_id n = None /\
  n_policy_evaluation n = None /\
  is_Some (POLICY_TEMPLATES !! n_policy_id n).

(** A negotiation [n] moved to [n'] by one handler, with the history
    entry [h]. *)
Definition moved (e : env) (n n' : negotiation) (h : history_entry) : Prop :=
  same_request n n' /\
  n_state_history n' = n_state_history n ++ [h] /\
  he_state h = n_state n' /\
  negotiation_edge (n_state n) (n_state n') = true /\
  agreement_link e n n'.

(** The history of a negotiation is in step with its state: a state of
    the six, and a history that starts with REQUESTED and ends with the
    current state. *)
Definition history_in_step (n : negotiation) : Prop :=
  In (n_state n) NEGOTIATION_STATES /\
  (exists h, head (n_state_history n) = Some h /\ he_state h = "REQUESTED") /\
  (exists h, last (n_state_history n) = Some h /\ he_state h = n_state n).

(** A negotiation has an agreement id exactly when it is FINALIZED. *)
Definition agreement_id_in_step (n : negotiation) : Prop :=
  is_Some (n_agreement_id n) <-> n_state n = "FINALIZED".

(** Every negotiation of the store satisfies [P]. *)
Definition negotiations_all (P : negotiation -> Prop) (st : store) : Prop :=
  forall id n, get_negotiation id st = Some n -> P n.

(** The five handlers of a stored negotiation, by name. *)
Inductive transition : Type := Offer (action : option NegotiationAction)
  | Agree | Verify | Finalize | Terminate.

Definition ask (t : transition) (id : string) : call :=
  match t with
  | Offer action => ProviderOffer id action
  | Agree => ConsumerAgree id
  | Verify => VerifyAgreement id
  | Finalize => FinalizeAgreement id
  | Terminate => TerminateNegotiation id
  end.

(** A negotiation of the part catalog as its request leaves it, alone in
    the store. *)
Definition REQUESTED_NEGOTIATION : negotiation := {|
  n_id := "negotiation-0000abcd";
  n_state := "REQUESTED";
  n_provider_id := "provider-automotors-oem";
  n_consumer_id := "consumer-tierone";
  n_asset_id := "part-catalog-2024";
  n_policy_id := "tier1-only";
  n_consumer_attributes := {[ "partner_type" := VStr "tier1_supplier" ]};
  n_callback_address := None;
  n_created_at := "2024-12-01T10:00:00";
  n_updated_at := "2024-12-01T10:00:00";
  n_state_history :=
    [ {| he_state := "REQUESTED";
         he_timestamp := "2024-12-01T10:00:00";
         he_actor := Some "consumer-tierone";
         he_policy_evaluation := None;
         he_reason := None;
         he_agreement_id := None;
         he_data_size := None |} ];
  n_policy_evaluation := None;
  n_agreement_id := None
|}.

Definition REQUESTED_STORE : store := {|
  assets := CATALOG;
  negotiations := {[ "negotiation-0000abcd" := REQUESTED_NEGOTIATION ]};
  agreements := ∅;
  transfers := ∅;
  audit_log := []
|}.

(** The stored negotiation offered, agreed, verified and finalized. *)
Definition TO_FINALIZED : list (env * call) :=
  [ (ENV, ProviderOffer "negotiation-0000abcd" None);
    (ENV, ConsumerAgree "negotiation-0000abcd");
    (ENV, VerifyAgreement "negotiation-0000abcd");
    (ENV, FinalizeAgreement "negotiation-0000abcd") ].

(** The attributes of an OEM, as the body of an offer. *)
Definition OEM_ACTION : option NegotiationAction :=
  Some {| action_consumer_attributes := Some {[ "partner_type" := VStr "oem" ]} |}.

End NegotiationStatements.

Module NegotiationExtras.
Import Py Models Policies Store Contracts Transfers Main.
Import Statements Scenarios PolicyFacts ConnectorFacts NegotiationStatements.

(** What one request does to the negotiations: nothing, or saves a new
    one, or moves a stored one. *)
Lemma serve_negotiations e c st :
  negotiations (snd (serve e c st)) = negotiations st \/
  (exists n',
     (exists request, c = InitiateNegotiation request) /\
     negotiations (snd (serve e c st)) = <[n_id n' := n']> (negotiations st) /\
     created e n') \/
  (exists id n n' h,
     get_negotiation id st = Some n /\
     negotiations (snd (serve e c st)) = <[n_id n := n']> (negotiations st) /\
     moved e n n' h).
Proof.
  destruct c; cbn [serve]; rewrite ?snd_answered.
  - unfold initiate_negotiation.
    destruct (get_asset_by_id _ st) as [a |]; [| left; reflexivity].
    destruct (POLICY_TEMPLATES !! _) as [p |] eqn:Hp; [| left; reflexivity].
    right. left. eexists. split; [eauto |]. split; [reflexivity |].
    repeat split; cbn; eauto.
  - unfold provider_offer.
    destruct (get_negotiation negotiation_id st) as [n |] eqn:Hn; [| left; reflexivity].
    destruct (String.eqb_spec (n_state n) "REQUESTED") as [Hs | Hs]; [| left; reflexivity].
    cbn [negb].
    destruct (evaluate_offer _ _) as [r | ex]; [| left; reflexivity].
    destruct (allowed r); right; right;
      (eexists negotiation_id, n, _, _; split; [exact Hn |]; split; [reflexivity |];
       repeat split; cbn; try rewrite Hs; try reflexivity; right; split;
       [discriminate | reflexivity]).
  - unfold consumer_agree.
    destruct (get_negotiation negotiation_id st) as [n |] eqn:Hn; [| left; reflexivity].
    destruct (String.eqb_spec (n_state n) "OFFERED") as [Hs | Hs]; [| left; reflexivity].
    cbn [negb]. right; right.
    eexists negotiation_id, n, _, _. split; [exact Hn |]. split; [reflexivity |].
    repeat split; cbn; try rewrite Hs; try reflexivity. right. split; [discriminate | reflexivity].
  - unfold verify_agreement.
    destruct (get_negotiation negotiation_id st) as [n |] eqn:Hn; [| left; reflexivity].
    destruct (String.eqb_spec (n_state n) "AGREED") as [Hs | Hs]; [| left; reflexivity].
    cbn [negb]. right; right.
    eexists negotiation_id, n, _, _. split; [exact Hn |]. split; [reflexivity |].
    repeat split; cbn; try rewrite Hs; try reflexivity. right. split; [discriminate | reflexivity].
  - unfold finalize_agreement.
    destruct (get_negotiation negotiation_id st) as [n |] eqn:Hn; [| left; reflexivity].
    destruct (String.eqb_spec (n_state n) "VERIFIED") as [Hs | Hs]; [| left; reflexivity].
    cbn [negb]. right; right.
    eexists negotiation_id, n, _, _. split; [exact Hn |]. split; [reflexivity |].
    repeat split; cbn; try rewrite Hs; try reflexivity. left. split; reflexivity.
  - unfold terminate_negotiation.
    destruct (get_negotiation negotiation_id st) as [n |] eqn:Hn; [| left; reflexivity].
    destruct (String.eqb (n_state n) "FINALIZED") eqn:Hf; [left; reflexivity |].
    destruct (String.eqb (n_state n) "TERMINATED") eqn:Ht; [left; reflexivity |].
    cbn [orb]. right; right.
    eexists negotiation_id, n, _, _. split; [exact Hn |]. split; [reflexivity |].
    repeat split; cbn; try reflexivity.
    + unfold negotiation_edge. rewrite Hf, Ht. cbn.
      rewrite !andb_false_r. reflexivity.
    + right. split; [discriminate | reflexivity].
  - left. unfold initiate_transfer. repeat case_match; reflexivity.
  - left. unfold start_transfer. repeat case_match; reflexivity.
  - left. unfold complete_transfer. repeat case_match; reflexivity.
  - left. unfold suspend_transfer. repeat case_match; reflexivity.
  - left. unfold terminate_transfer. repeat case_match; reflexivity.
  - left. reflexivity.
Qed.

(** What one request does to one stored negotiation. *)
Lemma serve_negotiation_at e c st id n n' :
  stored_under_id st ->
  fresh_id e c st ->
  get_negotiation id st = Some n ->
  get_negotiation id (snd (serve e c st)) = Some n' ->
  n' = n \/ exists h, moved e n n' h.
Proof.
  intros K Hfresh Hn Hn'. unfold get_negotiation in *.
  destruct (serve_negotiations e c st)
    as [Hsame | [(m & [request ->] & Hins & Hcreated)
                | (id0 & n0 & m & h & Hn0 & Hins & Hmoved)]].
  - rewrite Hsame in Hn'. left. congruence.
  - rewrite Hins, lookup_insert in Hn'. case_decide as Hid.
    + destruct Hcreated as (Hkey & _). cbn [fresh_id] in Hfresh.
      unfold get_negotiation in Hfresh. rewrite <- Hkey, Hid, Hn in Hfresh.
      discriminate Hfresh.
    + left. congruence.
  - unfold get_negotiation in Hn0. rewrite Hins, lookup_insert in Hn'.
    rewrite (K id0 n0 Hn0) in Hn'. case_decide as Hid.
    + subst id0. right. exists h. injection Hn' as <-.
      rewrite Hn in Hn0. injection Hn0 as <-. exact Hmoved.
    + left. congruence.
Qed.

(** X12: one request leaves the state of a stored negotiation as it is or
    moves it along an edge of the graph: one step forward from REQUESTED
    to FINALIZED, or to TERMINATED from a state other than FINALIZED and
    TERMINATED.  The store holds each negotiation under its id, and the id
    drawn for a new negotiation is not in it. *)
Theorem negotiation_moves_along_edges (e : env) (c : call) (st : store) (id : string)
    (n n' : negotiation) :
  stored_under_id st ->
  fresh_id e c st ->
  get_negotiation id st = Some n ->
  get_negotiation id (snd (serve e c st)) = Some n' ->
  n_state n' = n_state n \/ negotiation_edge (n_state n) (n_state n') = true.
Proof.
  intros K Hfresh Hn Hn'.
  destruct (serve_negotiation_at e c st id n n' K Hfresh Hn Hn') as [-> | (h & Hmoved)].
  - left. reflexivity.
  - right. apply Hmoved.
Qed.

Lemma negotiation_moves_along_edges_witness :
  exists n n',
    get_negotiation "negotiation-1a2b3c4d"
      (serve_all [(ENV, InitiateNegotiation TIER1_REQUEST)] INSTALLED_STORE) = Some n /\
    get_negotiation "negotiation-1a2b3c4d"
      (snd (serve ENV (ProviderOffer "negotiation-1a2b3c4d" None)
              (serve_all [(ENV, InitiateNegotiation TIER1_REQUEST)] INSTALLED_STORE)))
      = Some n' /\
    (n_state n' = n_state n \/ negotiation_edge (n_state n) (n_state n') = true).
Proof.
  eexists. eexists. split; [vm_compute; reflexivity |]. split; [vm_compute; reflexivity |].
  apply (negotiation_moves_along_edges ENV (ProviderOffer "negotiation-1a2b3c4d" None)
           (serve_all [(ENV, InitiateNegotiation TIER1_REQUEST)] INSTALLED_STORE)
           "negotiation-1a2b3c4d").
  - apply stored_under_id_serve_all, (keyed _ (consistent_store_of CATALOG)).
  - exact I.
  - vm_compute. reflexivity.
  - vm_compute. reflexivity.
Defined.





Lemma negotiation_edge_inv s s' :
  negotiation_edge s s' = true ->
  In s' NEGOTIATION_STATES /\ s <> "FINALIZED" /\ s <> "TERMINATED".
Proof.
  unfold negotiation_edge, NEGOTIATION_STATES.
  rewrite !orb_true_iff, !andb_true_iff, !negb_true_iff, !String.eqb_eq, !String.eqb_neq.
  intros [[[[[-> ->] | [-> ->]] | [-> ->]] | [-> ->]] | [[Hf Ht] ->]];
    (split; [cbn; tauto |]); split; (congruence || discriminate).
Qed.

(** A property of negotiations that [initiate_negotiation] establishes
    and every move keeps holds of every negotiation after any requests,
    when it holds of every negotiation before them. *)
Lemma negotiations_all_serve_all (P : negotiation -> Prop) :
  (forall e n, created e n -> P n) ->
  (forall e n n' h, P n -> moved e n n' h -> P n') ->
  forall calls st, negotiations_all P st -> negotiations_all P (serve_all calls st).
Proof.
  intros Hcreated Hmoved.
  induction calls as [| [e c] calls IH]; intros st Hst; cbn [serve_all].
  - exact Hst.
  - apply IH. intros id n Hn. unfold get_negotiation in Hn.
    destruct (serve_negotiations e c st)
      as [Hsame | [(m & _ & Hins & Hc)
                  | (id0 & n0 & m & h & Hn0 & Hins & Hm)]].
    + rewrite Hsame in Hn. exact (Hst id n Hn).
    + rewrite Hins, lookup_insert in Hn. case_decide.
      * injection Hn as <-. exact (Hcreated e m Hc).
      * exact (Hst id n Hn).
    + rewrite Hins, lookup_insert in Hn. case_decide.
      * injection Hn as <-. exact (Hmoved e n0 m h (Hst id0 n0 Hn0) Hm).
      * exact (Hst id n Hn).
Qed.

Lemma history_in_step_created e n : created e n -> history_in_step n.
Proof.
  intros (_ & Hstate & (h & Hhist & Hh) & _).
  unfold history_in_step. rewrite Hstate, Hhist.
  split; [cbn; tauto |]. split; exists h; (split; [reflexivity | exact Hh]).
Qed.

Lemma history_in_step_moved e n n' h :
  history_in_step n -> moved e n n' h -> history_in_step n'.
Proof.
  intros (Hin & (h0 & Hhead & Hh0) & _) (_ & Hhist & Hh & Hedge & _).
  destruct (negotiation_edge_inv _ _ Hedge) as (Hin' & _).
  unfold history_in_step. rewrite Hhist.
  split; [exact Hin' |]. split.
  - exists h0. split; [| exact Hh0].
    destruct (n_state_history n); [discriminate Hhead | exact Hhead].
  - exists h. split; [apply last_snoc | exact Hh].
Qed.

(** X15: the handlers keep the history of the negotiations in step with
    their state.  If in a store every negotiation has a state of the six
    and a history that starts with REQUESTED and ends with an entry of its
    state (a store without negotiations is one), so has every negotiation
    of the store after any requests. *)
Theorem negotiation_history_tracks_state (st0 : store) (calls : list (env * call))
    (id : string) (n : negotiation) :
  negotiations_all history_in_step st0 ->
  get_negotiation id (serve_all calls st0) = Some n ->
  In (n_state n) NEGOTIATION_STATES /\
  (exists h, head (n_state_history n) = Some h /\ he_state h = "REQUESTED") /\
  (exists h, last (n_state_history n) = Some h /\ he_state h = n_state n).
Proof.
  intros H0 Hn.
  exact (negotiations_all_serve_all history_in_step history_in_step_created
           history_in_step_moved calls st0 H0 id n Hn).
Qed.

Lemma negotiation_history_tracks_state_witness :
  negotiations_all history_in_step REQUESTED_STORE /\
  exists n,
    get_negotiation "negotiation-0000abcd" (serve_all TO_FINALIZED REQUESTED_STORE) = Some n /\
    n_state n = "FINALIZED" /\
    (exists h, last (n_state_history n) = Some h /\ he_state h = n_state n).
Proof.
  assert (H0 : negotiations_all history_in_step REQUESTED_STORE).
  { intros id n H. unfold get_negotiation in H. cbn [REQUESTED_STORE negotiations] in H.
    apply lookup_singleton_Some in H as [_ <-].
    split; [cbn; tauto |]. split; eexists; split; reflexivity. }
  split; [exact H0 |].
  eexists. split; [vm_compute; reflexivity |]. split; [reflexivity |].
  apply (negotiation_history_tracks_state REQUESTED_STORE TO_FINALIZED
           "negotiation-0000abcd" _ H0).
  vm_compute. reflexivity.
Defined.

Lemma agreement_id_in_step_created e n : created e n -> agreement_id_in_step n.
Proof.
  intros (_ & Hstate & _ & Hagr & _).
  unfold agreement_id_in_step. rewrite Hstate, Hagr.
  split; [intros [x Hx]; discriminate Hx | discriminate].
Qed.

Lemma agreement_id_in_step_moved e n n' h :
  agreement_id_in_step n -> moved e n n' h -> agreement_id_in_step n'.
Proof.
  intros Hagr (_ & _ & _ & Hedge & Hlink).
  destruct (negotiation_edge_inv _ _ Hedge) as (_ & Hnf & _).
  unfold agreement_id_in_step in *.
  destruct Hlink as [[Hfin Hsome] | [Hnot Hkeep]].
  - rewrite Hsome, Hfin. split; eauto.
  - rewrite Hkeep. split; [intros H; apply Hagr in H; contradiction | contradiction].
Qed.

(** X16: the handlers keep the agreement id of the negotiations in step
    with their state.  If in a store the negotiations that have an
    agreement id are the FINALIZED ones (a store without negotiations is
    one), the same holds of the store after any requests. *)
Theorem agreement_id_iff_finalized (st0 : store) (calls : list (env * call))
    (id : string) (n : negotiation) :
  negotiations_all agreement_id_in_step st0 ->
  get_negotiation id (serve_all calls st0) = Some n ->
  (is_Some (n_agreement_id n) <-> n_state n = "FINALIZED").
Proof.
  intros H0 Hn.
  exact (negotiations_all_serve_all agreement_id_in_step agreement_id_in_step_created
           agreement_id_in_step_moved calls st0 H0 id n Hn).
Qed.

Lemma agreement_id_iff_finalized_witness :
  negotiations_all agreement_id_in_step REQUESTED_STORE /\
  exists n,
    get_negotiation "negotiation-0000abcd" (serve_all TO_FINALIZED REQUESTED_STORE) = Some n /\
    n_agreement_id n = Some "agreement-1a2b3c4d" /\
    (is_Some (n_agreement_id n) <-> n_state n = "FINALIZED").
Proof.
  assert (H0 : negotiations_all agreement_id_in_step REQUESTED_STORE).
  { intros id n H. unfold get_negotiation in H. cbn [REQUESTED_STORE negotiations] in H.
    apply lookup_singleton_Some in H as [_ <-].
    split; [intros [x Hx]; discriminate Hx | discriminate]. }
  split; [exact H0 |].
  eexists. split; [vm_compute; reflexivity |]. split; [reflexivity |].
  apply (agreement_id_iff_finalized REQUESTED_STORE TO_FINALIZED "negotiation-0000abcd" _ H0).
  vm_compute. reflexivity.
Defined.

(** X17: an offer on a negotiation in state REQUESTED whose policy is a
    template follows the evaluation of the attributes it is asked with
    (else the stored ones): allowed, the negotiation is saved as OFFERED;
    denied, as TERMINATED with the reason; in both cases with the trace
    of the evaluation; and when the evaluation raises, the handler lets
    the exception through and returns the store it received. *)
Theorem offer_follows_evaluation (e : env) (st : store) (n : negotiation)
    (action : option NegotiationAction) (policy : Policy) (ctx : context) :
  get_negotiation (n_id n) st = Some n ->
  n_state n = "REQUESTED" ->
  POLICY_TEMPLATES !! n_policy_id n = Some policy ->
  offer_attributes n action = Some ctx ->
  (forall r,
     fst (call_evaluate policy ctx) = Ok r ->
     exists n',
       fst (provider_offer e (n_id n) action st) = inr n' /\
       get_negotiation (n_id n) (snd (provider_offer e (n_id n) action st)) = Some n' /\
       n_state n' = (if allowed r then "OFFERED" else "TERMINATED") /\
       n_policy_evaluation n' =
         Some {| allowed := allowed r;
                 reason := if allowed r then None else reason r;
                 evaluated_constraints := evaluated_constraints r |}) /\
  (forall ex,
     fst (call_evaluate policy ctx) = Raise ex ->
     provider_offer e (n_id n) action st = (inl (Unhandled ex), st)).
Proof.
  intros Hn Hstate Hpolicy Hattrs. unfold provider_offer. rewrite Hn, Hstate.
  cbn [String.eqb Ascii.eqb Bool.eqb negb].
  unfold offer_attributes in Hattrs. rewrite Hattrs, Hpolicy. cbn [evaluate_offer].
  split.
  - intros r ->. destruct (allowed r) eqn:Hallowed.
    + eexists. split; [reflexivity |]. split; [| split; reflexivity].
      unfold get_negotiation. cbn. apply lookup_insert_eq.
    + eexists. split; [reflexivity |]. split; [| split; reflexivity].
      unfold get_negotiation. cbn. apply lookup_insert_eq.
  - intros ex ->. reflexivity.
Qed.

(** The tier-1 policy against an OEM: the offer ends the negotiation. *)
Lemma offer_follows_evaluation_witness :
  exists n',
    fst (provider_offer ENV "negotiation-0000abcd" OEM_ACTION REQUESTED_STORE) = inr n' /\
    n_state n' = "TERMINATED".
Proof.
  destruct (offer_follows_evaluation ENV REQUESTED_STORE REQUESTED_NEGOTIATION OEM_ACTION
              TIER1_SUPPLIER_ONLY_POLICY {[ "partner_type" := VStr "oem" ]})
    as (Hok & _); try reflexivity.
  destruct (Hok _ eq_refl) as (n' & Hfst & _ & Hstate & _).
  exists n'. split; [exact Hfst | exact Hstate].
Defined.

Lemma template_has_permission k p :
  POLICY_TEMPLATES !! k = Some p -> permissions p <> [].
Proof.
  unfold POLICY_TEMPLATES. intros H. apply elem_of_list_to_map_2 in H.
  rewrite !elem_of_cons, elem_of_nil in H.
  destruct H as [H | [H | [H | [H | [H | [H | []]]]]]];
    injection H as -> ->; discriminate.
Qed.

(** X18: an offer whose body leaves [consumer_attributes] out does not
    fall back on the stored attributes: on a negotiation in state
    REQUESTED, in any store, the handler lets [AttributeError] through,
    and the store, the negotiation with it, stays as it is. *)
Theorem offer_without_attributes_raises (e : env) (st : store) (id : string)
    (n : negotiation) :
  get_negotiation id st = Some n ->
  n_state n = "REQUESTED" ->
  provider_offer e id (Some {| action_consumer_attributes := None |}) st
  = (inl (Unhandled AttributeError), st).
Proof.
  intros Hn Hstate.
  unfold provider_offer. rewrite Hn, Hstate.
  cbn [String.eqb Ascii.eqb Bool.eqb negb action_consumer_attributes].
  destruct (POLICY_TEMPLATES !! n_policy_id n) as [p |] eqn:Hp; [| reflexivity].
  pose proof (template_has_permission _ _ Hp) as Hperm.
  cbn [evaluate_offer].
  destruct (prohibitions p); destruct (permissions p); try congruence; reflexivity.
Qed.

Lemma offer_without_attributes_raises_witness :
  provider_offer ENV "negotiation-0000abcd" (Some {| action_consumer_attributes := None |})
    REQUESTED_STORE
  = (inl (Unhandled AttributeError), REQUESTED_STORE).
Proof.
  apply (offer_without_attributes_raises ENV REQUESTED_STORE "negotiation-0000abcd"
           REQUESTED_NEGOTIATION).
  - reflexivity.
  - reflexivity.
Defined.

(** X19: each of offer, agree, verify, finalize and terminate answers 404
    [NEGOTIATION_NOT_FOUND] on an id the store has no negotiation for, and
    returns the store it received. *)
Theorem unknown_negotiation_not_found (e : env) (st : store) (id : string)
    (t : transition) :
  get_negotiation id st = None ->
  serve e (ask t id) st
  = (inl (HTTPException 404
            {| error := "NEGOTIATION_NOT_FOUND"; message := None; hint := None |}), st).
Proof.
  intros Hn. destruct t; cbn [ask serve]; unfold answered, provider_offer, consumer_agree,
    verify_agreement, finalize_agreement, terminate_negotiation; rewrite Hn; reflexivity.
Qed.

Lemma unknown_negotiation_not_found_witness :
  serve ENV (ask Finalize "negotiation-ffffffff") REQUESTED_STORE
  = (inl (HTTPException 404
            {| error := "NEGOTIATION_NOT_FOUND"; message := None; hint := None |}),
     REQUESTED_STORE).
Proof.
  apply (unknown_negotiation_not_found ENV REQUESTED_STORE "negotiation-ffffffff" Finalize).
  reflexivity.
Defined.

(** A failing request returns the store it received. *)
Lemma failure_keeps_store (e : env) (c : call) (st : store) (err : failure) :
  fst (serve e c st) = inl err ->
  snd (serve e c st) = st.
Proof.
  destruct c; cbn [serve]; unfold answered; cbn [fst snd].
  - unfold initiate_negotiation. repeat case_match; cbn; try discriminate; reflexivity.
  - unfold provider_offer. repeat case_match; cbn; try discriminate; reflexivity.
  - unfold consumer_agree. repeat case_match; cbn; try discriminate; reflexivity.
  - unfold verify_agreement. repeat case_match; cbn; try discriminate; reflexivity.
  - unfold finalize_agreement.
    destruct (get_negotiation negotiation_id st); [| reflexivity].
    destruct (negb _); [reflexivity | discriminate].
  - unfold terminate_negotiation. repeat case_match; cbn; try discriminate; reflexivity.
  - unfold initiate_transfer. repeat case_match; cbn; try discriminate; reflexivity.
  - unfold start_transfer. repeat case_match; cbn; try discriminate; reflexivity.
  - unfold complete_transfer. repeat case_match; cbn; try discriminate; reflexivity.
  - unfold suspend_transfer. repeat case_match; cbn; try discriminate; reflexivity.
  - unfold terminate_transfer. repeat case_match; cbn; try discriminate; reflexivity.
  - reflexivity.
Qed.

(** X20: a request that fails, with an [HTTPException] or with an exception
    nothing catches, returns the store it received: no negotiation,
    agreement or transfer is touched and nothing is logged. *)
Theorem failed_request_leaves_store (e : env) (c : call) (st : store) (err : failure) :
  fst (serve e c st) = inl err ->
  snd (serve e c st) = st.
Proof. apply failure_keeps_store. Qed.

Lemma failed_request_leaves_store_witness :
  snd (serve ENV (ConsumerAgree "negotiation-0000abcd") REQUESTED_STORE) = REQUESTED_STORE.
Proof.
  eapply (failed_request_leaves_store ENV (ConsumerAgree "negotiation-0000abcd")
            REQUESTED_STORE).
  reflexivity.
Defined.

Lemma audit_log_two t1 ev1 d1 t2 ev2 d2 st st1 :
  audit_log st1 = audit_log st ++ [ {| audit_timestamp := t1; audit_event := ev1;
                                      audit_details := d1 |} ] ->
  exists more,
    audit_log (log_event t2 ev2 d2 st1) = audit_log st ++ more /\ more <> [].
Proof.
  intros H. eexists. cbn [log_event audit_log]. rewrite H, <- app_assoc.
  split; [reflexivity | discriminate].
Qed.

(** X21: the audit log only grows: a request other than [reset_demo] keeps
    every entry the log has and appends to it, nothing when it fails and
    at least one entry when it succeeds. *)
Theorem audit_log_append_only (e : env) (c : call) (st : store) :
  c <> ResetDemo ->
  exists more,
    audit_log (snd (serve e c st)) = audit_log st ++ more /\
    (more = [] <-> exists err, fst (serve e c st) = inl err).
Proof.
  intros Hc.
  destruct (fst (serve e c st)) as [err | a] eqn:Hfst.
  - exists []. rewrite (failure_keeps_store e c st err Hfst), app_nil_r.
    split; [reflexivity |]. split; eauto.
  - assert (Hmore : exists more,
              audit_log (snd (serve e c st)) = audit_log st ++ more /\ more <> []).
    { destruct c; try congruence; cbn [serve] in *; unfold answered in *; cbn [fst snd] in *.
      - unfold initiate_negotiation in *. repeat case_match; try discriminate;
          cbn [snd]; eapply audit_log_two; reflexivity.
      - unfold provider_offer in *. repeat case_match; try discriminate;
          cbn [snd]; eapply audit_log_two; reflexivity.
      - unfold consumer_agree in *. repeat case_match; try discriminate;
          cbn [snd]; eapply audit_log_two; reflexivity.
      - unfold verify_agreement in *. repeat case_match; try discriminate;
          cbn [snd]; eapply audit_log_two; reflexivity.
      - unfold finalize_agreement in *.
        destruct (get_negotiation negotiation_id st); [| discriminate].
        destruct (negb _); [discriminate |].
        cbn [snd]. eexists. cbn [log_event save_negotiation save_agreement audit_log].
        rewrite <- !app_assoc. split; [reflexivity | discriminate].
      - unfold terminate_negotiation in *. repeat case_match; try discriminate;
          cbn [snd]; eapply audit_log_two; reflexivity.
      - unfold initiate_transfer in *. repeat case_match; try discriminate;
          cbn [snd]; eapply audit_log_two; reflexivity.
      - unfold start_transfer in *. repeat case_match; try discriminate;
          cbn [snd]; eapply audit_log_two; reflexivity.
      - unfold complete_transfer in *. repeat case_match; try discriminate;
          cbn [snd]; eapply audit_log_two; reflexivity.
      - unfold suspend_transfer in *. repeat case_match; try discriminate;
          cbn [snd]; eapply audit_log_two; reflexivity.
      - unfold terminate_transfer in *. repeat case_match; try discriminate;
          cbn [snd]; eapply audit_log_two; reflexivity. }
    destruct Hmore as (more & Hlog & Hne). exists more. split; [exact Hlog |].
    split; [contradiction | intros [err Herr]; discriminate Herr].
Qed.

Lemma audit_log_append_only_witness :
  exists more,
    audit_log (snd (serve ENV (TerminateNegotiation "negotiation-0000abcd") REQUESTED_STORE))
      = audit_log REQUESTED_STORE ++ more /\
    (more = [] <->
     exists err,
       fst (serve ENV (TerminateNegotiation "negotiation-0000abcd") REQUESTED_STORE) = inl err).
Proof.
  apply (audit_log_append_only ENV (TerminateNegotiation "negotiation-0000abcd")
           REQUESTED_STORE).
  discriminate.
Defined.

(** X22: [initiate_negotiation] answers 404 [ASSET_NOT_FOUND] for an id the
    catalog does not have and 500 [POLICY_NOT_FOUND] for an asset whose
    policy id is no template, both without touching the store; otherwise
    it saves a negotiation in state REQUESTED with the asset's policy id
    (or [open-access]) and the attributes of the request (or none). *)
Theorem initiate_negotiation_outcomes (e : env) (request : NegotiationRequest) (st : store) :
  (get_asset_by_id (request_asset_id request) st = None ->
   exists d,
     initiate_negotiation e request st = (inl (HTTPException 404 d), st) /\
     error d = "ASSET_NOT_FOUND") /\
  (forall a,
     get_asset_by_id (request_asset_id request) st = Some a ->
     POLICY_TEMPLATES !! default "open-access" (asset_policy_id a) = None ->
     exists d,
       initiate_negotiation e request st = (inl (HTTPException 500 d), st) /\
       error d = "POLICY_NOT_FOUND") /\
  (forall a,
     get_asset_by_id (request_asset_id request) st = Some a ->
     is_Some (POLICY_TEMPLATES !! default "open-access" (asset_policy_id a)) ->
     exists n,
       fst (initiate_negotiation e request st) = inr n /\
       get_negotiation (n_id n) (snd (initiate_negotiation e request st)) = Some n /\
       n_id n = "negotiation-" +:+ uuid4_hex8 e /\
       n_state n = "REQUESTED" /\
       n_policy_id n = default "open-access" (asset_policy_id a) /\
       n_consumer_id n = consumer_id request /\
       n_asset_id n = request_asset_id request /\
       n_consumer_attributes n = default ∅ (consumer_attributes request)).
Proof.
  unfold initiate_negotiation. split; [| split].
  - intros ->. eexists. split; reflexivity.
  - intros a -> ->. eexists. split; reflexivity.
  - intros a -> [p ->]. eexists. split; [reflexivity |]. split; [| repeat split].
    unfold get_negotiation. cbn. apply lookup_insert_eq.
Qed.

Lemma assets_serve e c st : assets (snd (serve e c st)) = assets st.
Proof.
  destruct c; cbn [serve]; rewrite ?snd_answered.
  - unfold initiate_negotiation. repeat case_match; reflexivity.
  - unfold provider_offer. repeat case_match; reflexivity.
  - unfold consumer_agree. repeat case_match; reflexivity.
  - unfold verify_agreement. repeat case_match; reflexivity.
  - unfold finalize_agreement. repeat case_match; reflexivity.
  - unfold terminate_negotiation. repeat case_match; reflexivity.
  - unfold initiate_transfer. repeat case_match; reflexivity.
  - unfold start_transfer. repeat case_match; reflexivity.
  - unfold complete_transfer. repeat case_match; reflexivity.
  - unfold suspend_transfer. repeat case_match; reflexivity.
  - unfold terminate_transfer. repeat case_match; reflexivity.
  - reflexivity.
Qed.

Lemma assets_serve_all calls : forall st, assets (serve_all calls st) = assets st.
Proof.
  induction calls as [| [e c] calls IH]; intros st; cbn [serve_all].
  - reflexivity.
  - rewrite IH. apply assets_serve.
Qed.

(** X23: no request changes the catalog.  [initialize_store] raises
    [NameError] on the name [true] before it binds the store, so
    [reset_demo] fails and resets nothing, whatever the store; after any
    requests the store has the assets it had, and when each of them names
    a template, or no policy, [initiate_negotiation] never answers
    [POLICY_NOT_FOUND]. *)
Theorem catalog_is_fixed (st0 : store) (calls : list (env * call)) (e : env)
    (request : NegotiationRequest) :
  initialize_store e st0 = (inl (Unhandled NameError), st0) /\
  serve e ResetDemo st0 = (inl (Unhandled NameError), st0) /\
  assets (serve_all calls st0) = assets st0 /\
  ((forall a,
      In a (assets st0) ->
      is_Some (POLICY_TEMPLATES !! default "open-access" (asset_policy_id a))) ->
   forall d,
     fst (initiate_negotiation e request (serve_all calls st0))
     <> inl (HTTPException 500 d)).
Proof.
  split; [reflexivity |]. split; [reflexivity |].
  pose proof (assets_serve_all calls st0) as Hassets. split; [exact Hassets |].
  intros Hbound d. unfold initiate_negotiation, get_asset_by_id. rewrite Hassets.
  destruct (find _ (assets st0)) as [a |] eqn:Hfind.
  - apply find_some in Hfind as [Hin _].
    destruct (Hbound a Hin) as [p Hp]. cbv zeta. rewrite Hp. discriminate.
  - cbn. congruence.
Qed.

End NegotiationExtras.

(** * More of the transfers *)

Module TransferStatements.
Import Py Models Policies Store Contracts Transfers Main Statements Scenarios.

(** The states a transfer is written in. *)
Definition TRANSFER_STATES : list string :=
  ["REQUESTED"; "STARTED"; "SUSPENDED"; "COMPLETED"; "TERMINATED"].

(** The moves the handlers make: REQUESTED to STARTED, STARTED to
    COMPLETED or SUSPENDED, and to TERMINATED from a state that is neither
    COMPLETED nor TERMINATED. *)
Definition transfer_edge (s s' : string) : bool :=
  String.eqb s "REQUESTED" && String.eqb s' "STARTED"
  || String.eqb s "STARTED" && String.eqb s' "COMPLETED"
  || String.eqb s "STARTED" && String.eqb s' "SUSPENDED"
  || negb (String.eqb s "COMPLETED") && negb (String.eqb s "TERMINATED")
     && String.eqb s' "TERMINATED".

(** Every transfer is stored under its id. *)
Definition transfers_under_id (st : store) : Prop :=
  forall id t, transfers st !! id = Some t -> t_id t = id.


(** What a transfer keeps from its creation on. *)
Definition same_transfer (t t' : transfer) : Prop :=
  t_id t' = t_id t /\
  t_agreement_id t' = t_agreement_id t /\
  t_asset_id t' = t_asset_id t /\
  t_provider_id t' = t_provider_id t /\
  t_consumer_id t' = t_consumer_id t /\
  t_data_destination t' = t_data_destination t /\
  t_format t' = t_format t /\
  t_created_at t' = t_created_at t.

(** The data of a transfer that moves: attached, not falsy, on the way to
    COMPLETED, kept otherwise. *)
Definition data_link (e : env) (st : store) (t t' : transfer) : Prop :=
  (t_state t' = "COMPLETED" /\
   t_completed_at t' = Some (utcnow e 0) /\
   exists data, t_data t' = Some data /\ resolvable e (t_asset_id t) st data) \/
  (t_state t' <> "COMPLETED" /\
   t_data t' = t_data t /\ t_completed_at t' = t_completed_at t).

(** A transfer as [initiate_transfer] saves it. *)
Definition transfer_created (e : env) (st : store) (t : transfer) : Prop :=
  t_id t = "transfer-" +:+ uuid4_hex8 e /\
  t_state t = "REQUESTED" /\
  (exists h, t_state_history t = [h] /\ he_state h = "REQUESTED") /\
  t_data t = None /\
  t_completed_at t = None /\
  exists a, get_agreement (t_agreement_id t) st = Some a /\ a_status a = "ACTIVE".

(** A transfer [t] moved to [t'] by one handler, with the history entry
    [h]. *)
Definition transfer_moved (e : env) (st : store) (t t' : transfer) (h : history_entry)
  : Prop :=
  same_transfer t t' /\
  t_state_history t' = t_state_history t ++ [h] /\
  he_state h = t_state t' /\
  transfer_edge (t_state t) (t_state t') = true /\
  data_link e st t t'.

(** What the store holds of a transfer at any time. *)
Definition transfer_well_formed (t : transfer) : Prop :=
  In (t_state t) TRANSFER_STATES /\
  (exists h, head (t_state_history t) = Some h /\ he_state h = "REQUESTED") /\
  (exists h, last (t_state_history t) = Some h /\ he_state h = t_state t) /\
  (is_Some (t_data t) <-> t_state t = "COMPLETED") /\
  (is_Some (t_completed_at t) <-> t_state t = "COMPLETED") /\
  (forall data, t_data t = Some data -> truthy data = true).

(** Every transfer of the store satisfies [P]. *)
Definition transfers_all (P : transfer -> Prop) (st : store) : Prop :=
  forall id t, get_transfer id st = Some t -> P t.

(** The completion of the started transfer, the part catalog being in the
    sample-data directory. *)
Definition COMPLETION : list (env * call) :=
  [ (ENV_WITH_DATA, CompleteTransfer "transfer-0000cafe") ].

(** What the store holds of agreements and of the transfers under them. *)
Definition agreements_active (st : store) : Prop :=
  (forall k a, agreements st !! k = Some a -> a_status a = "ACTIVE") /\
  (forall id t, transfers st !! id = Some t -> is_Some (agreements st !! t_agreement_id t)).

End TransferStatements.

Module TransferExtras.
Import Py Models Policies Store Contracts Transfers Main.
Import Statements Scenarios PolicyFacts ConnectorFacts NegotiationStatements.
Import NegotiationExtras TransferStatements.

(** What one request does to the transfers: nothing, or saves a new one,
    or moves a stored one. *)
Lemma serve_transfers e c st :
  transfers (snd (serve e c st)) = transfers st \/
  (exists t',
     (exists request, c = InitiateTransfer request) /\
     transfers (snd (serve e c st)) = <[t_id t' := t']> (transfers st) /\
     transfer_created e st t') \/
  (exists id t t' h,
     get_transfer id st = Some t /\
     transfers (snd (serve e c st)) = <[t_id t := t']> (transfers st) /\
     transfer_moved e st t t' h).
Proof.
  destruct c; cbn [serve]; rewrite ?snd_answered.
  - left. unfold initiate_negotiation. repeat case_match; reflexivity.
  - left. unfold provider_offer. repeat case_match; reflexivity.
  - left. unfold consumer_agree. repeat case_match; reflexivity.
  - left. unfold verify_agreement. repeat case_match; reflexivity.
  - left. unfold finalize_agreement. repeat case_match; reflexivity.
  - left. unfold terminate_negotiation. repeat case_match; reflexivity.
  - unfold initiate_transfer.
    destruct (get_agreement _ st) as [a |] eqn:Ha; [| left; reflexivity].
    destruct (String.eqb_spec (a_status a) "ACTIVE") as [Hs | Hs]; [| left; reflexivity].
    cbn [negb]. right. left. eexists. split; [eauto |]. split; [reflexivity |].
    repeat split; cbn; eauto.
  - unfold start_transfer.
    destruct (get_transfer transfer_id st) as [t |] eqn:Ht; [| left; reflexivity].
    destruct (String.eqb_spec (t_state t) "REQUESTED") as [Hs | Hs]; [| left; reflexivity].
    cbn [negb]. right; right.
    eexists transfer_id, t, _, _. split; [exact Ht |]. split; [reflexivity |].
    repeat split; cbn; try rewrite Hs; try reflexivity.
    right. repeat split. discriminate.
  - unfold complete_transfer.
    destruct (get_transfer transfer_id st) as [t |] eqn:Ht; [| left; reflexivity].
    destruct (String.eqb_spec (t_state t) "STARTED") as [Hs | Hs]; [| left; reflexivity].
    cbn [negb].
    destruct (get_asset_data e (t_asset_id t) st) as [data |] eqn:Hdata; [| left; reflexivity].
    destruct (truthy data) eqn:Htruthy; [| left; reflexivity].
    right; right.
    eexists transfer_id, t, _, _. split; [exact Ht |]. split; [reflexivity |].
    repeat split; cbn; try rewrite Hs; try reflexivity.
    left. split; [reflexivity |]. split; [reflexivity |].
    exists data. split; [reflexivity |]. split; assumption.
  - unfold suspend_transfer.
    destruct (get_transfer transfer_id st) as [t |] eqn:Ht; [| left; reflexivity].
    destruct (String.eqb_spec (t_state t) "STARTED") as [Hs | Hs]; [| left; reflexivity].
    cbn [negb]. right; right.
    eexists transfer_id, t, _, _. split; [exact Ht |]. split; [reflexivity |].
    repeat split; cbn; try rewrite Hs; try reflexivity.
    right. repeat split. discriminate.
  - unfold terminate_transfer.
    destruct (get_transfer transfer_id st) as [t |] eqn:Ht; [| left; reflexivity].
    destruct (String.eqb (t_state t) "COMPLETED") eqn:Hc; [left; reflexivity |].
    destruct (String.eqb (t_state t) "TERMINATED") eqn:Hd; [left; reflexivity |].
    cbn [orb]. right; right.
    eexists transfer_id, t, _, _. split; [exact Ht |]. split; [reflexivity |].
    repeat split; cbn; try reflexivity.
    + unfold transfer_edge. rewrite Hc, Hd. cbn. rewrite !andb_false_r. reflexivity.
    + right. repeat split. discriminate.
  - left. reflexivity.
Qed.

Lemma transfers_under_id_serve e c st :
  transfers_under_id st -> transfers_under_id (snd (serve e c st)).
Proof.
  intros K id t Ht.
  destruct (serve_transfers e c st)
    as [Hsame | [(m & _ & Hins & _)
                | (id0 & t0 & m & h & Ht0 & Hins & Hmoved)]].
  - rewrite Hsame in Ht. eauto.
  - rewrite Hins, lookup_insert in Ht. case_decide; [| eauto].
    injection Ht as <-. assumption.
  - rewrite Hins, lookup_insert in Ht. case_decide as Hid; [| eauto].
    injection Ht as <-. destruct Hmoved as ((Hsame & _) & _). congruence.
Qed.

Lemma transfers_under_id_serve_all calls :
  forall st, transfers_under_id st -> transfers_under_id (serve_all calls st).
Proof.
  induction calls as [| [e c] calls IH]; intros st K; cbn [serve_all].
  - exact K.
  - apply IH, transfers_under_id_serve, K.
Qed.




Lemma transfer_edge_inv s s' :
  transfer_edge s s' = true ->
  In s' TRANSFER_STATES /\ s <> "COMPLETED" /\ s <> "TERMINATED" /\
  (s' = "COMPLETED" -> s = "STARTED").
Proof.
  unfold transfer_edge, TRANSFER_STATES.
  rewrite !orb_true_iff, !andb_true_iff, !negb_true_iff, !String.eqb_eq, !String.eqb_neq.
  intros [[[[-> ->] | [-> ->]] | [-> ->]] | [[Hf Ht] ->]];
    (split; [cbn; tauto |]); split; try (congruence || discriminate);
    split; try (congruence || discriminate).
Qed.

Lemma transfer_well_formed_created e st t :
  transfer_created e st t -> transfer_well_formed t.
Proof.
  intros (_ & Hstate & (h & Hhist & Hh) & Hdata & Hdone & _).
  unfold transfer_well_formed. rewrite Hstate, Hhist, Hdata, Hdone.
  split; [cbn; tauto |]. split; [exists h; split; [reflexivity | exact Hh] |].
  split; [exists h; split; [reflexivity | exact Hh] |].
  split; [split; [intros [x Hx]; discriminate Hx | discriminate] |].
  split; [split; [intros [x Hx]; discriminate Hx | discriminate] |].
  intros data Hsome. discriminate Hsome.
Qed.

Lemma transfer_well_formed_moved e st t t' h :
  transfer_well_formed t -> transfer_moved e st t t' h -> transfer_well_formed t'.
Proof.
  intros (Hin & (h0 & Hhead & Hh0) & _ & Hdata & Hdone & Htruthy)
         (Hsame & Hhist & Hh & Hedge & Hlink).
  destruct (transfer_edge_inv _ _ Hedge) as (Hin' & Hnc & _ & _).
  unfold transfer_well_formed. rewrite Hhist.
  split; [exact Hin' |]. split.
  { exists h0. split; [| exact Hh0].
    destruct (t_state_history t); [discriminate Hhead | exact Hhead]. }
  split; [exists h; split; [apply last_snoc | exact Hh] |].
  destruct Hlink as [(Hc & Hat & data & Hsome & _ & Hok) | (Hnot & Hkeep & Hkeep')].
  - rewrite Hc, Hat, Hsome. split; [split; eauto |]. split; [split; eauto |].
    intros d [= <-]. exact Hok.
  - rewrite Hkeep, Hkeep'.
    split; [split; [intros H; apply Hdata in H; contradiction | contradiction] |].
    split; [split; [intros H; apply Hdone in H; contradiction | contradiction] |].
    exact Htruthy.
Qed.

Lemma transfer_well_formed_serve e c st :
  transfers_all transfer_well_formed st ->
  transfers_all transfer_well_formed (snd (serve e c st)).
Proof.
  intros Hst id t Ht. unfold get_transfer in Ht.
  destruct (serve_transfers e c st)
    as [Hsame | [(m & _ & Hins & Hcreated)
                | (id0 & t1 & m & h & Ht1 & Hins & Hmoved)]].
  - rewrite Hsame in Ht. exact (Hst id t Ht).
  - rewrite Hins, lookup_insert in Ht. case_decide; [| exact (Hst id t Ht)].
    injection Ht as <-. eapply transfer_well_formed_created, Hcreated.
  - rewrite Hins, lookup_insert in Ht. case_decide; [| exact (Hst id t Ht)].
    injection Ht as <-. eapply transfer_well_formed_moved; [| exact Hmoved].
    exact (Hst id0 t1 Ht1).
Qed.

Lemma transfer_well_formed_serve_all calls :
  forall st,
    transfers_all transfer_well_formed st ->
    transfers_all transfer_well_formed (serve_all calls st).
Proof.
  induction calls as [| [e c] calls IH]; intros st Hst; cbn [serve_all].
  - exact Hst.
  - apply IH, transfer_well_formed_serve, Hst.
Qed.

(** X25: the handlers keep the data of the transfers in step with their
    state.  If in a store every transfer carries data exactly when its
    state is COMPLETED, and likewise a completion time, the data it
    carries is not falsy, its state is one of the five states and is the
    state of the last entry of its history, which starts with REQUESTED (a
    store without transfers is one), the same holds of every transfer of
    the store after any requests. *)
Theorem transfer_data_iff_completed (st0 : store) (calls : list (env * call))
    (id : string) (t : transfer) :
  transfers_all transfer_well_formed st0 ->
  get_transfer id (serve_all calls st0) = Some t ->
  (is_Some (t_data t) <-> t_state t = "COMPLETED") /\
  (is_Some (t_completed_at t) <-> t_state t = "COMPLETED") /\
  (forall data, t_data t = Some data -> truthy data = true) /\
  In (t_state t) TRANSFER_STATES /\
  (exists h, head (t_state_history t) = Some h /\ he_state h = "REQUESTED") /\
  (exists h, last (t_state_history t) = Some h /\ he_state h = t_state t).
Proof.
  intros H0 Ht.
  destruct (transfer_well_formed_serve_all calls st0 H0 id t Ht)
    as (H1 & H2 & H3 & H4 & H5 & H6).
  auto 10.
Qed.

Lemma started_store_well_formed : transfers_all transfer_well_formed STARTED_STORE.
Proof.
  intros id t H. unfold get_transfer in H. cbn [STARTED_STORE transfers] in H.
  apply lookup_singleton_Some in H as [_ <-].
  split; [cbn; tauto |]. split; [eexists; split; reflexivity |].
  split; [eexists; split; reflexivity |].
  split; [split; [intros [x Hx]; discriminate Hx | discriminate] |].
  split; [split; [intros [x Hx]; discriminate Hx | discriminate] |].
  intros data Hsome. discriminate Hsome.
Qed.

Lemma transfer_data_iff_completed_witness :
  transfers_all transfer_well_formed STARTED_STORE /\
  exists t,
    get_transfer "transfer-0000cafe" (serve_all COMPLETION STARTED_STORE) = Some t /\
    t_data t = Some PART_CATALOG /\
    (is_Some (t_data t) <-> t_state t = "COMPLETED").
Proof.
  split; [exact started_store_well_formed |].
  eexists. split; [vm_compute; reflexivity |]. split; [reflexivity |].
  apply (transfer_data_iff_completed STARTED_STORE COMPLETION "transfer-0000cafe" _
           started_store_well_formed).
  vm_compute. reflexivity.
Defined.

(** What one request does to the agreements: nothing, or stores an ACTIVE
    one ([finalize_agreement]), the transfers being left as they are. *)
Lemma serve_agreements e c st :
  agreements (snd (serve e c st)) = agreements st \/
  (exists a,
     agreements (snd (serve e c st)) = <[a_id a := a]> (agreements st) /\
     transfers (snd (serve e c st)) = transfers st /\
     a_status a = "ACTIVE").
Proof.
  destruct c; try (left; apply agreements_kept; exact I).
  cbn [serve]. rewrite snd_answered. unfold finalize_agreement.
  destruct (get_negotiation negotiation_id st) as [n |]; [| left; reflexivity].
  destruct (negb _); [left; reflexivity |].
  right. eexists. split; [reflexivity |]. split; reflexivity.
Qed.

Lemma agreements_active_serve e c st :
  agreements_active st -> agreements_active (snd (serve e c st)).
Proof.
  intros [Hactive Hstored].
  destruct (serve_agreements e c st) as [Hsame | (a & Hins & Hkeep & Ha)].
  - split.
    + intros k a. rewrite Hsame. apply Hactive.
    + intros id t Ht. rewrite Hsame.
      destruct (serve_transfers e c st)
        as [Hsame' | [(m & _ & Hins & Hcreated)
                     | (id0 & t0 & m & h & Ht0 & Hins & Hmoved)]].
      * rewrite Hsame' in Ht. eauto.
      * rewrite Hins, lookup_insert in Ht. case_decide; [| eauto].
        injection Ht as <-. destruct Hcreated as (_ & _ & _ & _ & _ & a & Ha & _).
        unfold get_agreement in Ha. rewrite Ha. eauto.
      * rewrite Hins, lookup_insert in Ht. case_decide; [| eauto].
        injection Ht as <-. destruct Hmoved as ((_ & Hagr & _) & _).
        rewrite Hagr. eapply Hstored. exact Ht0.
  - split.
    + intros k a'. rewrite Hins, lookup_insert. case_decide; [| apply Hactive].
      intros [= <-]. exact Ha.
    + intros id t. rewrite Hkeep, Hins. intros Ht.
      rewrite lookup_insert. case_decide; [eauto | eapply Hstored; exact Ht].
Qed.

Lemma agreements_active_serve_all calls :
  forall st, agreements_active st -> agreements_active (serve_all calls st).
Proof.
  induction calls as [| [e c] calls IH]; intros st Hst; cbn [serve_all].
  - exact Hst.
  - apply IH, agreements_active_serve, Hst.
Qed.

(** X26: no handler deactivates or removes an agreement.  If in a store
    every agreement has the status ACTIVE and the agreement of every
    transfer is stored (a store without agreements and transfers is one),
    the same holds of the store after any requests; so there
    [initiate_transfer] never answers [AGREEMENT_NOT_ACTIVE]: it answers
    [AGREEMENT_NOT_FOUND] or saves a transfer. *)
Theorem agreements_stay_active (st0 : store) (calls : list (env * call)) :
  agreements_active st0 ->
  (forall k a, agreements (serve_all calls st0) !! k = Some a -> a_status a = "ACTIVE") /\
  (forall id t,
     get_transfer id (serve_all calls st0) = Some t ->
     is_Some (get_agreement (t_agreement_id t) (serve_all calls st0))) /\
  (forall e request,
     (exists d,
        initiate_transfer e request (serve_all calls st0)
          = (inl (HTTPException 404 d), serve_all calls st0) /\
        error d = "AGREEMENT_NOT_FOUND") \/
     (exists t, fst (initiate_transfer e request (serve_all calls st0)) = inr t)).
Proof.
  intros H0.
  destruct (agreements_active_serve_all calls st0 H0) as [Hactive Hstored].
  split; [exact Hactive |]. split; [exact Hstored |].
  intros e request. unfold initiate_transfer.
  destruct (get_agreement (request_agreement_id request) (serve_all calls st0))
    as [a |] eqn:Ha.
  - right. rewrite (Hactive _ a Ha). cbn [String.eqb Ascii.eqb Bool.eqb negb].
    eexists. reflexivity.
  - left. eexists. split; reflexivity.
Qed.

(** On the happy path the agreement of the transfer is stored. *)
Lemma agreements_stay_active_witness :
  agreements_active INSTALLED_STORE /\
  exists t,
    get_transfer "transfer-1a2b3c4d" (serve_all HAPPY_PATH INSTALLED_STORE) = Some t /\
    t_agreement_id t = "agreement-1a2b3c4d" /\
    is_Some (get_agreement (t_agreement_id t) (serve_all HAPPY_PATH INSTALLED_STORE)).
Proof.
  assert (H0 : agreements_active INSTALLED_STORE).
  { split; intros k x H; cbn [INSTALLED_STORE store_of agreements transfers] in H;
      rewrite lookup_empty in H; discriminate H. }
  split; [exact H0 |].
  eexists. split; [vm_compute; reflexivity |]. split; [reflexivity |].
  apply (proj1 (proj2 (agreements_stay_active INSTALLED_STORE HAPPY_PATH H0))
           "transfer-1a2b3c4d").
  vm_compute. reflexivity.
Defined.

End TransferExtras.

(** * The reading handlers *)

(** ** [transfers.py] and [data_plane.py]: reading data *)

Module DataAccess.
Import Py Models Policies Store Contracts Transfers.

(** What [get_transferred_data] fails with: an [HTTPException], or the
    [KeyError] of [transfer["completed_at"]] on a transfer without that
    key. *)
Inductive data_failure : Type :=
| DataHTTPException (status_code : nat) (d : detail)
| KeyError (key : string).

(** The dict [get_transferred_data] returns. *)
Record transferred_data : Type := {
  td_transfer_id : string;
  td_asset_id : string;
  td_consumer_id : string;
  td_transferred_at : string;
  td_data : value
}.

(** [not data] for the result of a [dict.get] or of [get_asset_data]. *)
Definition missing (data : option value) : bool :=
  match data with
  | None => true
  | Some v => negb (truthy v)
  end.

(** [get_transferred_data]: the handler reads the store and writes
    nothing. *)
Definition get_transferred_data (e : env) (transfer_id : string) (st : store)
  : data_failure + transferred_data :=
  match get_transfer transfer_id st with
  | None =>
      inl (DataHTTPException 404
             {| error := "TRANSFER_NOT_FOUND"; message := None; hint := None |})
  | Some transfer =>
      if negb (String.eqb (t_state transfer) "COMPLETED") then
        inl (DataHTTPException 400
               {| error := "TRANSFER_NOT_COMPLETED";
                  message := Some ("Data only available for completed transfers. "
                                     +:+ "Current state: '" +:+ t_state transfer +:+ "'");
                  hint := None |})
      else
        let data := t_data transfer in
        let data :=
          if missing data then get_asset_data e (t_asset_id transfer) st else data in
        match data with
        | Some data =>
            if truthy data then
              match t_completed_at transfer with
              | Some completed_at =>
                  inr {| td_transfer_id := transfer_id;
                         td_asset_id := t_asset_id transfer;
                         td_consumer_id := t_consumer_id transfer;
                         td_transferred_at := completed_at;
                         td_data := data |}
              | None => inl (KeyError "completed_at")
              end
            else
              inl (DataHTTPException 500
                     {| error := "DATA_NOT_AVAILABLE";
                        message := Some "Could not retrieve data"; hint := None |})
        | None =>
            inl (DataHTTPException 500
                   {| error := "DATA_NOT_AVAILABLE";
                      message := Some "Could not retrieve data"; hint := None |})
        end
  end.

(** [preview[key] = value] on a dict held as the list of its items: the
    value of a key the dict has is replaced, a new key is added last. *)
Fixpoint setitem (key : string) (v : value) (d : list (string * value))
  : list (string * value) :=
  match d with
  | [] => [(key, v)]
  | (k, w) :: d' =>
      if String.eqb k key then (k, v) :: d' else (k, w) :: setitem key v d'
  end.

(** What the loop of [preview_asset] stores under [key]. *)
Definition summary (key : string) (v : value) : value :=
  if String.eqb key "metadata" then v
  else
    match v with
    | VDict d => VStr ("<object with " +:+ str_int (Z.of_nat (length d)) +:+ " keys>")
    | VList l => VStr ("<array with " +:+ str_int (Z.of_nat (length l)) +:+ " items>")
    | _ => v
    end.

(** The loop over [data.items()], from the empty [preview]. *)
Definition preview_of (data : value) : list (string * value) :=
  match data with
  | VDict items =>
      fold_left (fun preview kv => setitem (fst kv) (summary (fst kv) (snd kv)) preview)
        items []
  | _ => []
  end.

(** The dict [preview_asset] returns; the keys [description] and
    [content_type] are in the answer with a preview only, and the fixed
    [message] and [note] are left out. *)
Record asset_preview : Type := {
  preview_asset_id : string;
  preview_name : string;
  preview_description : option string;
  preview_content_type : option string;
  preview : value
}.

(** [preview_asset]. *)
Definition preview_asset (e : env) (id : string) (st : store)
  : failure + asset_preview :=
  match get_asset_by_id id st with
  | None =>
      inl (HTTPException 404
             {| error := "ASSET_NOT_FOUND";
                message := Some ("Asset '" +:+ id +:+ "' not found");
                hint := None |})
  | Some a =>
      let data := get_asset_data e id st in
      match data with
      | Some data =>
          if truthy data then
            inr {| preview_asset_id := id;
                   preview_name := asset_name a;
                   preview_description := Some (asset_description a);
                   preview_content_type := Some (asset_content_type a);
                   preview := VDict (preview_of data) |}
          else
            inr {| preview_asset_id := id;
                   preview_name := asset_name a;
                   preview_description := None;
                   preview_content_type := None;
                   preview := VStr "Preview not available" |}
      | None =>
          inr {| preview_asset_id := id;
                 preview_name := asset_name a;
                 preview_description := None;
                 preview_content_type := None;
                 preview := VStr "Preview not available" |}
      end
  end.

End DataAccess.

(** ** [catalog.py] *)

Module Catalog.
Import Py Models Policies Store.

(** The [policy] dict of an offer. *)
Record offered_policy : Type := {
  offered_id : string;
  offered_description : string;
  offered_permissions : list (string * list Constraint);
  offered_prohibitions : list string
}.

(** A dataset of the catalog; the JSON-LD keys [@context] and [@type] are
    left out. *)
Record dataset : Type := {
  dataset_id : string;
  dataset_title : string;
  dataset_description : string;
  dataset_format : string;
  dataset_properties : value;
  dataset_offer_id : string;
  dataset_policy : offered_policy
}.

(** The dataset of an asset: [policy.id] raises [AttributeError] when
    [POLICY_TEMPLATES.get] finds no template. *)
Definition dataset_of (a : asset) : failure + dataset :=
  match POLICY_TEMPLATES !! default "open-access" (asset_policy_id a) with
  | None => inl (Unhandled AttributeError)
  | Some policy =>
      inr {| dataset_id := asset_id a;
             dataset_title := asset_name a;
             dataset_description := asset_description a;
             dataset_format := asset_content_type a;
             dataset_properties := asset_properties a;
             dataset_offer_id := "offer-" +:+ asset_id a;
             dataset_policy :=
               {| offered_id := policy_id policy;
                  offered_description := get_policy_description policy;
                  offered_permissions :=
                    map (fun p => (permission_action p, permission_constraints p))
                      (permissions policy);
                  offered_prohibitions := map prohibition_action (prohibitions policy) |} |}
  end.

(** [get_dataset]. *)
Definition get_dataset (id : string) (st : store) : failure + dataset :=
  match get_asset_by_id id st with
  | None =>
      inl (HTTPException 404
             {| error := "DATASET_NOT_FOUND";
                message := Some ("Dataset '" +:+ id +:+ "' not found in catalog");
                hint := Some "Use GET /api/catalog/datasets to see available datasets" |})
  | Some a => dataset_of a
  end.

(** [get_catalog]: the datasets of the assets in order; the first asset
    without a template raises. *)
Fixpoint datasets_of (assets : list asset) : failure + list dataset :=
  match assets with
  | [] => inr []
  | a :: assets' =>
      match dataset_of a with
      | inl err => inl err
      | inr d =>
          match datasets_of assets' with
          | inl err => inl err
          | inr ds => inr (d :: ds)
          end
      end
  end.

Definition get_catalog (st : store) : failure + list dataset :=
  datasets_of (assets st).

(** The dict [get_policy] returns. *)
Record policy_details : Type := {
  details_id : string;
  details_description : string;
  details_permissions : list (string * list (Constraint * string));
  details_prohibitions : list (string * string)
}.

(** [get_policy]. *)
Definition get_policy (id : string) : failure + policy_details :=
  match POLICY_TEMPLATES !! id with
  | None =>
      inl (HTTPException 404
             {| error := "POLICY_NOT_FOUND";
                message := Some ("Policy '" +:+ id +:+ "' not found");
                hint := Some "Use GET /api/catalog/policies to see available policies" |})
  | Some policy =>
      inr {| details_id := policy_id policy;
             details_description := get_policy_description policy;
             details_permissions :=
               map (fun p =>
                      (permission_action p,
                       map (fun c =>
                              (c, "Requires " +:+ left_operand c +:+ " to be "
                                    +:+ operator c +:+ " " +:+ str (right_operand c)))
                         (permission_constraints p)))
                 (permissions policy);
             details_prohibitions :=
               map (fun p =>
                      (prohibition_action p,
                       "The action '" +:+ prohibition_action p +:+ "' is not allowed"))
                 (prohibitions policy) |}
  end.

End Catalog.

(** ** Statements on the reading handlers *)

Module ReadStatements.
Import Py Models Policies Store Contracts Transfers Main Statements Scenarios.
Import DataAccess Catalog.

(** A value with a structure of its own: a dict or a list. *)
Definition nested (v : value) : bool :=
  match v with
  | VDict _ | VList _ => true
  | _ => false
  end.

End ReadStatements.

Module ReadExtras.
Import Py Models Policies Store Contracts Transfers Main.
Import Statements Scenarios PolicyFacts ConnectorFacts NegotiationStatements.
Import NegotiationExtras TransferStatements TransferExtras.
Import DataAccess Catalog ReadStatements.

(** X27: the data of a completed transfer is read back: when
    [complete_transfer] succeeds on a store that holds every transfer
    under its id, [get_transferred_data] on the store it leaves answers
    the document that was resolved at completion, with the completion
    time, whatever the sample-data files hold by then. *)
Theorem completed_data_read_back (e e' : env) (id : string) (st : store)
    (t' : transfer) :
  transfers_under_id st ->
  fst (complete_transfer e id st) = inr t' ->
  exists data,
    resolvable e (t_asset_id t') st data /\
    get_transferred_data e' id (snd (complete_transfer e id st))
    = inr {| td_transfer_id := id;
             td_asset_id := t_asset_id t';
             td_consumer_id := t_consumer_id t';
             td_transferred_at := utcnow e 0;
             td_data := data |}.
Proof.
  intros Hunder. unfold complete_transfer.
  destruct (get_transfer id st) as [t |] eqn:Ht; [| discriminate].
  destruct (negb _); [discriminate |].
  destruct (get_asset_data e (t_asset_id t) st) as [data |] eqn:Hdata; [| discriminate].
  destruct (truthy data) eqn:Hok; [| discriminate].
  cbn [fst snd]. intros [= <-]. exists data.
  split; [split; [exact Hdata | exact Hok] |].
  pose proof (Hunder id t Ht) as Hid.
  unfold get_transferred_data, get_transfer, save_transfer, log_event, move, set_completed.
  cbn [transfers t_id t_state t_asset_id t_consumer_id t_data t_completed_at].
  rewrite Hid, lookup_insert_eq.
  cbn [t_state t_asset_id t_consumer_id t_data t_completed_at missing
       String.eqb Ascii.eqb Bool.eqb negb].
  rewrite Hok. cbn [negb]. rewrite Hok. reflexivity.
Qed.

Lemma completed_data_read_back_witness :
  exists data,
    resolvable ENV_WITH_DATA "part-catalog-2024" STARTED_STORE data /\
    get_transferred_data ENV "transfer-0000cafe"
      (snd (complete_transfer ENV_WITH_DATA "transfer-0000cafe" STARTED_STORE))
    = inr {| td_transfer_id := "transfer-0000cafe";
             td_asset_id := "part-catalog-2024";
             td_consumer_id := "consumer-tierone";
             td_transferred_at := "2024-12-01T12:00:00";
             td_data := data |}.
Proof.
  apply (completed_data_read_back ENV_WITH_DATA ENV "transfer-0000cafe" STARTED_STORE
           (move (set_completed STARTED_TRANSFER "2024-12-01T12:00:00" PART_CATALOG)
              "COMPLETED"
              {| he_state := "COMPLETED";
                 he_timestamp := "2024-12-01T12:00:00";
                 he_actor := None;
                 he_policy_evaluation := None;
                 he_reason := None;
                 he_agreement_id := None;
                 he_data_size := Some (String.length (str PART_CATALOG)) |})).
  - intros id t H. cbn [STARTED_STORE transfers] in H.
    apply lookup_singleton_Some in H as [<- <-]. reflexivity.
  - vm_compute. reflexivity.
Defined.

(** X28: [get_transferred_data] answers 404 [TRANSFER_NOT_FOUND] on an
    unknown id and 400 [TRANSFER_NOT_COMPLETED] on a transfer in another
    state than COMPLETED, on any store.  On a COMPLETED transfer of a
    store that requests lead to from a store whose transfers carry data
    that is not falsy and a completion time exactly when COMPLETED, it
    answers the data and the completion time stored with the transfer: it
    does not reload the asset's file, does not fail with
    [DATA_NOT_AVAILABLE] or a [KeyError], and answers the same whatever
    the files hold. *)
Theorem transferred_data_outcomes (st0 : store) (calls : list (env * call))
    (e : env) (id : string) :
  transfers_all transfer_well_formed st0 ->
  (forall st,
     get_transfer id st = None ->
     get_transferred_data e id st
     = inl (DataHTTPException 404
              {| error := "TRANSFER_NOT_FOUND"; message := None; hint := None |})) /\
  (forall st t,
     get_transfer id st = Some t ->
     t_state t <> "COMPLETED" ->
     exists d,
       get_transferred_data e id st = inl (DataHTTPException 400 d) /\
       error d = "TRANSFER_NOT_COMPLETED") /\
  (forall t,
     get_transfer id (serve_all calls st0) = Some t ->
     t_state t = "COMPLETED" ->
     exists data completed_at,
       t_data t = Some data /\
       t_completed_at t = Some completed_at /\
       get_transferred_data e id (serve_all calls st0)
       = inr {| td_transfer_id := id;
                td_asset_id := t_asset_id t;
                td_consumer_id := t_consumer_id t;
                td_transferred_at := completed_at;
                td_data := data |}) /\
  (forall e', get_transferred_data e' id (serve_all calls st0)
              = get_transferred_data e id (serve_all calls st0)).
Proof.
  intros H0.
  pose proof (transfer_well_formed_serve_all calls st0 H0) as Hwf.
  split; [| split; [| split]].
  - intros st Hnone. unfold get_transferred_data. rewrite Hnone. reflexivity.
  - intros st t Ht Hstate. unfold get_transferred_data. rewrite Ht.
    apply String.eqb_neq in Hstate. rewrite Hstate. cbn [negb].
    eexists. split; reflexivity.
  - intros t Ht Hstate.
    destruct (Hwf id t Ht) as (_ & _ & _ & Hdata & Hdone & Htruthy).
    destruct (proj2 Hdata Hstate) as [data Hsome].
    destruct (proj2 Hdone Hstate) as [completed_at Hat].
    exists data, completed_at. split; [exact Hsome |]. split; [exact Hat |].
    unfold get_transferred_data. rewrite Ht, Hstate, Hsome, Hat.
    cbn [String.eqb Ascii.eqb Bool.eqb negb missing].
    rewrite (Htruthy data Hsome). cbn [negb]. rewrite (Htruthy data Hsome). reflexivity.
  - intros e'. unfold get_transferred_data.
    destruct (get_transfer id (serve_all calls st0)) as [t |] eqn:Ht; [| reflexivity].
    destruct (negb _) eqn:Hstate; [reflexivity |].
    apply negb_false_iff, String.eqb_eq in Hstate.
    destruct (Hwf id t Ht) as (_ & _ & _ & Hdata & _ & Htruthy).
    destruct (proj2 Hdata Hstate) as [data Hsome].
    rewrite Hsome. cbn [missing]. rewrite (Htruthy data Hsome). reflexivity.
Qed.

(** The completed transfer is read without the file. *)
Lemma transferred_data_outcomes_witness :
  transfers_all transfer_well_formed STARTED_STORE /\
  get_transferred_data ENV "transfer-0000cafe" (serve_all COMPLETION STARTED_STORE)
  = get_transferred_data ENV_WITH_DATA "transfer-0000cafe"
      (serve_all COMPLETION STARTED_STORE) /\
  td_data <$> (match get_transferred_data ENV "transfer-0000cafe"
                       (serve_all COMPLETION STARTED_STORE) with
               | inr d => Some d
               | inl _ => None
               end)
  = Some PART_CATALOG.
Proof.
  split; [exact started_store_well_formed |]. split; [| reflexivity].
  apply (transferred_data_outcomes STARTED_STORE COMPLETION ENV_WITH_DATA
           "transfer-0000cafe" started_store_well_formed).
Defined.

Lemma setitem_fresh key v d :
  ~ In key (map fst d) -> setitem key v d = d ++ [(key, v)].
Proof.
  induction d as [| [k w] d IH]; intros Hfresh; cbn [setitem app].
  - reflexivity.
  - cbn [map fst In] in Hfresh.
    destruct (String.eqb k key) eqn:Hk.
    + apply String.eqb_eq in Hk. tauto.
    + rewrite IH by tauto. reflexivity.
Qed.

Lemma preview_loop items : forall acc,
  List.NoDup (map fst items) ->
  (forall k, In k (map fst items) -> ~ In k (map fst acc)) ->
  fold_left (fun preview kv => setitem (fst kv) (summary (fst kv) (snd kv)) preview)
    items acc
  = acc ++ map (fun kv => (fst kv, summary (fst kv) (snd kv))) items.
Proof.
  induction items as [| [k v] items IH]; intros acc Hdistinct Hfresh; cbn [fold_left map].
  - rewrite app_nil_r. reflexivity.
  - cbn [map fst] in Hdistinct. inversion Hdistinct as [| k' l' Hk Hrest]; subst.
    cbn [fst snd]. rewrite setitem_fresh by (apply Hfresh; left; reflexivity).
    rewrite IH.
    + rewrite <- app_assoc. reflexivity.
    + exact Hrest.
    + intros k0 Hk0. rewrite map_app, in_app_iff. cbn [map fst In].
      intros [Hin | [<- | []]].
      * apply (Hfresh k0); [right; exact Hk0 | exact Hin].
      * apply Hk. exact Hk0.
Qed.

(** The loop of [preview_asset] on the items of a dict keeps every key
    and stores its summary. *)
Lemma preview_of_items items :
  List.NoDup (map fst items) ->
  preview_of (VDict items) = map (fun kv => (fst kv, summary (fst kv) (snd kv))) items.
Proof.
  intros Hdistinct. unfold preview_of. rewrite preview_loop; [reflexivity | exact Hdistinct |].
  intros k _ [].
Qed.

Lemma summary_flat k v : k <> "metadata" -> nested (summary k v) = false.
Proof.
  intros Hk. unfold summary. apply String.eqb_neq in Hk. rewrite Hk.
  destruct v; reflexivity.
Qed.

Lemma summary_keeps k v : k = "metadata" \/ nested v = false -> summary k v = v.
Proof.
  intros [-> | Hflat]; unfold summary.
  - reflexivity.
  - destruct (String.eqb k "metadata"); [reflexivity |].
    destruct v; try reflexivity; discriminate Hflat.
Qed.

(** X29: the preview of an asset whose document is a dict that is not
    empty has the keys of the document, in order; under every key but
    [metadata] it holds no dict and no list (they are replaced by a
    string), and a value that is no dict and no list, like the value of
    [metadata], is in the preview as it is in the document. *)
Theorem preview_is_one_level (e : env) (id : string) (st : store) (a : asset)
    (items : list (string * value)) :
  get_asset_by_id id st = Some a ->
  get_asset_data e id st = Some (VDict items) ->
  items <> [] ->
  List.NoDup (map fst items) ->
  exists p,
    preview_asset e id st
    = inr {| preview_asset_id := id;
             preview_name := asset_name a;
             preview_description := Some (asset_description a);
             preview_content_type := Some (asset_content_type a);
             preview := VDict p |} /\
    map fst p = map fst items /\
    (forall k v, In (k, v) p -> k <> "metadata" -> nested v = false) /\
    (forall k v, In (k, v) items -> k = "metadata" \/ nested v = false -> In (k, v) p).
Proof.
  intros Ha Hdata Hitems Hdistinct.
  exists (map (fun kv => (fst kv, summary (fst kv) (snd kv))) items).
  split; [| split; [| split]].
  - unfold preview_asset. rewrite Ha, Hdata.
    destruct items as [| kv items']; [contradiction |].
    cbn [truthy length Nat.eqb negb]. rewrite preview_of_items by exact Hdistinct.
    reflexivity.
  - rewrite map_map. reflexivity.
  - intros k v Hin Hk. apply in_map_iff in Hin as ([k0 v0] & [= <- <-] & _).
    apply summary_flat, Hk.
  - intros k v Hin Hkeep. apply in_map_iff. exists (k, v). cbn [fst snd].
    rewrite (summary_keeps k v Hkeep). split; [reflexivity | exact Hin].
Qed.

Lemma preview_is_one_level_witness :
  exists p,
    preview_asset ENV_WITH_DATA "part-catalog-2024" INSTALLED_STORE
    = inr {| preview_asset_id := "part-catalog-2024";
             preview_name := "2024 Vehicle Part Catalog";
             preview_description :=
               asset_description <$> get_asset_by_id "part-catalog-2024" INSTALLED_STORE;
             preview_content_type := Some "application/json";
             preview := VDict p |} /\
    map fst p = ["metadata"; "parts"].
Proof.
  destruct (get_asset_by_id "part-catalog-2024" INSTALLED_STORE) as [a |] eqn:Ha;
    [| discriminate Ha].
  destruct (preview_is_one_level ENV_WITH_DATA "part-catalog-2024" INSTALLED_STORE a
              [("metadata", VDict [("model_year", VInt 2024)]);
               ("parts", VList [VStr "battery-pack"; VStr "drive-unit"])])
    as (p & Hp & Hkeys & _).
  - exact Ha.
  - reflexivity.
  - discriminate.
  - repeat constructor; cbn; intuition discriminate.
  - exists p. split; [| exact Hkeys]. rewrite Hp.
    injection Ha as <-. reflexivity.
Defined.

Lemma template_id k p :
  POLICY_TEMPLATES !! k = Some p ->
  policy_id p = "policy-" +:+ k /\ POLICY_TEMPLATES !! policy_id p = None.
Proof.
  intros H. unfold POLICY_TEMPLATES in H. apply elem_of_list_to_map_2 in H.
  repeat (apply elem_of_cons in H as [[= -> ->] | H]; [split; reflexivity |]).
  apply elem_of_nil in H. contradiction.
Qed.

Lemma datasets_of_ids assets : forall ds,
  datasets_of assets = inr ds -> map dataset_id ds = map asset_id assets.
Proof.
  induction assets as [| a assets IH]; intros ds; cbn [datasets_of].
  - intros [= <-]. reflexivity.
  - unfold dataset_of at 1.
    destruct (POLICY_TEMPLATES !! default "open-access" (asset_policy_id a)) as [p |];
      [| discriminate].
    destruct (datasets_of assets) as [err | ds'] eqn:Hrest; [discriminate |].
    intros [= <-]. cbn [map dataset_id]. rewrite (IH ds' eq_refl). reflexivity.
Qed.

(** X30: the id an offer publishes for its policy is the [id] of the
    template, which is [policy-] followed by the key of the template in
    [POLICY_TEMPLATES] and is itself no key.  So on any store,
    [get_dataset] answers 404 [DATASET_NOT_FOUND], or raises
    [AttributeError] on an asset whose policy is no template, or answers
    a dataset for whose published policy id [get_policy] answers 404
    [POLICY_NOT_FOUND]; and when [get_catalog] answers, it answers one
    dataset per asset, in order. *)
Theorem offered_policy_id_is_no_key (st : store) (id : string) :
  ((exists d,
      get_dataset id st = inl (HTTPException 404 d) /\
      error d = "DATASET_NOT_FOUND") \/
   get_dataset id st = inl (Unhandled AttributeError) \/
   (exists ds k d,
      get_dataset id st = inr ds /\
      dataset_id ds = id /\
      is_Some (POLICY_TEMPLATES !! k) /\
      offered_id (dataset_policy ds) = "policy-" +:+ k /\
      get_policy (offered_id (dataset_policy ds)) = inl (HTTPException 404 d) /\
      error d = "POLICY_NOT_FOUND")) /\
  (forall ds,
     get_catalog st = inr ds -> map dataset_id ds = map asset_id (assets st)).
Proof.
  split.
  - unfold get_dataset.
    destruct (get_asset_by_id id st) as [a |] eqn:Ha.
    + unfold get_asset_by_id in Ha. apply find_some in Ha as [_ Hid].
      apply String.eqb_eq in Hid. unfold dataset_of.
      destruct (POLICY_TEMPLATES !! default "open-access" (asset_policy_id a))
        as [p |] eqn:Hp; [| right; left; reflexivity].
      destruct (template_id _ p Hp) as [Hpid Hnone].
      right. right. eexists. exists (default "open-access" (asset_policy_id a)). eexists.
      split; [reflexivity |]. split; [exact Hid |]. split; [eauto |].
      cbn [dataset_policy offered_id]. split; [exact Hpid |].
      unfold get_policy. rewrite Hnone. split; reflexivity.
    + left. eexists. split; reflexivity.
  - intros ds. unfold get_catalog. apply datasets_of_ids.
Qed.

End ReadExtras.
